(** * WD14 batch tagger: a shallow embedding of [nodes.py]

    The development follows the Python module top-down: the string, float
    and path primitives the code relies on, the process-wide model cache,
    [ensure_model_available], [load_model_once],
    [BSS_WD14BatchTagger.tag_batch], the model dropdown and
    [BSS_LoadImagesFolder.load_images].  External collaborators (the
    Hugging Face hub client, ONNX Runtime, the CSV reader, PIL's
    resampling filter and the file system's willingness to open a file for
    writing) are the fields of a [World] record, the folder listing and
    the image decoder those of a [Disk] record; everything else is
    executable. *)

From Stdlib Require Import ZArith String Ascii List Bool Lia.
From Stdlib Require Import Floats.SpecFloat.
From Stdlib Require QArith Sorting.Mergesort.
From stdpp Require Import base option list gmap strings.

Open Scope string_scope.

(** ** Python [str] methods used by the module

    Strings are sequences of ASCII characters; [lower] and the whitespace
    class agree with CPython on code points below 128 and leave other
    bytes alone. *)
Module PyStr.

(** [str.isspace] on ASCII: TAB..CR, FS..US and SPACE. *)
Definition is_space (c : ascii) : bool :=
  let n := nat_of_ascii c in
  ((9 <=? n) && (n <=? 13) || (28 <=? n) && (n <=? 32))%nat.

Definition is_upper (c : ascii) : bool :=
  let n := nat_of_ascii c in ((65 <=? n) && (n <=? 90))%nat.

Definition lower_char (c : ascii) : ascii :=
  if is_upper c then ascii_of_nat (nat_of_ascii c + 32) else c.

Fixpoint lower (s : string) : string :=
  match s with
  | EmptyString => EmptyString
  | String c s' => String (lower_char c) (lower s')
  end.

Fixpoint lstrip (s : string) : string :=
  match s with
  | EmptyString => EmptyString
  | String c s' => if is_space c then lstrip s' else s
  end.

Definition is_empty (s : string) : bool :=
  match s with EmptyString => true | String _ _ => false end.

Fixpoint rstrip (s : string) : string :=
  match s with
  | EmptyString => EmptyString
  | String c s' =>
      let r := rstrip s' in
      if is_empty r && is_space c then EmptyString else String c r
  end.

Definition strip (s : string) : string := rstrip (lstrip s).

(** [s.replace(a, b)] for single-character [a] and [b]. *)
Fixpoint replace (a b : ascii) (s : string) : string :=
  match s with
  | EmptyString => EmptyString
  | String c s' =>
      String (if Ascii.eqb c a then b else c) (replace a b s')
  end.

(** [s.split(sep)] for a single-character separator: never empty. *)
Fixpoint split (sep : ascii) (s : string) : list string :=
  match s with
  | EmptyString => [EmptyString]
  | String c s' =>
      if Ascii.eqb c sep then EmptyString :: split sep s'
      else match split sep s' with
           | h :: t => String c h :: t
           | [] => [String c EmptyString]
           end
  end.

(** [sep in s] for a single character. *)
Fixpoint contains (sep : ascii) (s : string) : bool :=
  match s with
  | EmptyString => false
  | String c s' => Ascii.eqb c sep || contains sep s'
  end.

(** [sep.join(l)]. *)
Fixpoint join (sep : string) (l : list string) : string :=
  match l with
  | [] => EmptyString
  | [x] => x
  | x :: rest => x ++ sep ++ join sep rest
  end.

(** Truthiness of a [str]. *)
Definition truthy (s : string) : bool := negb (is_empty s).

(** [str.isascii]: every character below 128.  [lower], [strip] and
    [contains] above are the methods of [str] on such strings; the
    statements that depend on what they return assume it. *)
Fixpoint isascii (s : string) : bool :=
  match s with
  | EmptyString => true
  | String c s' => (nat_of_ascii c <? 128)%nat && isascii s'
  end.

End PyStr.

(** ** Python [float] (IEEE 754 binary64) through [SpecFloat] *)
Module PyFloat.

Definition prec : Z := 53.
Definition emax : Z := 1024.

(** [float(n)] for a Python [int]; [OverflowError] is [None]. *)
Definition of_int (n : Z) : option spec_float :=
  match binary_normalize prec emax n 0 false with
  | S754_infinity _ => None
  | f => Some f
  end.

(** [a / b] on two [int]s (true division); [ZeroDivisionError] and
    [OverflowError] are [None].  Exact for operands below [2^53]. *)
Definition truediv_int (a b : Z) : option spec_float :=
  if (b =? 0)%Z then None
  else match of_int a, of_int b with
       | Some x, Some y => Some (SFdiv prec emax x y)
       | _, _ => None
       end.

(** [n * x] for an [int] and a [float]. *)
Definition mul_int_float (n : Z) (x : spec_float) : option spec_float :=
  match of_int n with
  | Some y => Some (SFmul prec emax y x)
  | None => None
  end.

(** [int(x)]: truncation toward zero; infinities and NaN raise. *)
Definition to_int (x : spec_float) : option Z :=
  match x with
  | S754_zero _ => Some 0%Z
  | S754_finite s m e =>
      let mag :=
        match e with
        | Zneg p => Z.shiftr (Zpos m) (Zpos p)
        | _ => Z.shiftl (Zpos m) e
        end in
      Some (if s then Z.opp mag else mag)
  | _ => None
  end.

(** The number a finite float stands for; zero for the other floats. *)
Definition value (x : spec_float) : QArith_base.Q :=
  match x with
  | S754_finite s m e =>
      let mag :=
        match e with
        | Zneg p => QArith_base.Qmake (Zpos m) (2 ^ p)
        | _ => QArith_base.inject_Z (Zpos m * 2 ^ e)
        end in
      if s then QArith_base.Qopp mag else mag
  | _ => QArith_base.inject_Z 0
  end.

Definition is_number (x : spec_float) : bool :=
  match x with
  | S754_zero _ | S754_finite _ _ _ => true
  | _ => false
  end.

(** The comparison of IEEE 754: by the numbers the floats stand for,
    however they are represented; the two zeros are equal, an infinity
    lies beyond every number, and NaN is unordered. *)
Definition compare (x y : spec_float) : option comparison :=
  match x, y with
  | S754_nan, _ | _, S754_nan => None
  | S754_infinity s, S754_infinity t =>
      Some (match s, t with
            | true, false => Lt
            | false, true => Gt
            | _, _ => Eq
            end)
  | S754_infinity s, _ => Some (if s then Lt else Gt)
  | _, S754_infinity t => Some (if t then Gt else Lt)
  | _, _ => Some (QArith_base.Qcompare (value x) (value y))
  end.

(** [a < b] and [a <= b]. *)
Definition ltb (a b : spec_float) : bool :=
  match compare a b with Some Lt => true | _ => false end.

Definition leb (a b : spec_float) : bool :=
  match compare a b with Some (Lt | Eq) => true | _ => false end.

(** [a > b]. *)
Definition gt (a b : spec_float) : bool := ltb b a.

End PyFloat.

(** ** [numpy.float32] scalars

    The session's outputs are float32 values.  Since NumPy 2 a Python
    [float] that meets a float32 in an operation is converted to float32
    first, and the operation is done there. *)
Module NpFloat32.

Definition prec : Z := 24.
Definition emax : Z := 128.

(** [np.float32(x)] for a Python float: the nearest float32, ties to
    even; an infinity beyond the float32 range. *)
Definition of_float (x : spec_float) : spec_float :=
  match x with
  | S754_finite s m e =>
      binary_normalize prec emax (if s then Zneg m else Zpos m) e s
  | _ => x
  end.

(** [prob > threshold] for a float32 [prob] and a Python float
    [threshold]. *)
Definition gt (prob threshold : spec_float) : bool :=
  PyFloat.ltb (of_float threshold) prob.

(** The floats a float32 array holds. *)
Definition is_float32 (x : spec_float) : bool := valid_binary prec emax x.

End NpFloat32.

(** ** Rounding to float32, spelt out

    [np.float32(x)] keeps 24 bits of the mantissa.  For a mantissa [m]
    and an exponent [e], [q_of m e] is the exponent of the result,
    [rounded m e] its mantissa, rounded to nearest with ties to even,
    and [finish] builds the float, carrying a mantissa of 25 bits and
    overflowing to an infinity. *)
Definition RNE (M k : Z) : Z :=
  let a := (M / 2 ^ k)%Z in
  match Z.compare (2 * (M mod 2 ^ k)) (2 ^ k) with
  | Lt => a
  | Eq => if Z.even a then a else (a + 1)%Z
  | Gt => (a + 1)%Z
  end.

Definition q_of (m : positive) (e : Z) : Z :=
  fexp 24 128 (Zpos (digits2_pos m) + e).

Definition rounded (m : positive) (e : Z) : Z :=
  let q := q_of m e in
  if (q <=? e)%Z then (Zpos m * 2 ^ (e - q))%Z
  else RNE (Zpos m) (q - e).

Definition finish (s : bool) (n q : Z) : spec_float :=
  match n with
  | Z0 => S754_zero s
  | Zpos p =>
      if (n =? 2 ^ 24)%Z then
        if (q + 1 <=? 104)%Z then S754_finite s (2 ^ 23)%positive (q + 1)
        else S754_infinity s
      else if (q <=? 104)%Z then S754_finite s p q
      else S754_infinity s
  | Zneg _ => S754_nan
  end.

(** A float as a whole number of units [2^E], for floats with sign
    [signed]: [scaled E x] is [x / 2^E] where the exponent of [x] is at
    least [E].  In units of [2^-149], the least positive float32, every
    float32 is a whole number below [top], which stands for [2^128];
    [rank] puts the infinities at [top] and its opposite. *)
Definition signed (s : bool) (z : Z) : Z := if s then (- z)%Z else z.

Definition scaled (E : Z) (x : spec_float) : Z :=
  match x with
  | S754_finite s m e => signed s (Zpos m * 2 ^ (e - E))
  | _ => 0%Z
  end.

Definition top : Z := (2 ^ 277)%Z.

Definition rank (x : spec_float) : Z :=
  match x with
  | S754_infinity s => signed s top
  | _ => scaled (-149) x
  end.

Definition ranked (x : spec_float) : Prop :=
  match x with
  | S754_nan => False
  | S754_finite _ m e => (-149 <= e)%Z /\ (Zpos m * 2 ^ (e - -149) < top)%Z
  | _ => True
  end.

(** The rank of [np.float32(x)], from the rounded mantissa. *)
Definition level (x : spec_float) : Z :=
  match x with
  | S754_finite s m e =>
      signed s (Z.min (rounded m e * 2 ^ (q_of m e - -149)) top)
  | S754_infinity s => signed s top
  | _ => 0%Z
  end.

(** ** [pathlib] on POSIX-style paths

    A path is kept as the string [str] gives for it.  [Path(p)] parses
    [p] into a root and its parts: doubled slashes, a trailing slash and
    [.] components are dropped, [..] is kept, and a path with neither
    root nor parts prints as [.]. *)
Module Pathlib.

(** The components of a path, the root apart. *)
Definition parts (p : string) : list string :=
  List.filter (fun c => negb (PyStr.is_empty c || String.eqb c "."))
              (PyStr.split "/" p).

(** The root: [//] for exactly two leading slashes, [/] for one or for
    three and more, nothing for a relative path. *)
Definition root (p : string) : string :=
  match p with
  | String "/" (String "/" (String "/" _)) => "/"
  | String "/" (String "/" _) => "//"
  | String "/" _ => "/"
  | _ => EmptyString
  end.

(** [str] of the path with the given root and parts. *)
Definition render (r : string) (ps : list string) : string :=
  match r, ps with
  | EmptyString, [] => "."
  | _, _ => r ++ PyStr.join "/" ps
  end.

(** [str(Path(p))]. *)
Definition normalize (p : string) : string := render (root p) (parts p).

(** [str(Path(a) / b)]: an absolute [b] replaces [a]. *)
Definition joinpath (a b : string) : string :=
  if PyStr.is_empty (root b)
  then render (root a) (parts a ++ parts b)%list
  else normalize b.

(** [Path(p).name]: the last component, ignoring empty and [.] ones. *)
Definition name (p : string) : string :=
  List.last (parts p) EmptyString.

(** A single component: not empty, not [.], no slash in it. *)
Definition is_component (b : string) : bool :=
  negb (PyStr.is_empty b) && negb (String.eqb b ".")
  && negb (PyStr.contains "/" b).

(** What [Path(a) / b] puts before a single component [b]. *)
Definition dir_prefix (a : string) : string :=
  match parts a with
  | [] => root a
  | ps => root a ++ PyStr.join "/" ps ++ "/"
  end.

(** Index of the last occurrence of [c] in [s], counted from [i]. *)
Fixpoint rfind (c : ascii) (s : string) (i : nat) : option nat :=
  match s with
  | EmptyString => None
  | String d s' =>
      match rfind c s' (S i) with
      | Some j => Some j
      | None => if Ascii.eqb d c then Some i else None
      end
  end.

(** [Path(p).stem]: the name without its last suffix. *)
Definition stem (p : string) : string :=
  let n := name p in
  match rfind "." n 0 with
  | Some i =>
      if ((0 <? i) && (i <? String.length n - 1))%nat
      then String.substring 0 i n else n
  | None => n
  end.

End Pathlib.

Arguments Pathlib.joinpath : simpl never.

(** ** Data model *)

(** One entry of the [MODEL_CONFIGS] registry. *)
Module Config.
Record t := {
  repo_id : string;
  filename : string;
  csv_filename : string;
  display_name : string
}.
End Config.

(** The [MODEL_CONFIGS] dict literal: its items in source order, and the
    mapping they define. *)
Definition MODEL_CONFIGS_items : list (string * Config.t) :=
  [
    ("wd-vit-tagger-v3",
      {| Config.repo_id := "SmilingWolf/wd-vit-tagger-v3";
         Config.filename := "model.onnx";
         Config.csv_filename := "selected_tags.csv";
         Config.display_name := "WD ViT Tagger v3" |});
    ("wd-swinv2-tagger-v3",
      {| Config.repo_id := "SmilingWolf/wd-swinv2-tagger-v3";
         Config.filename := "model.onnx";
         Config.csv_filename := "selected_tags.csv";
         Config.display_name := "WD SwinV2 Tagger v3" |});
    ("wd-eva02-large-tagger-v3",
      {| Config.repo_id := "SmilingWolf/wd-eva02-large-tagger-v3";
         Config.filename := "model.onnx";
         Config.csv_filename := "selected_tags.csv";
         Config.display_name := "WD EVA02 Large Tagger v3" |});
    ("wd-convnext-tagger-v3",
      {| Config.repo_id := "SmilingWolf/wd-convnext-tagger-v3";
         Config.filename := "model.onnx";
         Config.csv_filename := "selected_tags.csv";
         Config.display_name := "WD ConvNeXT Tagger v3" |})
  ].

Definition MODEL_CONFIGS : gmap string Config.t :=
  list_to_map MODEL_CONFIGS_items.

(** ONNX Runtime values: execution providers, the entries of an input
    shape (an [int], a symbolic name or [None]) and a session with the
    metadata the code reads through [get_inputs()]. *)
Inductive provider := CUDAExecutionProvider | CPUExecutionProvider.

Inductive dim := DimInt (n : Z) | DimParam (s : string) | DimNone.

Module NodeArg.
Record t := { name : string; shape : list dim }.
End NodeArg.

Module Session.
Record t := {
  model : string;
  providers : list provider;
  get_inputs : list NodeArg.t
}.
End Session.

(** The global [model_cache] dict: five fixed keys, each [None] until the
    first successful load. *)
Module Cache.
Record t := {
  session : option Session.t;
  tags : option (list string);
  model_name : option string;
  input_name : option string;
  input_size : dim
}.

Definition empty : t :=
  {| session := None; tags := None; model_name := None;
     input_name := None; input_size := DimNone |}.
End Cache.

(** The global [batch_progress] object. *)
Module Progress.
Record t := {
  pbar : option nat;
  current_image : nat;
  total_images : nat;
  model_loaded : bool
}.

Definition initial : t :=
  {| pbar := None; current_image := 0; total_images := 0;
     model_loaded := false |}.

Definition update_image_progress (p : t) : t :=
  {| pbar := match pbar p with Some n => Some (S n) | None => None end;
     current_image := current_image p;
     total_images := total_images p;
     model_loaded := model_loaded p |}.

Definition next_image (p : t) : t :=
  {| pbar := pbar p;
     current_image := S (current_image p);
     total_images := total_images p;
     model_loaded := model_loaded p |}.
End Progress.

(** Pixels, decoded arrays of shape [(H, W, 3)] indexed [image[y, x]],
    PIL images of size [(width, height)] read with [getpixel (x, y)], and
    the float32 tensor of shape [(1, E, E, 3)] fed to the session. *)
Definition rgb : Type := Z * Z * Z.

Module NdArray.
Record t := { shape0 : Z; shape1 : Z; item : Z -> Z -> rgb }.
Definition size (a : t) : Z := (shape0 a * shape1 a * 3)%Z.
End NdArray.

Module PIL.
Record t := { width : Z; height : Z; getpixel : Z -> Z -> rgb }.
End PIL.

Definition tensor : Type := list (list (list (list spec_float))).

(** Calls that leave the process, in the order they happen.  A session
    event records whether the constructor returned a session. *)
Inductive event :=
| EvMkdir (dir : string)
| EvDownload (repo file local_dir : string)
| EvRename (src dst : string)
| EvNewSession (path : string) (provs : list provider) (built : bool)
| EvRun (input : string)
| EvOpenWrite (path : string).

(** The mutable state the module touches: the two globals, the files on
    disk (path to content) and the log of outside calls.  A file is
    named by its path as [pathlib] prints it; two such paths are taken
    to name two files (no links, no [..] leading back). *)
Record state := {
  model_cache : Cache.t;
  files : gmap string string;
  trace : list event;
  batch_progress : Progress.t
}.

(** External collaborators.  [None] stands for a raised exception. *)
Record World := {
  module_dir : string;
  hf_hub_download :
    string -> string -> string -> gmap string string ->
    option (gmap string string);
  InferenceSession :
    string -> list provider -> gmap string string -> option Session.t;
  csv_reader : string -> option (list (list string));
  session_run : Session.t -> string -> tensor -> option (list spec_float);
  LANCZOS : PIL.t -> Z -> Z -> Z -> Z -> rgb;
  open_w : string -> gmap string string -> bool
}.

(** ** Effects: state passing with exceptions

    A computation takes the state and returns either a value or the fact
    that an exception was raised, together with the state reached: what a
    Python function did before raising stays done. *)
Inductive result (A : Type) : Type :=
| Ok (a : A)
| Raised.
Arguments Ok {A} a.
Arguments Raised {A}.

Definition M (A : Type) : Type := state -> result A * state.

Definition ret {A : Type} (a : A) : M A := fun st => (Ok a, st).

Definition raise {A : Type} : M A := fun st => (Raised, st).

Definition bind {A B : Type} (m : M A) (k : A -> M B) : M B :=
  fun st =>
    match m st with
    | (Ok a, st') => k a st'
    | (Raised, st') => (Raised, st')
    end.

(** [try: body except Exception: handler]. *)
Definition try_except {A : Type} (body handler : M A) : M A :=
  fun st =>
    match body st with
    | (Ok a, st') => (Ok a, st')
    | (Raised, st') => handler st'
    end.

Definition gets {A : Type} (f : state -> A) : M A := fun st => (Ok (f st), st).

Definition modify (f : state -> state) : M unit := fun st => (Ok tt, f st).

Definition of_option {A : Type} (o : option A) : M A :=
  match o with
  | Some a => ret a
  | None => raise
  end.

Declare Scope py_scope.
Delimit Scope py_scope with py.
Notation "x <- m ;; k" := (bind m (fun x => k))
  (at level 100, m at next level, right associativity) : py_scope.
Notation "m ;; k" := (bind m (fun _ => k))
  (at level 100, right associativity) : py_scope.

(** State updates. *)
Definition set_model_cache (c : Cache.t) (st : state) : state :=
  {| model_cache := c; files := files st; trace := trace st;
     batch_progress := batch_progress st |}.

Definition set_files (fs : gmap string string) (st : state) : state :=
  {| model_cache := model_cache st; files := fs; trace := trace st;
     batch_progress := batch_progress st |}.

Definition set_batch_progress (p : Progress.t) (st : state) : state :=
  {| model_cache := model_cache st; files := files st; trace := trace st;
     batch_progress := p |}.

Definition log_event (e : event) (st : state) : state :=
  {| model_cache := model_cache st; files := files st;
     trace := (trace st ++ [e])%list; batch_progress := batch_progress st |}.

(** File-system and library primitives.  [Path.exists] is a lookup. *)
Definition file_exists (fs : gmap string string) (p : string) : bool :=
  match fs !! p with Some _ => true | None => false end.

Definition path_exists (p : string) : M bool :=
  gets (fun st => file_exists (files st) p).

(** [Path.mkdir(exist_ok=True)]: directories are not files of the map, so
    only the call is recorded.  The call returns whenever the directory
    exists or can be made, which is the case in every installation that
    holds a model file and in the worlds considered here.  Where it
    cannot (the path is a regular file, the parent cannot be written)
    the call raises, ahead of the [try] of [ensure_model_available];
    [load_model_once] catches that and returns [False]. *)
Definition mkdir (dir : string) : M unit := modify (log_event (EvMkdir dir)).

(** [Path.rename]: moves the content; a missing source raises. *)
Definition rename (src dst : string) : M unit :=
  fun st =>
    match files st !! src with
    | Some content =>
        (Ok tt, set_files (<[dst := content]> (delete src (files st)))
                  (log_event (EvRename src dst) st))
    | None => (Raised, st)
    end.

(** [hf_hub_download(repo_id=..., filename=..., local_dir=...)]: the return
    value is not used, only what the call did to the disk. *)
Definition hub_download (w : World) (repo file local_dir : string) : M unit :=
  fun st =>
    let st1 := log_event (EvDownload repo file local_dir) st in
    match hf_hub_download w repo file local_dir (files st) with
    | Some fs' => (Ok tt, set_files fs' st1)
    | None => (Raised, st1)
    end.

(** [ort.InferenceSession(path, providers=provs)]. *)
Definition new_session (w : World) (path : string) (provs : list provider)
  : M Session.t :=
  fun st =>
    match InferenceSession w path provs (files st) with
    | Some sess => (Ok sess, log_event (EvNewSession path provs true) st)
    | None => (Raised, log_event (EvNewSession path provs false) st)
    end.

(** [open(p)] for reading: a missing file raises. *)
Definition read_text (p : string) : M string :=
  fun st => of_option (files st !! p) st.

(** ** [ensure_model_available] *)

(** The [try] block: fetch whichever file is missing and give it its
    local name. *)
Definition download_missing (w : World) (config : Config.t)
  (model_dir model_path csv_path : string) : M (bool * string * string) :=
  ((have_model <- path_exists model_path ;;
    if negb have_model then
      hub_download w (Config.repo_id config) (Config.filename config)
                   model_dir ;;
      let downloaded_model :=
        Pathlib.joinpath model_dir (Config.filename config) in
      found <- path_exists downloaded_model ;;
      if found then rename downloaded_model model_path else ret tt
    else ret tt) ;;
   (have_csv <- path_exists csv_path ;;
    if negb have_csv then
      hub_download w (Config.repo_id config) (Config.csv_filename config)
                   model_dir ;;
      let downloaded_csv :=
        Pathlib.joinpath model_dir (Config.csv_filename config) in
      found <- path_exists downloaded_csv ;;
      if found then rename downloaded_csv csv_path else ret tt
    else ret tt) ;;
   ret (true, model_path, csv_path))%py.

(** Returns [(success, model_path, csv_path)]; any exception in the
    [try] block yields [(False, "", "")]. *)
Definition ensure_model_available (w : World) (model_name : string)
  : M (bool * string * string) :=
  match MODEL_CONFIGS !! model_name with
  | None => ret (false, "", "")
  | Some config =>
      let model_dir := Pathlib.joinpath (module_dir w) "models" in
      let model_path := Pathlib.joinpath model_dir (model_name ++ ".onnx") in
      let csv_path := Pathlib.joinpath model_dir (model_name ++ ".csv") in
      (mkdir model_dir ;;
       have_model <- path_exists model_path ;;
       have_csv <- path_exists csv_path ;;
       if have_model && have_csv then ret (true, model_path, csv_path)
       else
         try_except
           (download_missing w config model_dir model_path csv_path)
           (ret (false, "", "")))%py
  end.

(** [get_available_models]: [list(MODEL_CONFIGS.keys())], the keys in the
    order the dict literal lists them. *)
Definition get_available_models : list string :=
  MODEL_CONFIGS_items.*1.

(** ** [load_model_once] *)

Definition cache_hit (c : Cache.t) (model_name : string) : bool :=
  match Cache.model_name c, Cache.session c with
  | Some cached, Some _ => String.eqb cached model_name
  | _, _ => false
  end.

(** The loop over the CSV rows after the header: the second column of
    every row that has one. *)
Fixpoint read_tags (rows : list (list string)) : list string :=
  match rows with
  | [] => []
  | row :: rest =>
      if (1 <? length row)%nat
      then match row !! 1%nat with
           | Some tag => tag :: read_tags rest
           | None => read_tags rest
           end
      else read_tags rest
  end.

(** The [try] block of [load_model_once]: resolve the files, build the
    session (falling back to the CPU provider alone), read the input
    metadata and the labels, and only then fill the cache. *)
Definition load_model_body (w : World) (model_name : string) (use_gpu : bool)
  : M bool :=
  (resolved <- ensure_model_available w model_name ;;
   let '(success, model_path, csv_path) := resolved in
   if negb success then ret false
   else
     let providers :=
       if use_gpu then [CUDAExecutionProvider; CPUExecutionProvider]
       else [CPUExecutionProvider] in
     sess <- try_except
               (new_session w model_path providers)
               (new_session w model_path [CPUExecutionProvider]) ;;
     first_input <- of_option (Session.get_inputs sess !! 0%nat) ;;
     let input_name := NodeArg.name first_input in
     input_size <- of_option (NodeArg.shape first_input !! 1%nat) ;;
     csv_found <- path_exists csv_path ;;
     if negb csv_found then ret false
     else
       content <- read_text csv_path ;;
       rows <- of_option (csv_reader w content) ;;
       match rows with
       | [] => raise
       | _header :: rest =>
           let tags := read_tags rest in
           modify (set_model_cache
                     {| Cache.session := Some sess;
                        Cache.tags := Some tags;
                        Cache.model_name := Some model_name;
                        Cache.input_name := Some input_name;
                        Cache.input_size := input_size |}) ;;
           ret true
       end)%py.

Definition load_model_once (w : World) (model_name : string) (use_gpu : bool)
  : M bool :=
  (hit <- gets (fun st => cache_hit (model_cache st) model_name) ;;
   if hit then ret true
   else try_except (load_model_body w model_name use_gpu) (ret false))%py.

(** A run of calls for the same model, one per [use_gpu] value. *)
Fixpoint load_many (w : World) (model_name : string) (gpus : list bool)
  (st : state) : list (result bool) * state :=
  match gpus with
  | [] => ([], st)
  | use_gpu :: rest =>
      let '(r, st1) := load_model_once w model_name use_gpu st in
      let '(rs, st2) := load_many w model_name rest st1 in
      (r :: rs, st2)
  end.

(** Asset resolutions of registered models in a log (each starts with one
    [mkdir]) and sessions that were actually built. *)
Definition resolutions (tr : list event) : nat :=
  length (List.filter
            (fun e => match e with EvMkdir _ => true | _ => false end) tr).

Definition sessions_built (tr : list event) : nat :=
  length (List.filter
            (fun e => match e with
                      | EvNewSession _ _ built => built
                      | _ => false
                      end) tr).

(** ** [BSS_WD14BatchTagger.tag_batch]: the pure stages *)

(** [tag.replace("_", " ") if replace_underscore else tag]. *)
Definition process_tag (replace_underscore : bool) (tag : string) : string :=
  if replace_underscore then PyStr.replace "_" " " tag else tag.

(** The first loop: [processed_tags]. *)
Definition process_tags (replace_underscore : bool) (tags : list string)
  : list string :=
  List.fold_left
    (fun processed_tags tag =>
       (processed_tags ++ [process_tag replace_underscore tag])%list)
    tags [].

(** [[t.strip().lower() for t in exclude_tags.split(",") if t.strip()]]. *)
Definition parse_exclude (exclude_tags : string) : list string :=
  List.map (fun t => PyStr.lower (PyStr.strip t))
    (List.filter (fun t => PyStr.truthy (PyStr.strip t))
       (PyStr.split "," exclude_tags)).

(** [s in l] on a list of strings. *)
Definition str_in (s : string) (l : list string) : bool :=
  List.existsb (String.eqb s) l.

(** The test guarding [result_tags.append(tag)]: [prob] is one of the
    model's float32 outputs, [threshold] the Python float of the call. *)
Definition keep_tag (threshold : spec_float) (exclude_list : list string)
  (tag : string) (prob : spec_float) : bool :=
  NpFloat32.gt prob threshold
  && negb (str_in (PyStr.lower tag) exclude_list).

(** The second loop, over [zip(processed_tags, probs)]. *)
Definition filter_tags (threshold : spec_float) (exclude_list : list string)
  (processed_tags : list string) (probs : list spec_float) : list string :=
  List.fold_left
    (fun result_tags '(tag, prob) =>
       if keep_tag threshold exclude_list tag prob
       then (result_tags ++ [tag])%list else result_tags)
    (List.combine processed_tags probs) [].

(** What one (label, probability) pair contributes to [result_tags]. *)
Definition contribution (threshold : spec_float) (exclude_list : list string)
  (pair : string * spec_float) : list string :=
  if keep_tag threshold exclude_list (fst pair) (snd pair)
  then [fst pair] else [].

(** Truthiness of a list. *)
Definition nonempty {A : Type} (l : list A) : bool :=
  match l with [] => false | _ :: _ => true end.

(** "Build output string". *)
Definition build_output (prepend_tags : string) (result_tags : list string)
  : string :=
  let output_tags := PyStr.strip prepend_tags in
  let output_tags :=
    if PyStr.truthy output_tags && nonempty result_tags
    then output_tags ++ ", " else output_tags in
  output_tags ++ PyStr.join ", " result_tags.

(** The whole post-processing of one probability vector. *)
Definition compose_tags (tags : list string) (probs : list spec_float)
  (threshold : spec_float) (exclude_tags : string)
  (replace_underscore : bool) (prepend_tags : string) : string :=
  build_output prepend_tags
    (filter_tags threshold (parse_exclude exclude_tags)
       (process_tags replace_underscore tags) probs).

(** ** [tag_batch]: preprocessing *)

(** [image is None or image.size == 0 or image.shape[0] == 0 or
    image.shape[1] == 0]. *)
Definition image_is_empty (image : option NdArray.t) : bool :=
  match image with
  | None => true
  | Some a =>
      (NdArray.size a =? 0)%Z || (NdArray.shape0 a =? 0)%Z
      || (NdArray.shape1 a =? 0)%Z
  end.

Definition fromarray (a : NdArray.t) : PIL.t :=
  {| PIL.width := NdArray.shape1 a;
     PIL.height := NdArray.shape0 a;
     PIL.getpixel := fun x y => NdArray.item a y x |}.

(** [ratio = input_size / max(img.size)]. *)
Definition resize_ratio (input_size : Z) (img : PIL.t) : option spec_float :=
  PyFloat.truediv_int input_size (Z.max (PIL.width img) (PIL.height img)).

(** [(int(img.size[0] * ratio), int(img.size[1] * ratio))]. *)
Definition scaled_size (img : PIL.t) (ratio : spec_float) : option (Z * Z) :=
  match PyFloat.mul_int_float (PIL.width img) ratio with
  | Some fw =>
      match PyFloat.to_int fw with
      | Some new_w =>
          match PyFloat.mul_int_float (PIL.height img) ratio with
          | Some fh =>
              match PyFloat.to_int fh with
              | Some new_h => Some (new_w, new_h)
              | None => None
              end
          | None => None
          end
      | None => None
      end
  | None => None
  end.

(** [new_size[0] <= 0 or new_size[1] <= 0]. *)
Definition invalid_size (new_size : Z * Z) : bool :=
  (fst new_size <=? 0)%Z || (snd new_size <=? 0)%Z.

(** [img.resize(new_size, Image.LANCZOS)]: the result has the requested
    size; its pixels are the resampling filter's. *)
Definition resize (w : World) (img : PIL.t) (new_size : Z * Z) : PIL.t :=
  {| PIL.width := fst new_size;
     PIL.height := snd new_size;
     PIL.getpixel := LANCZOS w img (fst new_size) (snd new_size) |}.

(** [Image.new("RGB", size, color)]. *)
Definition Image_new (size : Z * Z) (color : rgb) : PIL.t :=
  {| PIL.width := fst size; PIL.height := snd size;
     PIL.getpixel := fun _ _ => color |}.

(** [base.paste(img, pos)]: pixels of [img] replace those of [base] inside
    the box that starts at [pos]; the part outside [base] is clipped. *)
Definition paste (base img : PIL.t) (pos : Z * Z) : PIL.t :=
  {| PIL.width := PIL.width base;
     PIL.height := PIL.height base;
     PIL.getpixel := fun x y =>
       if ((fst pos <=? x) && (x <? fst pos + PIL.width img)
           && (snd pos <=? y) && (y <? snd pos + PIL.height img))%Z
       then PIL.getpixel img (x - fst pos)%Z (y - snd pos)%Z
       else PIL.getpixel base x y |}.

(** [((input_size - new_size[0]) // 2, (input_size - new_size[1]) // 2)]. *)
Definition paste_pos (input_size : Z) (new_size : Z * Z) : Z * Z :=
  (((input_size - fst new_size) / 2)%Z, ((input_size - snd new_size) / 2)%Z).

(** [np.array(square)]: shape [(height, width, 3)], values 0..255. *)
Definition np_array (im : PIL.t) : list (list (list Z)) :=
  List.map
    (fun y =>
       List.map
         (fun x => let '(r, g, b) := PIL.getpixel im x y in [r; g; b])
         (seqZ 0 (PIL.width im)))
    (seqZ 0 (PIL.height im)).

(** [.astype(np.float32)] on one value: binary32 rounding. *)
Definition astype_float32 (v : Z) : spec_float :=
  binary_normalize 24 128 v 0 false.

(** [np.expand_dims(np.array(square).astype(np.float32)[:, :, ::-1], 0)]. *)
Definition to_model_input (square : PIL.t) : tensor :=
  [ List.map (List.map (fun px => List.rev (List.map astype_float32 px)))
      (np_array square) ].

(** Everything between the emptiness test and the call to the session,
    for an image already known to be non-empty.  The outer [option] is an
    exception, the inner one the "Invalid resize dimensions" return. *)
Definition preprocess (w : World) (input_size : dim) (a : NdArray.t)
  : option (option tensor) :=
  let img := fromarray a in
  match input_size with
  | DimInt edge =>
      match resize_ratio edge img with
      | Some ratio =>
          match scaled_size img ratio with
          | Some new_size =>
              if invalid_size new_size then Some None
              else
                let img := resize w img new_size in
                let square := Image_new (edge, edge) (255, 255, 255)%Z in
                let square := paste square img (paste_pos edge new_size) in
                Some (Some (to_model_input square))
          | None => None
          end
      | None => None
      end
  | _ => None
  end.

(** Reading the tensor: [inp[n][y][x][c]]. *)
Definition tensor_at (t : tensor) (n y x c : nat) : option spec_float :=
  match t !! n with
  | Some plane =>
      match plane !! y with
      | Some row =>
          match row !! x with
          | Some px => px !! c
          | None => None
          end
      | None => None
      end
  | None => None
  end.

(** The integer a float is exactly equal to, when there is one. *)
Definition int_value (x : spec_float) : option Z :=
  match x with
  | S754_zero _ => Some 0%Z
  | S754_finite s m e =>
      match e with
      | Zneg p =>
          if (Zpos m mod 2 ^ Zpos p =? 0)%Z
          then Some ((if s then Z.opp else id) (Zpos m / 2 ^ Zpos p)%Z)
          else None
      | _ => Some ((if s then Z.opp else id) (Zpos m * 2 ^ e)%Z)
      end
  | _ => None
  end.

(** The letterbox as the specification words it: the resized image
    centred on a white square of side [edge], white elsewhere. *)
Definition letterbox_spec (w : World) (img : PIL.t) (edge : Z)
  (new_size : Z * Z) (x y : Z) : rgb :=
  let off_x := ((edge - fst new_size) / 2)%Z in
  let off_y := ((edge - snd new_size) / 2)%Z in
  if ((off_x <=? x) && (x <? off_x + fst new_size)
      && (off_y <=? y) && (y <? off_y + snd new_size))%Z
  then LANCZOS w img (fst new_size) (snd new_size)
         (x - off_x)%Z (y - off_y)%Z
  else (255, 255, 255)%Z.

(** Channel [c] of a pixel in blue-green-red order. *)
Definition bgr_channel (px : rgb) (c : nat) : option Z :=
  let '(r, g, b) := px in [b; g; r] !! c.

(** ** [tag_batch]: the call *)

(** Why a call produced no tags. *)
Inductive failure :=
| LoadFailed
| EmptyImage
| InvalidResize
| Exception.

Inductive outcome :=
| Tagged (output_tags : string)
| Failed (why : failure).

(** [sess.run(None, {input_name: inp})[0][0]]. *)
Definition run_session (w : World) (sess : Session.t) (input_name : string)
  (inp : tensor) : M (list spec_float) :=
  fun st =>
    let st1 := log_event (EvRun input_name) st in
    match session_run w sess input_name inp with
    | Some probs => (Ok probs, st1)
    | None => (Raised, st1)
    end.

(** [with open(txt_path, "w", encoding="utf-8") as f: f.write(...)]. *)
Definition write_text (w : World) (path content : string) : M unit :=
  fun st =>
    let st1 := log_event (EvOpenWrite path) st in
    if open_w w path (files st)
    then (Ok tt, set_files (<[path := content]> (files st)) st1)
    else (Raised, st1).

(** [model.split("|")[0] if "|" in model else model]. *)
Definition model_name_of (model : string) : string :=
  if PyStr.contains "|" model
  then List.hd EmptyString (PyStr.split "|" model)
  else model.

(** From "Get cached model data" to the end of the [try] block. *)
Definition tag_with_cache (w : World) (image : option NdArray.t)
  (filename folder_path : string) (threshold : spec_float)
  (replace_underscore : bool) (prepend_tags exclude_tags : string)
  : M outcome :=
  (sess <- gets (fun st => Cache.session (model_cache st)) ;;
   tags <- gets (fun st => Cache.tags (model_cache st)) ;;
   input_name <- gets (fun st => Cache.input_name (model_cache st)) ;;
   input_size <- gets (fun st => Cache.input_size (model_cache st)) ;;
   tags <- of_option tags ;;
   let processed_tags := process_tags replace_underscore tags in
   let exclude_list := parse_exclude exclude_tags in
   match image with
   | Some a =>
       if image_is_empty image then ret (Failed EmptyImage)
       else
         prepared <- of_option (preprocess w input_size a) ;;
         match prepared with
         | None => ret (Failed InvalidResize)
         | Some inp =>
             sess <- of_option sess ;;
             input_name <- of_option input_name ;;
             probs <- run_session w sess input_name inp ;;
             let result_tags :=
               filter_tags threshold exclude_list processed_tags probs in
             let output_tags := build_output prepend_tags result_tags in
             (if PyStr.truthy folder_path then
                let base_name := Pathlib.stem filename in
                let txt_path :=
                  Pathlib.joinpath folder_path (base_name ++ ".txt") in
                try_except (write_text w txt_path output_tags) (ret tt)
              else ret tt) ;;
             modify (fun st =>
               set_batch_progress
                 (Progress.next_image
                    (Progress.update_image_progress (batch_progress st)))
                 st) ;;
             ret (Tagged output_tags)
         end
   | None => ret (Failed EmptyImage)
   end)%py.

(** The body of the outer [try]. *)
Definition tag_batch_body (w : World) (image : option NdArray.t)
  (filename folder_path model : string)
  (threshold character_threshold : spec_float)
  (replace_underscore use_gpu : bool) (prepend_tags exclude_tags : string)
  : M outcome :=
  (let model_name := model_name_of model in
   loaded <- load_model_once w model_name use_gpu ;;
   if negb loaded then ret (Failed LoadFailed)
   else
     tag_with_cache w image filename folder_path threshold
       replace_underscore prepend_tags exclude_tags)%py.

(** The outer [try ... except Exception: return ("",)]. *)
Definition tag_batch_outcome (w : World) (image : option NdArray.t)
  (filename folder_path model : string)
  (threshold character_threshold : spec_float)
  (replace_underscore use_gpu : bool) (prepend_tags exclude_tags : string)
  (st : state) : outcome * state :=
  match tag_batch_body w image filename folder_path model threshold
          character_threshold replace_underscore use_gpu prepend_tags
          exclude_tags st with
  | (Ok o, st') => (o, st')
  | (Raised, st') => (Failed Exception, st')
  end.

(** The string in the returned 1-tuple. *)
Definition returned (o : outcome) : string :=
  match o with
  | Tagged output_tags => output_tags
  | Failed _ => EmptyString
  end.

Definition tag_batch (w : World) (image : option NdArray.t)
  (filename folder_path model : string)
  (threshold character_threshold : spec_float)
  (replace_underscore use_gpu : bool) (prepend_tags exclude_tags : string)
  (st : state) : string * state :=
  let '(o, st') :=
    tag_batch_outcome w image filename folder_path model threshold
      character_threshold replace_underscore use_gpu prepend_tags
      exclude_tags st in
  (returned o, st').

(** ** Vocabulary of the specifications *)

(** [hoare P m Q]: from a state satisfying [P], running [m] ends, with a
    value or an exception, in a state related to the result by [Q]. *)
Definition hoare {A : Type} (P : state -> Prop) (m : M A)
  (Q : result A -> state -> Prop) : Prop :=
  forall st, P st -> Q (fst (m st)) (snd (m st)).

(** The cache is [c], and a computation that keeps it so. *)
Definition keeps (c : Cache.t) (st : state) : Prop := model_cache st = c.

Definition frame_cache {A : Type} (m : M A) : Prop :=
  forall c, hoare (keeps c) m (fun _ => keeps c).

(** Running [m] adds at most [r] asset resolutions and [s] built sessions
    to the log. *)
Definition adds {A : Type} (m : M A) (r s : nat) : Prop :=
  forall st,
    (resolutions (trace (snd (m st))) <= resolutions (trace st) + r)%nat
    /\ (sessions_built (trace (snd (m st)))
        <= sessions_built (trace st) + s)%nat.

(** The contract the resolver expects of the hub client: a call that
    returns has put the file under [local_dir/filename]. *)
Definition hub_places_files (w : World) : Prop :=
  forall repo file local_dir fs fs',
    hf_hub_download w repo file local_dir fs = Some fs' ->
    exists content, fs' = <[Pathlib.joinpath local_dir file := content]> fs.

(** The shape the two download blocks of [download_missing] share. *)
Definition fetch_as (w : World) (repo file local_dir target : string)
  : M unit :=
  (have <- path_exists target ;;
   if negb have then
     hub_download w repo file local_dir ;;
     found <- path_exists (Pathlib.joinpath local_dir file) ;;
     if found then rename (Pathlib.joinpath local_dir file) target
     else ret tt
   else ret tt)%py.

(** Strings of white space only, and strings that neither begin nor end
    with white space: every string is a [bare] core between two [blank]
    margins. *)
Fixpoint blank (s : string) : bool :=
  match s with
  | EmptyString => true
  | String c s' => PyStr.is_space c && blank s'
  end.

Definition starts_solid (s : string) : bool :=
  match s with
  | EmptyString => false
  | String c _ => negb (PyStr.is_space c)
  end.

Fixpoint ends_solid (s : string) : bool :=
  match s with
  | EmptyString => false
  | String c EmptyString => negb (PyStr.is_space c)
  | String _ s' => ends_solid s'
  end.

Definition bare (s : string) : bool :=
  PyStr.is_empty s || starts_solid s && ends_solid s.

(** The cache holds a complete entry for [model_name]. *)
Definition loaded_for (model_name : string) (c : Cache.t) : Prop :=
  exists sess tags input_name,
    Cache.session c = Some sess /\ Cache.tags c = Some tags
    /\ Cache.model_name c = Some model_name
    /\ Cache.input_name c = Some input_name.

(** ** The batch: one call per image

    The host maps the node over the list of images, calling [tag_batch]
    once per element, in order, in the same process. *)
Module Request.
Record t := {
  image : option NdArray.t;
  filename : string;
  folder_path : string;
  model : string;
  threshold : spec_float;
  character_threshold : spec_float;
  replace_underscore : bool;
  use_gpu : bool;
  prepend_tags : string;
  exclude_tags : string
}.

(** Two requests that agree on everything but [character_threshold]. *)
Definition same_but_character_threshold (r r' : t) : Prop :=
  image r = image r' /\ filename r = filename r'
  /\ folder_path r = folder_path r' /\ model r = model r'
  /\ threshold r = threshold r'
  /\ replace_underscore r = replace_underscore r'
  /\ use_gpu r = use_gpu r' /\ prepend_tags r = prepend_tags r'
  /\ exclude_tags r = exclude_tags r'.
End Request.

Definition tag_request (w : World) (r : Request.t) (st : state)
  : string * state :=
  tag_batch w (Request.image r) (Request.filename r)
    (Request.folder_path r) (Request.model r) (Request.threshold r)
    (Request.character_threshold r) (Request.replace_underscore r)
    (Request.use_gpu r) (Request.prepend_tags r) (Request.exclude_tags r)
    st.

Fixpoint run_batch (w : World) (requests : list Request.t) (st : state)
  : list string * state :=
  match requests with
  | [] => ([], st)
  | r :: rest =>
      let '(out, st1) := tag_request w r st in
      let '(outs, st2) := run_batch w rest st1 in
      (out :: outs, st2)
  end.

(** ** Concrete collaborators and states used by the examples *)
Module Fixture.

Definition nl : string := String (ascii_of_nat 10) EmptyString.

Definition labels_csv : string :=
  "tag_id,name,category,count" ++ nl ++
  "0,Cat,0,100" ++ nl ++
  "1,blue_sky,0,90" ++ nl ++
  "broken-row" ++ nl ++
  "2,tail,0,80".

Definition b64 (n : Z) : spec_float :=
  binary_normalize PyFloat.prec PyFloat.emax n 0 false.

(** The double nearest to [n / d]. *)
Definition frac (n d : Z) : spec_float :=
  SFdiv PyFloat.prec PyFloat.emax (b64 n) (b64 d).

(** The float32 nearest to that double. *)
Definition f32 (n d : Z) : spec_float := NpFloat32.of_float (frac n d).

Definition edge : Z := 8.

Definition the_session (path : string) (provs : list provider) : Session.t :=
  {| Session.model := path;
     Session.providers := provs;
     Session.get_inputs :=
       [ {| NodeArg.name := "input";
            NodeArg.shape :=
              [DimParam "batch_size"; DimInt edge; DimInt edge; DimInt 3] |} ]
  |}.

(** Unquoted CSV: one row per line, fields split on commas. *)
Definition simple_csv (content : string) : option (list (list string)) :=
  Some (List.map (PyStr.split ",") (PyStr.split (ascii_of_nat 10) content)).

Definition nearest (img : PIL.t) (new_w new_h x y : Z) : rgb :=
  PIL.getpixel img (x * PIL.width img / new_w)%Z
    (y * PIL.height img / new_h)%Z.

(** A hub that places the requested file under its remote name, ONNX
    Runtime that opens any existing file, and a model with four outputs,
    0.9, 0.35, 0.5 and 0.99: one more than the label file has usable
    rows. *)
Definition world : World :=
  {| module_dir := "/nodes";
     hf_hub_download := fun repo file local_dir fs =>
       Some (<[Pathlib.joinpath local_dir file :=
                 if String.eqb file "selected_tags.csv"
                 then labels_csv else "onnx"]> fs);
     InferenceSession := fun path provs fs =>
       if file_exists fs path then Some (the_session path provs) else None;
     csv_reader := simple_csv;
     session_run := fun _ _ _ =>
       Some [f32 9 10; f32 35 100; f32 1 2; f32 99 100];
     LANCZOS := nearest;
     open_w := fun _ _ => true |}.

(** The same, except that the hub is unreachable. *)
Definition offline_world : World :=
  {| module_dir := module_dir world;
     hf_hub_download := fun _ _ _ _ => None;
     InferenceSession := InferenceSession world;
     csv_reader := csv_reader world;
     session_run := session_run world;
     LANCZOS := LANCZOS world;
     open_w := open_w world |}.

(** The same, except that the hub returns normally without leaving the
    file under [local_dir/filename]. *)
Definition misplacing_world : World :=
  {| module_dir := module_dir world;
     hf_hub_download := fun repo file local_dir fs =>
       Some (<[Pathlib.joinpath local_dir ("cache/" ++ file) := "onnx"]> fs);
     InferenceSession := InferenceSession world;
     csv_reader := csv_reader world;
     session_run := session_run world;
     LANCZOS := LANCZOS world;
     open_w := open_w world |}.

Definition vit : string := "wd-vit-tagger-v3".

(** A fresh process with an empty models directory. *)
Definition fresh : state :=
  {| model_cache := Cache.empty;
     files := ∅;
     trace := [];
     batch_progress := Progress.initial |}.

(** A fresh process with both files of [vit] on disk. *)
Definition installed : state :=
  set_files
    (<["/nodes/models/wd-vit-tagger-v3.onnx" := "onnx"]>
       (<["/nodes/models/wd-vit-tagger-v3.csv" := labels_csv]> ∅))
    fresh.

(** A 4 x 2 grey image, and an array with no rows. *)
Definition grey : NdArray.t :=
  {| NdArray.shape0 := 2; NdArray.shape1 := 4;
     NdArray.item := fun _ _ => (128, 128, 128)%Z |}.

Definition no_rows : NdArray.t :=
  {| NdArray.shape0 := 0; NdArray.shape1 := 4;
     NdArray.item := fun _ _ => (0, 0, 0)%Z |}.

(** [installed] after one successful CPU load of [vit]. *)
Definition loaded : state := snd (load_model_once world vit false installed).

Definition cpu_session : Session.t :=
  the_session "/nodes/models/wd-vit-tagger-v3.onnx" [CPUExecutionProvider].

(** The tensor built from [grey] for the fixture's 8 x 8 input. *)
Definition grey_input : tensor :=
  match preprocess world (DimInt edge) grey with
  | Some (Some inp) => inp
  | _ => []
  end.

(** A request for [vit] at threshold 0.35 that writes no file. *)
Definition request (image : option NdArray.t) (name : string) : Request.t :=
  {| Request.image := image;
     Request.filename := name;
     Request.folder_path := "";
     Request.model := vit;
     Request.threshold := frac 35 100;
     Request.character_threshold := frac 85 100;
     Request.replace_underscore := true;
     Request.use_gpu := false;
     Request.prepend_tags := "";
     Request.exclude_tags := "" |}.

End Fixture.

(** ** The files of a model and the dropdown of [_get_model_choices] *)

(** The canonical paths of a model under a world's install directory. *)
Definition models_dir (w : World) : string :=
  Pathlib.joinpath (module_dir w) "models".

Definition onnx_path (w : World) (model_name : string) : string :=
  Pathlib.joinpath (models_dir w) (model_name ++ ".onnx").

Definition labels_path (w : World) (model_name : string) : string :=
  Pathlib.joinpath (models_dir w) (model_name ++ ".csv").

(** [_get_model_choices].  Whether the models directory exists is an
    argument: the file map holds files only. *)
Definition local_models (w : World) (model_dir_exists : bool)
  (fs : gmap string string) : list string :=
  if model_dir_exists
  then List.filter
         (fun model_name =>
            file_exists fs (onnx_path w model_name)
            && file_exists fs (labels_path w model_name))
         get_available_models
  else [].

Definition status_of (is_local : bool) : string :=
  if is_local then "✅" else "⬇️".

Definition get_model_choices (w : World) (model_dir_exists : bool)
  (fs : gmap string string) : list string :=
  let available_models := get_available_models in
  let local := local_models w model_dir_exists fs in
  List.fold_left
    (fun model_choices model_name =>
       match MODEL_CONFIGS !! model_name with
       | Some config =>
           let status := status_of (str_in model_name local) in
           let display_name :=
             status ++ " " ++ Config.display_name config
             ++ " (" ++ model_name ++ ")" in
           (model_choices
              ++ [(model_name ++ "|" ++ display_name)%string])%list
       | None => model_choices
       end)
    available_models [].

(** ** [BSS_LoadImagesFolder.load_images] *)

(** [Path(p).suffix]: the last suffix of the name, with its dot. *)
Definition suffix (p : string) : string :=
  let n := Pathlib.name p in
  match Pathlib.rfind "." n 0 with
  | Some i =>
      if ((0 <? i) && (i <? String.length n - 1))%nat
      then String.substring i (String.length n - i) n else EmptyString
  | None => EmptyString
  end.

(** What [load_images] asks of the machine: [os.path.exists], the names
    of the entries [Path.iterdir] yields ([None] when it raises),
    [Path.is_file], and [np.array(Image.open(p).convert("RGB"))]
    ([None] when opening or decoding raises). *)
Record Disk := {
  os_path_exists : string -> bool;
  iterdir : string -> option (list string);
  is_file : string -> bool;
  Image_open : string -> option NdArray.t
}.

(** The order of [sorted] on the children of one folder: the paths agree
    on every part but the last, so they compare as their names do, by
    code point. *)
Module PathOrder <: Orders.TotalLeBool.
Definition t := string.
Definition leb := String.leb.
Theorem leb_total (x y : t) : leb x y = true \/ leb y x = true.
Proof. apply String.leb_total. Qed.
End PathOrder.

Module PathSort := Mergesort.Sort PathOrder.

Definition sorted (names : list string) : list string :=
  PathSort.sort names.

Definition supported_extensions : list string :=
  [".jpg"; ".jpeg"; ".png"; ".webp"].

(** The filter of the comprehension over [folder.iterdir()]. *)
Definition is_candidate (d : Disk) (folder_path n : string) : bool :=
  str_in (PyStr.lower (suffix (Pathlib.joinpath folder_path n)))
         supported_extensions
  && is_file d (Pathlib.joinpath folder_path n).

(** [BatchProgressManager.init_progress]. *)
Definition init_progress (total_images : nat) (p : Progress.t)
  : Progress.t :=
  {| Progress.pbar := Some 0%nat;
     Progress.current_image := 0;
     Progress.total_images := total_images;
     Progress.model_loaded := false |}.

(** One round of the loop over [image_paths]; a file that fails to open
    or decodes to an empty array is skipped. *)
Definition load_one (d : Disk) (folder_path : string)
  (acc : list NdArray.t * list string) (n : string)
  : list NdArray.t * list string :=
  let '(images, filenames) := acc in
  match Image_open d (Pathlib.joinpath folder_path n) with
  | Some arr =>
      if (NdArray.size arr =? 0)%Z || (NdArray.shape0 arr =? 0)%Z
         || (NdArray.shape1 arr =? 0)%Z
      then acc
      else ((images ++ [arr])%list, (filenames ++ [n])%list)
  | None => acc
  end.

Definition load_images (d : Disk) (folder_path : string) (st : state)
  : (list NdArray.t * list string * string) * state :=
  if negb (PyStr.truthy folder_path) || negb (os_path_exists d folder_path)
  then (([], [], folder_path), st)
  else
    match iterdir d folder_path with
    | None => (([], [], folder_path), st)
    | Some entries =>
        let image_paths :=
          sorted (List.filter (is_candidate d folder_path) entries) in
        let total_images := length image_paths in
        let st1 :=
          set_batch_progress
            (init_progress total_images (batch_progress st)) st in
        let '(images, filenames) :=
          List.fold_left (load_one d folder_path) image_paths ([], []) in
        ((images, filenames, folder_path), st1)
    end.

(** ** More vocabulary *)

(** The session [load_model_once] ends up with: the one for the requested
    providers, else the one for the CPU provider alone. *)
Definition session_or_fallback (w : World) (path : string) (use_gpu : bool)
  (fs : gmap string string) : option Session.t :=
  match InferenceSession w path
          (if use_gpu then [CUDAExecutionProvider; CPUExecutionProvider]
           else [CPUExecutionProvider]) fs with
  | Some sess => Some sess
  | None => InferenceSession w path [CPUExecutionProvider] fs
  end.

(** The state after the session attempts of a load whose files were
    already on disk. *)
Definition after_session_attempts (w : World) (model_name : string)
  (use_gpu : bool) (st : state) : state :=
  let provs := if use_gpu
               then [CUDAExecutionProvider; CPUExecutionProvider]
               else [CPUExecutionProvider] in
  let st0 := log_event (EvMkdir (models_dir w)) st in
  match InferenceSession w (onnx_path w model_name) provs (files st) with
  | Some _ => log_event (EvNewSession (onnx_path w model_name) provs true) st0
  | None =>
      log_event
        (EvNewSession (onnx_path w model_name) [CPUExecutionProvider]
           (match InferenceSession w (onnx_path w model_name)
                    [CPUExecutionProvider] (files st) with
            | Some _ => true
            | None => false
            end))
        (log_event (EvNewSession (onnx_path w model_name) provs false) st0)
  end.

(** What a session and a label file must offer for a load to succeed:
    a first input with a second dimension, and rows with a header. *)
Definition usable_assets (w : World) (sess : Session.t) (content : string)
  : option (string * dim * list string) :=
  match Session.get_inputs sess !! 0%nat with
  | Some first_input =>
      match NodeArg.shape first_input !! 1%nat with
      | Some input_size =>
          match csv_reader w content with
          | Some (_header :: rest) =>
              Some (NodeArg.name first_input, input_size, read_tags rest)
          | _ => None
          end
      | None => None
      end
  | None => None
  end.

(** A computation that leaves one component of the state alone. *)
Definition preserves {A B : Type} (proj : state -> B) (m : M A) : Prop :=
  forall b, hoare (fun st => proj st = b) m (fun _ st => proj st = b).

(** The path of the tags file of an image. *)
Definition txt_path_of (folder_path filename : string) : string :=
  Pathlib.joinpath folder_path (Pathlib.stem filename ++ ".txt").

(** One registered model's entry of the dropdown. *)
Definition choice_of (w : World) (model_dir_exists : bool)
  (fs : gmap string string) (model_name : string) (config : Config.t)
  : string :=
  model_name ++ "|"
  ++ status_of (model_dir_exists
                && file_exists fs (onnx_path w model_name)
                && file_exists fs (labels_path w model_name))
  ++ " " ++ Config.display_name config ++ " (" ++ model_name ++ ")".

(** The pairs one candidate contributes to the two result lists. *)
Definition decoded (d : Disk) (folder_path n : string)
  : list (NdArray.t * string) :=
  match Image_open d (Pathlib.joinpath folder_path n) with
  | Some arr => if image_is_empty (Some arr) then [] else [(arr, n)]
  | None => []
  end.

(** ** More collaborators and states for the examples *)

Module Scenario.

(** A hub that serves model files and fails on label files. *)
Definition labels_unreachable : World :=
  {| module_dir := module_dir Fixture.world;
     hf_hub_download := fun repo file local_dir fs =>
       if String.eqb file "selected_tags.csv" then None
       else hf_hub_download Fixture.world repo file local_dir fs;
     InferenceSession := InferenceSession Fixture.world;
     csv_reader := csv_reader Fixture.world;
     session_run := session_run Fixture.world;
     LANCZOS := LANCZOS Fixture.world;
     open_w := open_w Fixture.world |}.

(** ONNX Runtime without CUDA: any provider list naming it is refused. *)
Definition no_cuda : World :=
  {| module_dir := module_dir Fixture.world;
     hf_hub_download := hf_hub_download Fixture.world;
     InferenceSession := fun path provs fs =>
       match provs with
       | CUDAExecutionProvider :: _ => None
       | _ => InferenceSession Fixture.world path provs fs
       end;
     csv_reader := csv_reader Fixture.world;
     session_run := session_run Fixture.world;
     LANCZOS := LANCZOS Fixture.world;
     open_w := open_w Fixture.world |}.

(** A disk that refuses every file opened for writing. *)
Definition read_only : World :=
  {| module_dir := module_dir Fixture.world;
     hf_hub_download := hf_hub_download Fixture.world;
     InferenceSession := InferenceSession Fixture.world;
     csv_reader := csv_reader Fixture.world;
     session_run := session_run Fixture.world;
     LANCZOS := LANCZOS Fixture.world;
     open_w := fun _ _ => false |}.

(** The model file of [vit] is on disk, its label file is not. *)
Definition model_only : state :=
  set_files (<["/nodes/models/wd-vit-tagger-v3.onnx" := "onnx"]> ∅)
    Fixture.fresh.

(** [vit] cached from a model whose input height is a symbolic axis. *)
Definition dynamic_axes : state :=
  set_model_cache
    {| Cache.session := Some Fixture.cpu_session;
       Cache.tags := Some ["Cat"; "blue_sky"; "tail"];
       Cache.model_name := Some Fixture.vit;
       Cache.input_name := Some "input";
       Cache.input_size := DimParam "height" |}
    Fixture.installed.

End Scenario.

Module Album.

(** A folder with two pictures, a picture that does not decode, a
    picture without pixels, a text file and a sub-folder named like a
    picture. *)
Definition tall : NdArray.t :=
  {| NdArray.shape0 := 4; NdArray.shape1 := 2;
     NdArray.item := fun _ _ => (1, 2, 3)%Z |}.

Definition blank : NdArray.t :=
  {| NdArray.shape0 := 0; NdArray.shape1 := 5;
     NdArray.item := fun _ _ => (0, 0, 0)%Z |}.

Definition disk : Disk :=
  {| os_path_exists := fun p => String.eqb p "/in";
     iterdir := fun p =>
       if String.eqb p "/in"
       then Some ["b.PNG"; "notes.txt"; "dir.jpg"; "a.jpg"; "broken.webp";
                  "blank.png"]
       else None;
     is_file := fun p => negb (String.eqb p "/in/dir.jpg");
     Image_open := fun p =>
       if String.eqb p "/in/a.jpg" then Some Fixture.grey
       else if String.eqb p "/in/b.PNG" then Some tall
       else if String.eqb p "/in/blank.png" then Some blank
       else None |}.

End Album.

(** * Properties *)

(** ** The two loops of [tag_batch] as list functions *)

Lemma fold_left_append_map {A B : Type} (f : A -> B) (l : list A)
  (acc : list B) :
  List.fold_left (fun acc x => (acc ++ [f x])%list) l acc
  = (acc ++ List.map f l)%list.
Proof.
  revert acc. induction l as [|x l IH]; intros acc; simpl.
  - now rewrite List.app_nil_r.
  - rewrite IH, <- List.app_assoc. reflexivity.
Qed.

Lemma process_tags_map (replace_underscore : bool) (tags : list string) :
  process_tags replace_underscore tags
  = List.map (process_tag replace_underscore) tags.
Proof. unfold process_tags. now rewrite fold_left_append_map. Qed.

Lemma filter_loop_flat_map (threshold : spec_float)
  (exclude_list : list string) (pairs : list (string * spec_float))
  (acc : list string) :
  List.fold_left
    (fun result_tags '(tag, prob) =>
       if keep_tag threshold exclude_list tag prob
       then (result_tags ++ [tag])%list else result_tags)
    pairs acc
  = (acc ++ List.flat_map (contribution threshold exclude_list) pairs)%list.
Proof.
  revert acc. induction pairs as [|[tag prob] pairs IH]; intros acc; simpl.
  - now rewrite List.app_nil_r.
  - rewrite IH. unfold contribution at 2; simpl.
    destruct (keep_tag threshold exclude_list tag prob); simpl.
    + now rewrite <- List.app_assoc.
    + reflexivity.
Qed.

Lemma filter_tags_flat_map (threshold : spec_float)
  (exclude_list : list string) (processed_tags : list string)
  (probs : list spec_float) :
  filter_tags threshold exclude_list processed_tags probs
  = List.flat_map (contribution threshold exclude_list)
      (List.combine processed_tags probs).
Proof. unfold filter_tags. now rewrite filter_loop_flat_map. Qed.

Lemma str_in_In (s : string) (l : list string) :
  str_in s l = true <-> List.In s l.
Proof.
  unfold str_in. rewrite List.existsb_exists. split.
  - intros [x [Hin Heq]]. apply String.eqb_eq in Heq. now subst.
  - intros Hin. exists s. split; [assumption | apply String.eqb_refl].
Qed.

Lemma str_in_false (s : string) (l : list string) :
  str_in s l = false <-> ~ List.In s l.
Proof.
  rewrite <- str_in_In. destruct (str_in s l); split; intros H;
    try reflexivity; try discriminate; try (intros H'; discriminate).
  exfalso. now apply H.
Qed.

(** ** The order on floats *)

Lemma compare_numbers (x y : spec_float) :
  PyFloat.is_number x = true -> PyFloat.is_number y = true ->
  PyFloat.compare x y
  = Some (QArith_base.Qcompare (PyFloat.value x) (PyFloat.value y)).
Proof. destruct x, y; simpl; try discriminate; reflexivity. Qed.

Lemma classify (x : spec_float) :
  x = S754_nan \/ (exists s, x = S754_infinity s)
  \/ PyFloat.is_number x = true.
Proof. destruct x as [s|s| |s m e]; eauto. Qed.

Lemma compare_inf_l (s : bool) (y : spec_float) :
  PyFloat.is_number y = true ->
  PyFloat.compare (S754_infinity s) y = Some (if s then Lt else Gt).
Proof. destruct y; simpl; try discriminate; reflexivity. Qed.

Lemma compare_inf_r (x : spec_float) (t : bool) :
  PyFloat.is_number x = true ->
  PyFloat.compare x (S754_infinity t) = Some (if t then Gt else Lt).
Proof. destruct x; simpl; try discriminate; reflexivity. Qed.

Lemma compare_nan_r (x : spec_float) : PyFloat.compare x S754_nan = None.
Proof. now destruct x. Qed.

Ltac by_class x :=
  destruct (classify x) as [->|[[? ->]|?]].

Ltac compare_norm :=
  rewrite ?compare_nan_r;
  repeat match goal with
    | Hx : PyFloat.is_number ?x = true, Hy : PyFloat.is_number ?y = true
      |- context [PyFloat.compare ?x ?y] =>
        rewrite (compare_numbers x y Hx Hy)
    | Hy : PyFloat.is_number ?y = true
      |- context [PyFloat.compare (S754_infinity ?s) ?y] =>
        rewrite (compare_inf_l s y Hy)
    | Hx : PyFloat.is_number ?x = true
      |- context [PyFloat.compare ?x (S754_infinity ?t)] =>
        rewrite (compare_inf_r x t Hx)
    end.

(** Two floats that compare equal are not ordered, either way round. *)
Lemma compare_Eq_sym (x y : spec_float) :
  PyFloat.compare x y = Some Eq -> PyFloat.compare y x = Some Eq.
Proof.
  by_class x; by_class y; compare_norm; simpl;
    try discriminate;
    repeat match goal with s : bool |- _ => destruct s end;
    try discriminate; try reflexivity.
  intros Hcmp. injection Hcmp as Hcmp.
  rewrite <- QArith_base.Qcompare_antisym, Hcmp. reflexivity.
Qed.

Lemma leb_ltb_trans (a b c : spec_float) :
  PyFloat.leb a b = true -> PyFloat.ltb b c = true ->
  PyFloat.ltb a c = true.
Proof.
  unfold PyFloat.leb, PyFloat.ltb.
  by_class a; by_class b; by_class c; compare_norm; simpl;
    try discriminate;
    repeat match goal with s : bool |- _ => destruct s end;
    try discriminate; try reflexivity.
  destruct (QArith_base.Qcompare (PyFloat.value a) (PyFloat.value b))
    eqn:Hab; try discriminate;
  destruct (QArith_base.Qcompare (PyFloat.value b) (PyFloat.value c))
    eqn:Hbc; try discriminate; intros _ _.
  - apply QArith_base.Qeq_alt in Hab. apply QArith_base.Qlt_alt in Hbc.
    rewrite <- Hab in Hbc.
    now rewrite (proj1 (QArith_base.Qlt_alt _ _) Hbc).
  - apply QArith_base.Qlt_alt in Hab, Hbc.
    pose proof (QArith_base.Qlt_trans _ _ _ Hab Hbc) as Hac.
    now rewrite (proj1 (QArith_base.Qlt_alt _ _) Hac).
Qed.

(** Comparison sees the value only: floats that compare equal compare
    alike with every third float. *)
Lemma compare_Eq_l (a b c : spec_float) :
  PyFloat.compare a b = Some Eq ->
  PyFloat.compare a c = PyFloat.compare b c.
Proof.
  by_class a; by_class b; by_class c; compare_norm; simpl;
    try discriminate; try reflexivity;
    repeat match goal with s : bool |- _ => destruct s end;
    try discriminate; try reflexivity.
  intros Hcmp. injection Hcmp as Hcmp.
  apply QArith_base.Qeq_alt in Hcmp. now rewrite Hcmp.
Qed.

(** ** Rounding to float32 *)

Section Float32Rounding.
Local Open Scope Z_scope.

(** Bit length. *)
Lemma digits2_pos_bounds (m : positive) :
  2 ^ (Zpos (digits2_pos m) - 1) <= Zpos m < 2 ^ Zpos (digits2_pos m).
Proof.
  induction m as [m IH|m IH|]; simpl digits2_pos.
  - rewrite Pos2Z.inj_succ.
    replace (Z.succ (Zpos (digits2_pos m)) - 1)
      with (Z.succ (Zpos (digits2_pos m) - 1)) by lia.
    rewrite !Z.pow_succ_r by lia. lia.
  - rewrite Pos2Z.inj_succ.
    replace (Z.succ (Zpos (digits2_pos m)) - 1)
      with (Z.succ (Zpos (digits2_pos m) - 1)) by lia.
    rewrite !Z.pow_succ_r by lia. lia.
  - simpl. lia.
Qed.

(** [iter_pos] is iteration. *)
Lemma iter_pos_nat {A : Type} (f : A -> A) (p : positive) (x : A) :
  SpecFloat.iter_pos f p x = Nat.iter (Pos.to_nat p) f x.
Proof.
  revert x. induction p as [p IH|p IH|]; intros x; simpl SpecFloat.iter_pos.
  - rewrite !IH, Pos2Nat.inj_xI.
    replace (S (2 * Pos.to_nat p))%nat
      with (Pos.to_nat p + S (Pos.to_nat p))%nat by lia.
    rewrite Nat.iter_add. f_equal. now rewrite Nat.iter_succ_r.
  - rewrite !IH, Pos2Nat.inj_xO.
    replace (2 * Pos.to_nat p)%nat
      with (Pos.to_nat p + Pos.to_nat p)%nat by lia.
    now rewrite Nat.iter_add.
  - reflexivity.
Qed.

Lemma shr_1_spec (m : Z) (r s : bool) :
  0 <= m ->
  shr_1 {| shr_m := m; shr_r := r; shr_s := s |}
  = {| shr_m := m / 2; shr_r := Z.odd m; shr_s := r || s |}.
Proof.
  intros Hm. rewrite <- Z.div2_div.
  destruct m as [|[p|p|]|p]; try reflexivity; lia.
Qed.

(** After [k >= 1] steps from an exact record. *)
Lemma shr_iter (M : Z) (k : nat) :
  0 <= M ->
  Nat.iter (S k) shr_1 {| shr_m := M; shr_r := false; shr_s := false |}
  = {| shr_m := M / 2 ^ Z.of_nat (S k);
       shr_r := Z.testbit M (Z.of_nat k);
       shr_s := negb (M mod 2 ^ Z.of_nat k =? 0) |}.
Proof.
  intros HM. induction k as [|k IH].
  - unfold Nat.iter. cbn [nat_rect]. rewrite shr_1_spec by exact HM.
    change (2 ^ Z.of_nat 1) with 2. change (2 ^ Z.of_nat 0) with 1.
    rewrite Z.mod_1_r. change (Z.of_nat 0) with 0.
    rewrite Z.bit0_odd. reflexivity.
  - rewrite Nat.iter_succ, IH.
    rewrite shr_1_spec by (apply Z.div_pos; lia).
    f_equal.
    + rewrite Z.div_div by lia. f_equal.
      rewrite (Nat2Z.inj_succ (S k)), Z.pow_succ_r by lia. lia.
    + rewrite (Nat2Z.inj_succ k).
      rewrite <- Z.shiftr_div_pow2 by lia.
      rewrite <- Z.bit0_odd, Z.shiftr_spec by lia. f_equal.
    + rewrite (Nat2Z.inj_succ k).
      rewrite Z.pow_succ_r by lia.
      pose proof (Z.testbit_spec' M (Z.of_nat k) ltac:(lia)) as Hbit.
      set (P := 2 ^ Z.of_nat k) in *.
      assert (HP : 0 < P) by (apply Z.pow_pos_nonneg; lia).
      assert (Hdm : M mod (2 * P) = P * ((M / P) mod 2) + M mod P).
      { rewrite (Z.mul_comm 2 P), Z.rem_mul_r by lia. lia. }
      rewrite Hdm.
      assert (Hr : 0 <= M mod P < P) by (apply Z.mod_pos_bound; lia).
      destruct (Z.testbit M (Z.of_nat k)); simpl Z.b2z in Hbit;
        rewrite <- Hbit; simpl orb.
      * symmetry. apply negb_true_iff, Z.eqb_neq. lia.
      * now replace (P * 0 + M mod P) with (M mod P) by lia.
Qed.


Lemma round_shr (M : Z) (k : nat) :
  0 <= M ->
  let mrs :=
    Nat.iter (S k) shr_1 {| shr_m := M; shr_r := false; shr_s := false |} in
  round_nearest_even (shr_m mrs) (loc_of_shr_record mrs)
  = RNE M (Z.of_nat (S k)).
Proof.
  intros HM mrs. subst mrs. rewrite (shr_iter M k HM).
  unfold RNE. cbn [shr_m loc_of_shr_record].
  rewrite (Nat2Z.inj_succ k), Z.pow_succ_r by lia.
  pose proof (Z.testbit_spec' M (Z.of_nat k) ltac:(lia)) as Hbit.
  set (P := 2 ^ Z.of_nat k) in *.
  assert (HP : 0 < P) by (apply Z.pow_pos_nonneg; lia).
  assert (Hdm : M mod (2 * P) = P * ((M / P) mod 2) + M mod P).
  { rewrite (Z.mul_comm 2 P), Z.rem_mul_r by lia. lia. }
  rewrite Hdm.
  assert (Hr : 0 <= M mod P < P) by (apply Z.mod_pos_bound; lia).
  destruct (Z.testbit M (Z.of_nat k)); simpl Z.b2z in Hbit;
    rewrite <- Hbit;
    destruct (M mod P =? 0) eqn:Hs; simpl negb;
    cbn [round_nearest_even];
    [apply Z.eqb_eq in Hs | apply Z.eqb_neq in Hs
    |apply Z.eqb_eq in Hs | apply Z.eqb_neq in Hs].
  - replace (2 * (P * 1 + M mod P) ?= 2 * P) with Eq; [reflexivity|].
    symmetry. apply Z.compare_eq_iff. lia.
  - replace (2 * (P * 1 + M mod P) ?= 2 * P) with Gt; [reflexivity|].
    symmetry. apply Z.compare_gt_iff. lia.
  - replace (2 * (P * 0 + M mod P) ?= 2 * P) with Lt; [reflexivity|].
    symmetry. apply Z.compare_lt_iff. lia.
  - replace (2 * (P * 0 + M mod P) ?= 2 * P) with Lt; [reflexivity|].
    symmetry. apply Z.compare_lt_iff. lia.
Qed.

Lemma RNE_0 (M : Z) : RNE M 0 = M.
Proof.
  unfold RNE. change (2 ^ 0) with 1. rewrite Z.mod_1_r, Z.div_1_r.
  reflexivity.
Qed.

Lemma RNE_bounds (M k : Z) :
  0 <= k -> M / 2 ^ k <= RNE M k <= M / 2 ^ k + 1.
Proof.
  intros Hk. unfold RNE.
  destruct (2 * (M mod 2 ^ k) ?= 2 ^ k); [|lia|lia].
  destruct (Z.even (M / 2 ^ k)); lia.
Qed.

Lemma iter_xO (m d : positive) :
  Zpos (Pos.iter xO m d) = Zpos m * 2 ^ Zpos d
  /\ digits2_pos (Pos.iter xO m d) = (digits2_pos m + d)%positive.
Proof.
  induction d as [|d [IH1 IH2]] using Pos.peano_ind.
  - simpl. split; [lia|]. now rewrite Pos.add_1_r.
  - rewrite Pos.iter_succ. split.
    + rewrite Pos2Z.inj_xO, IH1, Pos2Z.inj_succ, Z.pow_succ_r by lia. lia.
    + simpl digits2_pos. rewrite IH2. lia.
Qed.

Lemma q_of_bounds (m : positive) (e : Z) :
  -149 <= q_of m e /\ Zpos (digits2_pos m) + e - 24 <= q_of m e.
Proof. unfold q_of, fexp, emin. lia. Qed.

Lemma rounded_bounds (m : positive) (e : Z) :
  0 <= rounded m e <= 2 ^ 24.
Proof.
  unfold rounded.
  destruct (q_of_bounds m e) as [Hq1 Hq2].
  destruct (digits2_pos_bounds m) as [Hd1 Hd2].
  set (d := Zpos (digits2_pos m)) in *. set (q := q_of m e) in *.
  destruct (Z.leb_spec q e) as [Hle|Hgt].
  - split; [apply Z.mul_nonneg_nonneg; [lia | apply Z.pow_nonneg; lia]|].
    assert (Zpos m * 2 ^ (e - q) < 2 ^ d * 2 ^ (e - q)).
    { apply Z.mul_lt_mono_pos_r; [apply Z.pow_pos_nonneg; lia | lia]. }
    rewrite <- Z.pow_add_r in H by lia.
    assert (2 ^ (d + (e - q)) <= 2 ^ 24)
      by (apply Z.pow_le_mono_r; lia).
    lia.
  - pose proof (RNE_bounds (Zpos m) (q - e) ltac:(lia)) as [Hb1 Hb2].
    assert (HP : 0 < 2 ^ (q - e)) by (apply Z.pow_pos_nonneg; lia).
    assert (0 <= Zpos m / 2 ^ (q - e)) by (apply Z.div_pos; lia).
    split; [lia|].
    assert (Zpos m / 2 ^ (q - e) < 2 ^ 24); [|lia].
    apply Z.div_lt_upper_bound; [lia|].
    rewrite <- Z.pow_add_r by lia.
    assert (2 ^ d <= 2 ^ (q - e + 24)) by (apply Z.pow_le_mono_r; lia).
    lia.
Qed.

Lemma shr_nonpos (mrs : shr_record) (e n : Z) :
  n <= 0 -> shr mrs e n = (mrs, e).
Proof. intros Hn. destruct n; [reflexivity | lia | reflexivity]. Qed.

Lemma shr_pos (M e n : Z) :
  0 <= M -> 0 < n ->
  let '(mrs, e') :=
    shr {| shr_m := M; shr_r := false; shr_s := false |} e n in
  round_nearest_even (shr_m mrs) (loc_of_shr_record mrs) = RNE M n
  /\ e' = e + n.
Proof.
  intros HM Hn. destruct n as [|p|p]; try lia.
  unfold shr. rewrite iter_pos_nat.
  destruct (Pos2Nat.is_succ p) as [k Hk]. rewrite Hk.
  split; [|reflexivity].
  rewrite (round_shr M k HM). f_equal. lia.
Qed.

(** The second normalisation: a mantissa of 25 bits is halved. *)
Lemma renormalise (s : bool) (n q : Z) :
  0 <= n <= 2 ^ 24 -> -149 <= q ->
  (let '(mrs, e) := shr_fexp 24 128 n q loc_Exact in
   match shr_m mrs with
   | Z0 => S754_zero s
   | Zpos m =>
       if e <=? 128 - 24 then S754_finite s m e else S754_infinity s
   | Zneg _ => S754_nan
   end)
  = finish s n q.
Proof.
  intros Hn Hq. unfold shr_fexp, finish.
  destruct n as [|p|p]; [| |lia].
  - cbn [Zdigits2 shr_record_of_loc].
    rewrite shr_nonpos by (unfold fexp, emin; lia). reflexivity.
  - cbn [Zdigits2 shr_record_of_loc].
    destruct (Z.eqb_spec (Zpos p) (2 ^ 24)) as [Heq|Hne].
    + assert (Hd : Zpos (digits2_pos p) = 25)
        by (injection Heq as ->; reflexivity).
      assert (Hs1 : shr_1 {| shr_m := Zpos p; shr_r := false;
                             shr_s := false |}
                    = {| shr_m := Zpos (2 ^ 23)%positive; shr_r := false;
                         shr_s := false |})
        by (injection Heq as ->; reflexivity).
      rewrite Hd.
      replace (fexp 24 128 (25 + q) - q) with 1
        by (unfold fexp, emin; lia).
      cbn [shr SpecFloat.iter_pos]. rewrite Hs1. cbn [shr_m].
      change (128 - 24) with 104. reflexivity.
    + destruct (digits2_pos_bounds p) as [Hd1 Hd2].
      assert (Hd : Zpos (digits2_pos p) <= 24).
      { destruct (Z.le_gt_cases (Zpos (digits2_pos p)) 24) as [H|H];
          [exact H|].
        assert (2 ^ 24 <= 2 ^ (Zpos (digits2_pos p) - 1))
          by (apply Z.pow_le_mono_r; lia).
        lia. }
      rewrite shr_nonpos by (unfold fexp, emin; lia).
      cbn [shr_m]. change (128 - 24) with 104. reflexivity.
Qed.

Theorem binary_round_spec (s : bool) (m : positive) (e : Z) :
  binary_round 24 128 s m e = finish s (rounded m e) (q_of m e).
Proof.
  pose proof (rounded_bounds m e) as Hb.
  destruct (q_of_bounds m e) as [Hq1 Hq2].
  unfold binary_round, shl_align. fold (q_of m e).
  unfold rounded in *. set (q := q_of m e) in *.
  destruct (Z.leb_spec q e) as [Hle|Hgt].
  - (* the mantissa is shifted left, or kept: no bit is lost *)
    assert (Haux : forall mz : positive,
              Zpos mz = Zpos m * 2 ^ (e - q) ->
              Zpos (digits2_pos mz) + q = Zpos (digits2_pos m) + e ->
              binary_round_aux 24 128 s (Zpos mz) q loc_Exact
              = finish s (Zpos m * 2 ^ (e - q)) q).
    { intros mz Hmz Hdz. unfold binary_round_aux.
      unfold shr_fexp at 1. cbn [Zdigits2 shr_record_of_loc].
      rewrite Hdz. fold (q_of m e). fold q.
      rewrite shr_nonpos by lia.
      cbn [shr_m loc_of_shr_record round_nearest_even].
      rewrite (renormalise s (Zpos mz) q) by lia.
      now rewrite Hmz. }
    destruct (q - e) as [|d|d] eqn:Hd; try lia.
    + assert (q = e) by lia. subst q.
      replace e with (q_of m e) at 2 by lia.
      rewrite H in *.
      apply Haux; [rewrite Z.sub_diag; lia | lia].
    + destruct (iter_xO m d) as [Hv Hdig].
      assert (Hed : e - q = Zpos d) by lia.
      apply Haux.
      * now rewrite Hv, Hed.
      * rewrite Hdig, Pos2Z.inj_add. lia.
  - destruct (q - e) as [|d|d] eqn:Hd; try lia.
    unfold binary_round_aux. unfold shr_fexp at 1.
    cbn [Zdigits2 shr_record_of_loc]. fold (q_of m e). fold q.
    rewrite Hd.
    pose proof (shr_pos (Zpos m) e (Zpos d) ltac:(lia) ltac:(lia)) as Hs.
    destruct (shr {| shr_m := Zpos m; shr_r := false; shr_s := false |} e
                (Zpos d)) as [mrs e'].
    destruct Hs as [Hr ->]. rewrite Hr.
    replace (e + Zpos d) with q by lia.
    now apply renormalise.
Qed.

(** ** Laws of rounding to nearest-even *)

Lemma RNE_mono (M1 M2 k : Z) :
  0 <= k -> M1 <= M2 -> RNE M1 k <= RNE M2 k.
Proof.
  intros Hk HM.
  assert (HP : 0 < 2 ^ k) by (apply Z.pow_pos_nonneg; lia).
  pose proof (Z.div_le_mono M1 M2 (2 ^ k) HP HM) as Ha.
  pose proof (RNE_bounds M1 k Hk) as B1.
  pose proof (RNE_bounds M2 k Hk) as B2.
  destruct (Z.eq_dec (M1 / 2 ^ k) (M2 / 2 ^ k)) as [Heq|Hne]; [|lia].
  pose proof (Z.div_mod M1 (2 ^ k) ltac:(lia)) as E1.
  pose proof (Z.div_mod M2 (2 ^ k) ltac:(lia)) as E2.
  unfold RNE. rewrite Heq in *.
  destruct (Z.compare_spec (2 * (M1 mod 2 ^ k)) (2 ^ k));
    destruct (Z.compare_spec (2 * (M2 mod 2 ^ k)) (2 ^ k));
    destruct (Z.even (M2 / 2 ^ k)); lia.
Qed.

Lemma RNE_scale (M k j : Z) :
  0 <= k -> 0 <= j -> RNE (M * 2 ^ j) (k + j) = RNE M k.
Proof.
  intros Hk Hj.
  assert (HP : 0 < 2 ^ k) by (apply Z.pow_pos_nonneg; lia).
  assert (HJ : 0 < 2 ^ j) by (apply Z.pow_pos_nonneg; lia).
  unfold RNE. rewrite Z.pow_add_r by lia.
  rewrite Z.div_mul_cancel_r by lia.
  rewrite Z.mul_mod_distr_r by lia.
  rewrite Z.mul_assoc.
  rewrite <- (Zmult_compare_compat_r _ _ (2 ^ j)) by lia.
  reflexivity.
Qed.

Lemma RNE_exact (a k : Z) : 0 <= k -> RNE (a * 2 ^ k) k = a.
Proof.
  intros Hk.
  assert (HP : 0 < 2 ^ k) by (apply Z.pow_pos_nonneg; lia).
  unfold RNE. rewrite Z.div_mul, Z.mod_mul by lia.
  destruct (Z.compare_spec (2 * 0) (2 ^ k)); [lia | reflexivity | lia].
Qed.

(** The rounded mantissa, from any finer unit [2^E]. *)
Lemma rounded_common (m : positive) (e E : Z) :
  E <= e -> E <= q_of m e ->
  rounded m e = RNE (Zpos m * 2 ^ (e - E)) (q_of m e - E).
Proof.
  intros He Hq. unfold rounded.
  destruct (Z.leb_spec (q_of m e) e) as [Hle|Hgt].
  - replace (e - E) with ((e - q_of m e) + (q_of m e - E)) by lia.
    rewrite Z.pow_add_r, Z.mul_assoc by lia.
    now rewrite RNE_exact by lia.
  - replace (q_of m e - E) with ((q_of m e - e) + (e - E)) by lia.
    now rewrite RNE_scale by lia.
Qed.

(** Above the subnormal range the rounded mantissa has its top bit. *)
Lemma rounded_normal (m : positive) (e : Z) :
  -149 < q_of m e -> 2 ^ 23 <= rounded m e.
Proof.
  intros Hq. unfold rounded.
  assert (Hqe : q_of m e = Zpos (digits2_pos m) + e - 24)
    by (revert Hq; unfold q_of, fexp, emin; lia).
  destruct (digits2_pos_bounds m) as [Hd1 _].
  set (d := Zpos (digits2_pos m)) in *. set (q := q_of m e) in *.
  assert (Hd : 1 <= d) by (subst d; lia).
  destruct (Z.leb_spec q e) as [Hle|Hgt].
  - replace 23 with ((d - 1) + (e - q)) by lia.
    rewrite Z.pow_add_r by lia.
    apply Z.mul_le_mono_nonneg_r; [apply Z.pow_nonneg|]; lia.
  - pose proof (RNE_bounds (Zpos m) (q - e) ltac:(lia)) as [Hb _].
    etransitivity; [|exact Hb].
    apply Z.div_le_lower_bound; [apply Z.pow_pos_nonneg; lia|].
    rewrite <- Z.pow_add_r by lia.
    now replace (q - e + 23) with (d - 1) by lia.
Qed.

(** The exponent of the result grows with the number. *)
Lemma q_of_mono (m1 m2 : positive) (e1 e2 E : Z) :
  E <= e1 -> E <= e2 ->
  Zpos m1 * 2 ^ (e1 - E) <= Zpos m2 * 2 ^ (e2 - E) ->
  q_of m1 e1 <= q_of m2 e2.
Proof.
  intros H1 H2 Hle.
  destruct (digits2_pos_bounds m1) as [Hlo _].
  destruct (digits2_pos_bounds m2) as [_ Hhi].
  set (d1 := Zpos (digits2_pos m1)) in *.
  set (d2 := Zpos (digits2_pos m2)) in *.
  assert (Hd1 : 1 <= d1) by (subst d1; lia).
  assert (Hd2 : 1 <= d2) by (subst d2; lia).
  assert (Hp1 : 0 < 2 ^ (e1 - E)) by (apply Z.pow_pos_nonneg; lia).
  assert (Hp2 : 0 < 2 ^ (e2 - E)) by (apply Z.pow_pos_nonneg; lia).
  assert (Hlt : 2 ^ (d1 - 1 + (e1 - E)) < 2 ^ (d2 + (e2 - E))).
  { rewrite !Z.pow_add_r by lia.
    apply Z.le_lt_trans with (Zpos m1 * 2 ^ (e1 - E));
      [apply Z.mul_le_mono_nonneg_r; lia|].
    apply Z.le_lt_trans with (Zpos m2 * 2 ^ (e2 - E)); [exact Hle|].
    apply Z.mul_lt_mono_pos_r; lia. }
  apply Z.pow_lt_mono_r_iff in Hlt; [|lia|lia].
  unfold q_of, fexp, emin. fold d1 d2. lia.
Qed.

(** Rounding keeps the order of positive numbers. *)
Lemma rounded_mono (m1 m2 : positive) (e1 e2 E : Z) :
  E <= e1 -> E <= e2 -> E <= -149 ->
  Zpos m1 * 2 ^ (e1 - E) <= Zpos m2 * 2 ^ (e2 - E) ->
  rounded m1 e1 * 2 ^ (q_of m1 e1 - -149)
  <= rounded m2 e2 * 2 ^ (q_of m2 e2 - -149).
Proof.
  intros H1 H2 HE Hle.
  pose proof (q_of_mono m1 m2 e1 e2 E H1 H2 Hle) as Hq.
  destruct (q_of_bounds m1 e1) as [Hq1 _].
  destruct (q_of_bounds m2 e2) as [Hq2 _].
  destruct (Z.eq_dec (q_of m1 e1) (q_of m2 e2)) as [Heq|Hne].
  - rewrite (rounded_common m1 e1 E), (rounded_common m2 e2 E) by lia.
    rewrite Heq.
    apply Z.mul_le_mono_nonneg_r; [apply Z.pow_nonneg; lia|].
    apply RNE_mono; [lia | exact Hle].
  - pose proof (rounded_bounds m1 e1) as [_ Hn1].
    pose proof (rounded_normal m2 e2 ltac:(lia)) as Hn2.
    set (q1 := q_of m1 e1) in *. set (q2 := q_of m2 e2) in *.
    apply Z.le_trans with (2 ^ 24 * 2 ^ (q1 - -149));
      [apply Z.mul_le_mono_nonneg_r; [apply Z.pow_nonneg|]; lia|].
    apply Z.le_trans with (2 ^ 23 * 2 ^ (q2 - -149));
      [|apply Z.mul_le_mono_nonneg_r; [apply Z.pow_nonneg|]; lia].
    rewrite <- !Z.pow_add_r by lia.
    apply Z.pow_le_mono_r; lia.
Qed.

(** ** Floats as whole numbers of a unit *)

Lemma value_scaled (E : Z) (x : spec_float) :
  E <= 0 ->
  match x with S754_finite _ _ e => E <= e | _ => True end ->
  QArith_base.Qeq (PyFloat.value x)
    (QArith_base.Qmake (scaled E x) (Z.to_pos (2 ^ (- E)))).
Proof.
  intros HE Hx.
  assert (HP : 0 < 2 ^ (- E)) by (apply Z.pow_pos_nonneg; lia).
  unfold QArith_base.Qeq.
  destruct x as [s|s| |s m e]; try reflexivity.
  assert (Hsplit : 2 ^ (- E) = 2 ^ (e - E) * 2 ^ (- e) \/ 0 <= e).
  { destruct (Z.le_gt_cases 0 e) as [H|H]; [now right|left].
    rewrite <- Z.pow_add_r by lia. f_equal. lia. }
  unfold PyFloat.value, scaled, signed.
  destruct s, e as [|p|p];
    unfold QArith_base.Qopp, QArith_base.inject_Z;
    cbn [QArith_base.Qnum QArith_base.Qden];
    rewrite Z2Pos.id by lia;
    rewrite ?Pos2Z.inj_pow, ?Z.sub_0_l, ?Z.pow_0_r, ?Z.mul_1_r.
  all: try (destruct Hsplit as [Hs|Hs]; [|lia]; rewrite Hs;
            change (- Zneg p) with (Zpos p); ring).
  all: try (replace (Zpos p - E) with (Zpos p + - E) by lia;
            rewrite Z.pow_add_r by lia; ring).
  all: replace (0 - E) with (- E) by lia; ring.
Qed.

(** Numbers compare as their multiples of a common unit do. *)
Lemma compare_scaled (E : Z) (x y : spec_float) :
  E <= 0 ->
  PyFloat.is_number x = true -> PyFloat.is_number y = true ->
  match x with S754_finite _ _ e => E <= e | _ => True end ->
  match y with S754_finite _ _ e => E <= e | _ => True end ->
  PyFloat.compare x y = Some (scaled E x ?= scaled E y).
Proof.
  intros HE Nx Ny Hx Hy.
  assert (HP : 0 < 2 ^ (- E)) by (apply Z.pow_pos_nonneg; lia).
  rewrite (compare_numbers x y Nx Ny). f_equal.
  rewrite (QArith_base.Qcompare_comp _ _ (value_scaled E x HE Hx)
             _ _ (value_scaled E y HE Hy)).
  unfold QArith_base.Qcompare. cbn [QArith_base.Qnum QArith_base.Qden].
  symmetry. apply Zmult_compare_compat_r. lia.
Qed.

Lemma signed_bounds (s : bool) (z b : Z) :
  0 <= z <= b -> - b <= signed s z <= b.
Proof. destruct s; simpl; lia. Qed.

Lemma rank_bounds (x : spec_float) :
  ranked x -> - top <= rank x <= top.
Proof.
  assert (Ht : 0 < top) by reflexivity.
  destruct x as [s|s| |s m e]; simpl; try lia.
  - intros _. apply signed_bounds. lia.
  - intros [_ Hlt]. apply signed_bounds.
    assert (0 <= 2 ^ (e - -149)) by (apply Z.pow_nonneg; lia). nia.
Qed.

Lemma rank_number (x : spec_float) :
  PyFloat.is_number x = true -> ranked x -> - top < rank x < top.
Proof.
  assert (Ht : 0 < top) by reflexivity.
  destruct x as [s|s| |s m e]; simpl; try discriminate; try lia.
  intros _ [_ Hlt].
  assert (0 <= 2 ^ (e - -149)) by (apply Z.pow_nonneg; lia).
  destruct s; simpl; nia.
Qed.

(** Floats of the float32 range compare as their ranks do. *)
Lemma compare_rank (x y : spec_float) :
  ranked x -> ranked y ->
  PyFloat.compare x y = Some (rank x ?= rank y).
Proof.
  intros Rx Ry.
  assert (Ht : 0 < top) by reflexivity.
  destruct x as [s|s| |s m e], y as [t|t| |t n f]; try contradiction.
  all: try (rewrite (compare_scaled (-149));
            [reflexivity | lia | reflexivity | reflexivity
            |first [exact I | apply Rx] | first [exact I | apply Ry]]).
  - destruct t; reflexivity.
  - destruct s; reflexivity.
  - destruct s, t; reflexivity.
  - pose proof (rank_number (S754_finite t n f) eq_refl Ry) as Hb.
    set (r := rank (S754_finite t n f)) in *.
    cbn [PyFloat.compare]. f_equal. symmetry.
    destruct s; cbn [rank signed];
      [apply Z.compare_lt_iff | apply Z.compare_gt_iff]; lia.
  - pose proof (rank_number (S754_finite s m e) eq_refl Rx) as Hb.
    set (r := rank (S754_finite s m e)) in *.
    cbn [PyFloat.compare]. f_equal. symmetry.
    destruct t; cbn [rank signed];
      [apply Z.compare_gt_iff | apply Z.compare_lt_iff]; lia.
Qed.


(** ** The rank of a rounded float *)

Lemma finish_rank (s : bool) (n q : Z) :
  0 <= n <= 2 ^ 24 -> -149 <= q -> (-149 < q -> 2 ^ 23 <= n) ->
  ranked (finish s n q)
  /\ rank (finish s n q) = signed s (Z.min (n * 2 ^ (q - -149)) top).
Proof.
  intros Hn Hq Hnorm. unfold finish.
  assert (HP : 0 < 2 ^ (q - -149)) by (apply Z.pow_pos_nonneg; lia).
  destruct n as [|p|p]; [| |lia].
  - split; [exact I|]. now destruct s.
  - destruct (Z.eqb_spec (Zpos p) (2 ^ 24)) as [Heq|Hne].
    + rewrite Heq.
      assert (Hstep : Zpos (2 ^ 23) * 2 ^ (q + 1 - -149)
                      = 2 ^ 24 * 2 ^ (q - -149)).
      { replace (q + 1 - -149) with (1 + (q - -149)) by lia.
        rewrite Z.pow_add_r by lia. change (Zpos (2 ^ 23)) with (2 ^ 23).
        lia. }
      destruct (Z.leb_spec (q + 1) 104) as [Hle|Hgt].
      * assert (2 ^ (q - -149) <= 2 ^ 252)
          by (apply Z.pow_le_mono_r; lia).
        cbn [ranked rank scaled]. rewrite Hstep.
        rewrite Z.min_l by (unfold top; lia).
        split; [split; [lia | unfold top; lia] | reflexivity].
      * assert (2 ^ 253 <= 2 ^ (q - -149))
          by (apply Z.pow_le_mono_r; lia).
        cbn [ranked rank].
        rewrite Z.min_r by (unfold top; lia).
        split; [exact I | reflexivity].
    + destruct (Z.leb_spec q 104) as [Hle|Hgt].
      * assert (2 ^ (q - -149) <= 2 ^ 253)
          by (apply Z.pow_le_mono_r; lia).
        assert (Zpos p * 2 ^ (q - -149) < top) by (unfold top; nia).
        cbn [ranked rank scaled].
        rewrite Z.min_l by lia.
        split; [split; [lia | assumption] | reflexivity].
      * assert (2 ^ 254 <= 2 ^ (q - -149))
          by (apply Z.pow_le_mono_r; lia).
        specialize (Hnorm ltac:(lia)).
        cbn [ranked rank].
        rewrite Z.min_r by (unfold top; nia).
        split; [exact I | reflexivity].
Qed.

Lemma of_float_finite (s : bool) (m : positive) (e : Z) :
  NpFloat32.of_float (S754_finite s m e)
  = finish s (rounded m e) (q_of m e).
Proof.
  unfold NpFloat32.of_float, binary_normalize.
  destruct s; apply binary_round_spec.
Qed.

(** [np.float32(x)] lies in the float32 range, at the level of [x]. *)
Lemma of_float_level (x : spec_float) :
  x <> S754_nan ->
  ranked (NpFloat32.of_float x) /\ rank (NpFloat32.of_float x) = level x.
Proof.
  intros Hx. destruct x as [s|s| |s m e]; try contradiction.
  - split; [exact I | reflexivity].
  - split; [exact I | reflexivity].
  - rewrite of_float_finite. apply finish_rank.
    + apply rounded_bounds.
    + apply q_of_bounds.
    + apply rounded_normal.
Qed.

Lemma level_bounds (x : spec_float) : - top <= level x <= top.
Proof.
  assert (Ht : 0 < top) by reflexivity.
  destruct x as [s|s| |s m e]; simpl level; try lia.
  - apply signed_bounds. lia.
  - apply signed_bounds.
    pose proof (rounded_bounds m e) as [Hn _].
    assert (0 <= 2 ^ (q_of m e - -149)) by (apply Z.pow_nonneg;
      pose proof (q_of_bounds m e); lia).
    split; [|apply Z.le_min_r].
    apply Z.min_glb; [apply Z.mul_nonneg_nonneg|]; lia.
Qed.

Lemma level_sign (s : bool) (m : positive) (e : Z) :
  if s then level (S754_finite s m e) <= 0
  else 0 <= level (S754_finite s m e).
Proof.
  assert (Ht : 0 < top) by reflexivity.
  pose proof (rounded_bounds m e) as [Hn _].
  assert (0 <= 2 ^ (q_of m e - -149)) by (apply Z.pow_nonneg;
    pose proof (q_of_bounds m e); lia).
  assert (0 <= Z.min (rounded m e * 2 ^ (q_of m e - -149)) top)
    by (apply Z.min_glb; [apply Z.mul_nonneg_nonneg|]; lia).
  destruct s; simpl; lia.
Qed.

(** The level keeps the order of the floats. *)
Lemma level_mono (a b : spec_float) :
  PyFloat.leb a b = true -> level a <= level b.
Proof.
  unfold PyFloat.leb.
  assert (Ht : 0 < top) by reflexivity.
  pose proof (level_bounds a) as Ba. pose proof (level_bounds b) as Bb.
  destruct a as [s|s| |s m e], b as [t|t| |t n f];
    try (destruct s; discriminate); try (destruct t; discriminate);
    try discriminate; try (intros _; reflexivity);
    try (destruct s, t; (discriminate || (intros _; simpl; lia))).
  - (* zero, number *)
    pose proof (level_sign t n f) as Hs.
    set (E := Z.min f (-149)).
    rewrite (compare_scaled E) by
      (try reflexivity; try exact I; subst E; cbn; lia).
    assert (0 < 2 ^ (f - E)) by (apply Z.pow_pos_nonneg; subst E; lia).
    destruct t; cbn [scaled signed];
      destruct (Z.compare_spec 0 (- (Zpos n * 2 ^ (f - E))));
      try discriminate; try lia;
      destruct (Z.compare_spec 0 (Zpos n * 2 ^ (f - E)));
      try discriminate; try lia; intros _; simpl level at 1; lia.
  - set (lb := level (S754_finite t n f)) in *.
    destruct s; [intros _; cbn [level signed]; lia | discriminate].
  - (* number, zero *)
    pose proof (level_sign s m e) as Hs.
    set (E := Z.min e (-149)).
    rewrite (compare_scaled E) by
      (try reflexivity; try exact I; subst E; cbn; lia).
    assert (0 < 2 ^ (e - E)) by (apply Z.pow_pos_nonneg; subst E; lia).
    destruct s; cbn [scaled signed];
      destruct (Z.compare_spec (- (Zpos m * 2 ^ (e - E))) 0);
      try discriminate; try lia;
      destruct (Z.compare_spec (Zpos m * 2 ^ (e - E)) 0);
      try discriminate; try lia; intros _; simpl level at 2; lia.
  - set (la := level (S754_finite s m e)) in *.
    destruct t; [discriminate | intros _; cbn [level signed]; lia].
  - (* two numbers *)
    pose proof (level_sign s m e) as Hs.
    pose proof (level_sign t n f) as Htn.
    set (E := Z.min (Z.min e f) (-149)).
    rewrite (compare_scaled E) by
      (try reflexivity; try exact I; subst E; cbn; lia).
    assert (H1 : 0 < 2 ^ (e - E)) by (apply Z.pow_pos_nonneg; subst E; lia).
    assert (H2 : 0 < 2 ^ (f - E)) by (apply Z.pow_pos_nonneg; subst E; lia).
    assert (HE1 : E <= e) by (subst E; lia).
    assert (HE2 : E <= f) by (subst E; lia).
    assert (HE3 : E <= -149) by (subst E; lia).
    intros Hcmp.
    assert (Hle : scaled E (S754_finite s m e)
                  <= scaled E (S754_finite t n f)).
    { destruct (Z.compare_spec (scaled E (S754_finite s m e))
                  (scaled E (S754_finite t n f)));
        try discriminate; lia. }
    clear Hcmp. cbn [scaled] in Hle.
    destruct s, t; cbn [signed] in Hle.
    + pose proof (rounded_mono n m f e E HE2 HE1 HE3 ltac:(lia)) as Hm.
      cbn [level signed].
      apply Z.min_le_compat_r with (p := top) in Hm. lia.
    + lia.
    + nia.
    + pose proof (rounded_mono m n e f E HE1 HE2 HE3 Hle) as Hm.
      cbn [level signed].
      now apply Z.min_le_compat_r.
Qed.

(** Rounding to float32 keeps the order of the floats. *)
Lemma of_float_mono (a b : spec_float) :
  PyFloat.leb a b = true ->
  PyFloat.leb (NpFloat32.of_float a) (NpFloat32.of_float b) = true.
Proof.
  intros Hle. pose proof (level_mono a b Hle) as Hl.
  assert (Ha : a <> S754_nan) by (intros ->; discriminate).
  assert (Hb : b <> S754_nan)
    by (intros ->; unfold PyFloat.leb in Hle;
        rewrite compare_nan_r in Hle; discriminate).
  destruct (of_float_level a Ha) as [Ra Ea].
  destruct (of_float_level b Hb) as [Rb Eb].
  rewrite <- Ea, <- Eb in Hl.
  unfold PyFloat.leb. rewrite (compare_rank _ _ Ra Rb).
  destruct (Z.compare_spec (rank (NpFloat32.of_float a))
              (rank (NpFloat32.of_float b))); try reflexivity; lia.
Qed.

(** A float32 is its own rounding. *)
Lemma of_float_float32 (x : spec_float) :
  NpFloat32.is_float32 x = true -> NpFloat32.of_float x = x.
Proof.
  destruct x as [s|s| |s m e]; try reflexivity.
  unfold NpFloat32.is_float32, valid_binary, bounded, canonical_mantissa.
  intros Hb. apply andb_prop in Hb as [Hc He].
  apply Z.eqb_eq in Hc. apply Zle_bool_imp_le in He.
  change (NpFloat32.emax - NpFloat32.prec) with 104 in He.
  change (fexp NpFloat32.prec NpFloat32.emax (Zpos (digits2_pos m) + e))
    with (q_of m e) in Hc.
  rewrite of_float_finite. unfold rounded. rewrite Hc, Z.leb_refl.
  rewrite Z.sub_diag, Z.mul_1_r.
  destruct (digits2_pos_bounds m) as [_ Hd].
  assert (Hd24 : Zpos (digits2_pos m) <= 24)
    by (revert Hc; unfold q_of, fexp, emin; lia).
  assert (2 ^ Zpos (digits2_pos m) <= 2 ^ 24)
    by (apply Z.pow_le_mono_r; lia).
  unfold finish.
  destruct (Z.eqb_spec (Zpos m) (2 ^ 24)) as [Heq|_]; [lia|].
  destruct (Z.leb_spec e 104); [reflexivity | lia].
Qed.

Lemma of_float_nan (x : spec_float) :
  NpFloat32.of_float x = S754_nan -> x = S754_nan.
Proof.
  intros Hn. destruct x as [s|s| |s m e]; try discriminate; try reflexivity.
  destruct (of_float_level (S754_finite s m e)) as [Hr _]; [discriminate|].
  rewrite Hn in Hr. destruct Hr.
Qed.

End Float32Rounding.

Lemma compare_antisym (a b : spec_float) :
  PyFloat.compare b a = option_map CompOpp (PyFloat.compare a b).
Proof.
  destruct a as [s|s| |s m e], b as [t|t| |t n f];
    cbn [PyFloat.compare option_map]; try reflexivity;
    try (destruct s; reflexivity); try (destruct t; reflexivity);
    try (destruct s, t; reflexivity);
    f_equal; symmetry; apply QArith_base.Qcompare_antisym.
Qed.

Lemma compare_total (a b : spec_float) :
  a <> S754_nan -> b <> S754_nan ->
  exists c, PyFloat.compare a b = Some c.
Proof.
  intros Ha Hb.
  destruct a as [s|s| |s m e], b as [t|t| |t n f];
    try contradiction; cbn [PyFloat.compare]; eauto.
Qed.

Lemma leb_not_ltb (a b : spec_float) :
  PyFloat.leb a b = true -> PyFloat.ltb b a = false.
Proof.
  unfold PyFloat.leb, PyFloat.ltb. rewrite (compare_antisym a b).
  now destruct (PyFloat.compare a b) as [[| |]|].
Qed.

Lemma not_leb_ltb (a b : spec_float) :
  a <> S754_nan -> b <> S754_nan ->
  PyFloat.leb a b = false -> PyFloat.ltb b a = true.
Proof.
  intros Ha Hb. unfold PyFloat.leb, PyFloat.ltb.
  rewrite (compare_antisym a b).
  destruct (compare_total a b Ha Hb) as [c ->]. now destruct c.
Qed.

(** A float32 at or below the threshold is not above the rounded
    threshold; so what the comparison lets through is above the
    threshold as given. *)
Lemma gt_float32_sound (prob threshold : spec_float) :
  NpFloat32.is_float32 prob = true ->
  NpFloat32.gt prob threshold = true ->
  PyFloat.ltb threshold prob = true.
Proof.
  intros Hp Hgt. unfold NpFloat32.gt in Hgt.
  assert (Hprob : prob <> S754_nan).
  { intros ->. unfold PyFloat.ltb in Hgt.
    now rewrite compare_nan_r in Hgt. }
  assert (Hth : threshold <> S754_nan) by (now intros ->).
  destruct (PyFloat.leb prob threshold) eqn:Hle.
  - apply of_float_mono in Hle. rewrite (of_float_float32 prob Hp) in Hle.
    apply leb_not_ltb in Hle. congruence.
  - now apply not_leb_ltb.
Qed.

Lemma keep_tag_spec (threshold : spec_float) (exclude_list : list string)
  (tag : string) (prob : spec_float) :
  keep_tag threshold exclude_list tag prob = true
  <-> PyFloat.compare (NpFloat32.of_float threshold) prob = Some Lt
      /\ ~ List.In (PyStr.lower tag) exclude_list.
Proof.
  unfold keep_tag, NpFloat32.gt, PyFloat.ltb.
  rewrite andb_true_iff, negb_true_iff, str_in_false.
  split; intros [Hlt Hex]; split; try assumption.
  - destruct (PyFloat.compare (NpFloat32.of_float threshold) prob)
      as [[| |]|]; try discriminate.
    reflexivity.
  - now rewrite Hlt.
Qed.

(** ** Python string methods *)

Lemma lower_char_idem (c : ascii) :
  PyStr.lower_char (PyStr.lower_char c) = PyStr.lower_char c.
Proof. destruct c as [[] [] [] [] [] [] [] []]; reflexivity. Qed.

Lemma is_space_lower_char (c : ascii) :
  PyStr.is_space (PyStr.lower_char c) = PyStr.is_space c.
Proof. destruct c as [[] [] [] [] [] [] [] []]; reflexivity. Qed.

Lemma lower_idem (s : string) : PyStr.lower (PyStr.lower s) = PyStr.lower s.
Proof.
  induction s as [|c s IH]; simpl; [reflexivity|].
  now rewrite lower_char_idem, IH.
Qed.

Lemma is_empty_lower (s : string) :
  PyStr.is_empty (PyStr.lower s) = PyStr.is_empty s.
Proof. destruct s; reflexivity. Qed.

Lemma is_empty_true (s : string) : PyStr.is_empty s = true <-> s = EmptyString.
Proof. destruct s; simpl; split; intros H; try reflexivity; discriminate. Qed.

Lemma lstrip_lower (s : string) :
  PyStr.lstrip (PyStr.lower s) = PyStr.lower (PyStr.lstrip s).
Proof.
  induction s as [|c s IH]; simpl; [reflexivity|].
  rewrite is_space_lower_char.
  destruct (PyStr.is_space c); [exact IH|reflexivity].
Qed.

Lemma rstrip_lower (s : string) :
  PyStr.rstrip (PyStr.lower s) = PyStr.lower (PyStr.rstrip s).
Proof.
  induction s as [|c s IH]; simpl; [reflexivity|].
  rewrite IH, is_empty_lower, is_space_lower_char.
  destruct (PyStr.is_empty (PyStr.rstrip s) && PyStr.is_space c); reflexivity.
Qed.

Lemma strip_lower (s : string) :
  PyStr.strip (PyStr.lower s) = PyStr.lower (PyStr.strip s).
Proof. unfold PyStr.strip. now rewrite lstrip_lower, rstrip_lower. Qed.

(** What [lstrip] returns is empty or starts with a non-space. *)
Lemma lstrip_head (s : string) :
  PyStr.lstrip s = EmptyString
  \/ exists c r, PyStr.lstrip s = String c r /\ PyStr.is_space c = false.
Proof.
  induction s as [|c s IH]; simpl; [now left|].
  destruct (PyStr.is_space c) eqn:Hc; [exact IH|].
  right. now exists c, s.
Qed.

Lemma rstrip_idem (s : string) : PyStr.rstrip (PyStr.rstrip s) = PyStr.rstrip s.
Proof.
  induction s as [|c s IH]; simpl; [reflexivity|].
  destruct (PyStr.is_empty (PyStr.rstrip s) && PyStr.is_space c) eqn:E;
    simpl; [reflexivity|].
  now rewrite IH, E.
Qed.

Lemma strip_idem (s : string) : PyStr.strip (PyStr.strip s) = PyStr.strip s.
Proof.
  unfold PyStr.strip.
  destruct (lstrip_head s) as [H | [c [r [H Hc]]]]; rewrite H.
  - reflexivity.
  - assert (Hr : PyStr.rstrip (String c r) = String c (PyStr.rstrip r)).
    { simpl. now rewrite Hc, andb_false_r. }
    assert (Hl : PyStr.lstrip (String c (PyStr.rstrip r))
                 = String c (PyStr.rstrip r)).
    { simpl. now rewrite Hc. }
    rewrite Hr, Hl, <- Hr. apply rstrip_idem.
Qed.

Lemma string_app_empty_r (s : string) : s ++ EmptyString = s.
Proof.
  induction s as [|c s IH]; [reflexivity|].
  change (String c (s ++ EmptyString) = String c s). now rewrite IH.
Qed.

Lemma string_app_cons (c : ascii) (s t : string) :
  String c s ++ t = String c (s ++ t).
Proof. reflexivity. Qed.

Lemma string_app_assoc (a b c : string) : (a ++ b) ++ c = a ++ (b ++ c).
Proof.
  induction a as [|x a IH]; [reflexivity|].
  rewrite !string_app_cons. now rewrite IH.
Qed.

Lemma split_without_sep (sep : ascii) (s : string) :
  PyStr.contains sep s = false -> PyStr.split sep s = [s].
Proof.
  induction s as [|c s IH]; simpl; [reflexivity|].
  intros Hc. apply orb_false_iff in Hc as [Hc Hs].
  now rewrite Hc, (IH Hs).
Qed.

Lemma contains_app (sep : ascii) (s t : string) :
  PyStr.contains sep (s ++ t) = PyStr.contains sep s || PyStr.contains sep t.
Proof.
  induction s as [|c s IH]; [reflexivity|].
  rewrite string_app_cons. simpl. now rewrite IH, orb_assoc.
Qed.

Lemma split_not_nil (sep : ascii) (s : string) : PyStr.split sep s <> [].
Proof.
  destruct s as [|c s]; simpl; [discriminate|].
  destruct (Ascii.eqb c sep); [discriminate|].
  destruct (PyStr.split sep s); discriminate.
Qed.

(** [split] loses nothing: joining the pieces with the separator gives
    the string back, and no piece contains the separator. *)
Lemma join_split (sep : ascii) (s : string) :
  PyStr.join (String sep EmptyString) (PyStr.split sep s) = s.
Proof.
  induction s as [|c s IH]; [reflexivity|].
  simpl PyStr.split. destruct (Ascii.eqb_spec c sep) as [->|Hne].
  - pose proof (split_not_nil sep s) as Hnil.
    destruct (PyStr.split sep s) as [|h t] eqn:E; [contradiction|].
    change (PyStr.join (String sep EmptyString) (EmptyString :: h :: t))
      with (String sep (PyStr.join (String sep EmptyString) (h :: t))).
    now rewrite IH.
  - destruct (PyStr.split sep s) as [|h t] eqn:E.
    + now destruct (split_not_nil sep s).
    + destruct t as [|h' t].
      * simpl in *. now rewrite IH.
      * change (PyStr.join (String sep EmptyString) (String c h :: h' :: t))
          with (String c (PyStr.join (String sep EmptyString) (h :: h' :: t))).
        now rewrite IH.
Qed.

Lemma split_pieces (sep : ascii) (s : string) :
  List.Forall (fun piece => PyStr.contains sep piece = false)
    (PyStr.split sep s).
Proof.
  induction s as [|c s IH]; simpl.
  - constructor; [reflexivity | constructor].
  - destruct (Ascii.eqb c sep) eqn:Hc.
    + constructor; [reflexivity | exact IH].
    + destruct (PyStr.split sep s) as [|h t].
      * constructor; [simpl; now rewrite Hc | constructor].
      * inversion IH as [|? ? Hh Ht]; subst.
        constructor; [simpl; now rewrite Hc | exact Ht].
Qed.

Lemma truthy_true (s : string) : PyStr.truthy s = true <-> s <> EmptyString.
Proof.
  unfold PyStr.truthy. destruct s; simpl; split; intros H;
    try discriminate; try reflexivity. now destruct H.
Qed.

Lemma parse_exclude_In (exclude_tags t : string) :
  List.In t (parse_exclude exclude_tags)
  <-> exists u, List.In u (PyStr.split "," exclude_tags)
                /\ PyStr.strip u <> EmptyString
                /\ t = PyStr.lower (PyStr.strip u).
Proof.
  unfold parse_exclude. rewrite List.in_map_iff. split.
  - intros [u [Ht Hu]]. apply List.filter_In in Hu as [Hu Hne].
    exists u. rewrite truthy_true in Hne. now repeat split.
  - intros [u [Hu [Hne Ht]]]. exists u. split; [now symmetry|].
    apply List.filter_In. split; [assumption | now apply truthy_true].
Qed.

Lemma parse_exclude_terms (exclude_tags t : string) :
  List.In t (parse_exclude exclude_tags) ->
  t <> EmptyString /\ PyStr.strip t = t /\ PyStr.lower t = t.
Proof.
  rewrite parse_exclude_In. intros [u [_ [Hne ->]]]. repeat split.
  - intros H. apply Hne. apply is_empty_true.
    rewrite <- is_empty_lower. now apply is_empty_true.
  - now rewrite strip_lower, strip_idem.
  - apply lower_idem.
Qed.

Lemma flat_map_combine_map {A B C D : Type} (f : A -> B)
  (g : B * C -> list D) (l : list A) (l' : list C) :
  List.flat_map g (List.combine (List.map f l) l')
  = List.flat_map (fun p => g (f (fst p), snd p)) (List.combine l l').
Proof.
  revert l'. induction l as [|a l IH]; intros [|c l']; simpl;
    try reflexivity. now rewrite IH.
Qed.

(** Every tag that reaches [result_tags] passed the test. *)
Lemma filter_tags_In (threshold : spec_float) (exclude_list : list string)
  (processed_tags : list string) (probs : list spec_float) (tag : string) :
  List.In tag (filter_tags threshold exclude_list processed_tags probs) ->
  exists prob, List.In (tag, prob) (List.combine processed_tags probs)
               /\ keep_tag threshold exclude_list tag prob = true.
Proof.
  rewrite filter_tags_flat_map, List.in_flat_map.
  intros [[t p] [Hin Hc]]. unfold contribution in Hc. simpl in Hc.
  destruct (keep_tag threshold exclude_list t p) eqn:Hk; simpl in Hc.
  - destruct Hc as [<-|[]]. now exists p.
  - contradiction.
Qed.

(** *** White space at the ends of a string *)

Lemma lstrip_blank (t : string) :
  blank t = true -> PyStr.lstrip t = EmptyString.
Proof.
  induction t as [|c t IH]; simpl; [reflexivity|].
  intros H. apply andb_true_iff in H as [Hc Ht]. rewrite Hc. now apply IH.
Qed.

Lemma lstrip_blank_app (lead t : string) :
  blank lead = true -> PyStr.lstrip (lead ++ t) = PyStr.lstrip t.
Proof.
  induction lead as [|c lead IH]; [reflexivity|].
  rewrite string_app_cons. simpl. intros H.
  apply andb_true_iff in H as [Hc Hl]. rewrite Hc. now apply IH.
Qed.

Lemma lstrip_solid (t : string) :
  starts_solid t = true -> PyStr.lstrip t = t.
Proof.
  destruct t as [|c t]; simpl; [discriminate|].
  intros H. apply negb_true_iff in H. now rewrite H.
Qed.

Lemma rstrip_blank (t : string) :
  blank t = true -> PyStr.rstrip t = EmptyString.
Proof.
  induction t as [|c t IH]; simpl; [reflexivity|].
  intros H. apply andb_true_iff in H as [Hc Ht].
  now rewrite (IH Ht), Hc.
Qed.

Lemma ends_solid_cons (c : ascii) (s : string) :
  PyStr.is_empty s = false -> ends_solid (String c s) = ends_solid s.
Proof. now destruct s. Qed.

Lemma rstrip_solid_app (core trail : string) :
  ends_solid core = true -> blank trail = true ->
  PyStr.rstrip (core ++ trail) = core.
Proof.
  intros Hcore Htrail. induction core as [|c core IH]; [discriminate|].
  rewrite string_app_cons. simpl PyStr.rstrip.
  destruct core as [|d core].
  - change (EmptyString ++ trail) with trail.
    rewrite (rstrip_blank trail Htrail). simpl in *.
    apply negb_true_iff in Hcore. now rewrite Hcore.
  - rewrite IH by exact Hcore. reflexivity.
Qed.

(** [strip] removes the margins and nothing else. *)
Lemma strip_padded (lead core trail : string) :
  blank lead = true -> blank trail = true -> bare core = true ->
  PyStr.strip (lead ++ core ++ trail) = core.
Proof.
  intros Hl Ht Hc. unfold PyStr.strip. rewrite (lstrip_blank_app _ _ Hl).
  unfold bare in Hc. apply orb_true_iff in Hc as [He|Hs].
  - apply is_empty_true in He. subst core.
    change (EmptyString ++ trail) with trail.
    now rewrite (lstrip_blank trail Ht).
  - apply andb_true_iff in Hs as [Hs He].
    rewrite lstrip_solid.
    + now apply rstrip_solid_app.
    + destruct core; [discriminate|]. now rewrite string_app_cons.
Qed.

Lemma lstrip_margin (s : string) :
  exists lead, s = lead ++ PyStr.lstrip s /\ blank lead = true.
Proof.
  induction s as [|c s [lead [Hs Hl]]]; simpl.
  - now exists EmptyString.
  - destruct (PyStr.is_space c) eqn:Hc.
    + exists (String c lead). rewrite string_app_cons, <- Hs. simpl.
      now rewrite Hc, Hl.
    + now exists EmptyString.
Qed.

Lemma rstrip_margin (s : string) :
  exists trail, s = PyStr.rstrip s ++ trail /\ blank trail = true.
Proof.
  induction s as [|c s [trail [Hs Ht]]]; simpl.
  - now exists EmptyString.
  - destruct (PyStr.is_empty (PyStr.rstrip s) && PyStr.is_space c) eqn:E.
    + apply andb_true_iff in E as [He Hc]. apply is_empty_true in He.
      rewrite He in Hs. change (EmptyString ++ trail) with trail in Hs.
      exists (String c trail). subst s. simpl. now rewrite Hc, Ht.
    + exists trail. rewrite string_app_cons, <- Hs. now split.
Qed.

Lemma rstrip_end (s : string) :
  PyStr.rstrip s = EmptyString \/ ends_solid (PyStr.rstrip s) = true.
Proof.
  induction s as [|c s IH]; simpl; [now left|].
  destruct (PyStr.rstrip s) as [|d r] eqn:Hr; simpl.
  - destruct (PyStr.is_space c) eqn:Hc; [now left|].
    right. simpl. now rewrite Hc.
  - right. destruct IH as [IH|IH]; [discriminate | exact IH].
Qed.

Lemma strip_bare (s : string) : bare (PyStr.strip s) = true.
Proof.
  unfold PyStr.strip, bare.
  destruct (lstrip_head s) as [H | [c [r [H Hc]]]]; rewrite H;
    [reflexivity|].
  pose proof (rstrip_end (String c r)) as Hend.
  assert (Hr : PyStr.rstrip (String c r) = String c (PyStr.rstrip r)).
  { simpl. now rewrite Hc, andb_false_r. }
  rewrite Hr in *. destruct Hend as [Hend|Hend]; [discriminate|].
  simpl PyStr.is_empty. simpl starts_solid. rewrite Hc, Hend. reflexivity.
Qed.

(** Every string is its stripped form between two blank margins. *)
Lemma strip_margins (s : string) :
  exists lead trail,
    s = lead ++ PyStr.strip s ++ trail
    /\ blank lead = true /\ blank trail = true.
Proof.
  destruct (lstrip_margin s) as [lead [Hs Hl]].
  destruct (rstrip_margin (PyStr.lstrip s)) as [trail [Hr Ht]].
  exists lead, trail. unfold PyStr.strip. rewrite <- Hr. now split.
Qed.

(** *** Splitting what was joined *)

Lemma split_prefix (sep : ascii) (x rest : string) :
  PyStr.contains sep x = false ->
  PyStr.split sep (x ++ String sep rest) = x :: PyStr.split sep rest.
Proof.
  induction x as [|c s IH]; intros Hc.
  - change (EmptyString ++ String sep rest) with (String sep rest).
    simpl. now rewrite Ascii.eqb_refl.
  - simpl in Hc. apply orb_false_iff in Hc as [Hc Hs].
    rewrite string_app_cons. simpl. rewrite Hc, (IH Hs). reflexivity.
Qed.

Lemma split_join (sep : ascii) (l : list string) :
  l <> [] ->
  List.Forall (fun t => PyStr.contains sep t = false) l ->
  PyStr.split sep (PyStr.join (String sep EmptyString) l) = l.
Proof.
  intros Hne Hall. induction Hall as [|x l Hx Hall IH]; [contradiction|].
  destruct l as [|y l].
  - simpl. now apply split_without_sep.
  - change (PyStr.join (String sep EmptyString) (x :: y :: l))
      with (x ++ String sep (PyStr.join (String sep EmptyString) (y :: l))).
    rewrite (split_prefix _ _ _ Hx), IH; [reflexivity | discriminate].
Qed.

Lemma parse_exclude_join (terms : list string) :
  List.Forall (fun t => PyStr.contains "," t = false) terms ->
  parse_exclude (PyStr.join "," terms)
  = List.map (fun t => PyStr.lower (PyStr.strip t))
      (List.filter (fun t => PyStr.truthy (PyStr.strip t)) terms).
Proof.
  intros Hall. destruct terms as [|x l]; [reflexivity|].
  unfold parse_exclude. rewrite split_join; [reflexivity|discriminate|].
  exact Hall.
Qed.

(** *** Underscores *)

Lemma replace_app (a b : ascii) (s t : string) :
  PyStr.replace a b (s ++ t) = PyStr.replace a b s ++ PyStr.replace a b t.
Proof.
  induction s as [|c s IH]; [reflexivity|].
  rewrite string_app_cons. simpl. rewrite IH. now rewrite string_app_cons.
Qed.

Lemma replace_underscore_clean (s : string) :
  PyStr.contains "_" (PyStr.replace "_" " " s) = false.
Proof.
  induction s as [|c s IH]; simpl; [reflexivity|].
  rewrite IH, orb_false_r.
  destruct (Ascii.eqb_spec c "_") as [->|Hne]; [reflexivity|].
  now apply Ascii.eqb_neq.
Qed.

Lemma replace_underscore_length (s : string) :
  String.length (PyStr.replace "_" " " s) = String.length s.
Proof. induction s as [|c s IH]; simpl; [reflexivity | now rewrite IH]. Qed.

Lemma replace_underscore_id (s : string) :
  PyStr.contains "_" s = false -> PyStr.replace "_" " " s = s.
Proof.
  induction s as [|c s IH]; simpl; [reflexivity|].
  intros H. apply orb_false_iff in H as [Hc Hs].
  now rewrite Hc, IH.
Qed.


(** ** Tag selection *)

Lemma filter_tags_pairs (threshold : spec_float) (exclude_list : list string)
  (replace_underscore : bool) (tags : list string)
  (probs : list spec_float) :
  filter_tags threshold exclude_list
    (process_tags replace_underscore tags) probs
  = List.flat_map
      (fun pair =>
         if keep_tag threshold exclude_list
              (process_tag replace_underscore (fst pair)) (snd pair)
         then [process_tag replace_underscore (fst pair)] else [])
      (List.combine tags probs).
Proof.
  rewrite filter_tags_flat_map, process_tags_map, flat_map_combine_map.
  reflexivity.
Qed.

(** C3, as the code has it: each (label, probability) pair of the zip is
    decided on its own.  The comparison is made in float32: the label is
    selected exactly when the threshold, rounded to float32, is strictly
    below the probability and the lower-cased transformed label is not an
    exclusion term.  A probability equal to the rounded threshold is
    never selected; one above it, with a label that is not excluded,
    always is.  For a threshold that is a float32 value the comparison is
    with the threshold itself.  For any threshold, a selected label's
    float32 probability is strictly above the threshold as given, and a
    float32 probability at or below the threshold is never selected.
    At threshold 0.5 the probability 0.9 passes and 0.5 and 0.35 do not;
    at threshold 0.1 the float32 nearest to 0.1 does not. *)
Theorem C3_strict_threshold_and_exclusion
  (threshold : spec_float) (exclude_tags : string)
  (replace_underscore : bool) (tags : list string)
  (probs : list spec_float) :
  PyStr.isascii exclude_tags = true ->
  List.Forall (fun tag => PyStr.isascii tag = true) tags ->
  let exclude_list := parse_exclude exclude_tags in
  let label := process_tag replace_underscore in
  let bar := NpFloat32.of_float threshold in
  filter_tags threshold exclude_list
    (process_tags replace_underscore tags) probs
  = List.flat_map
      (fun pair =>
         if keep_tag threshold exclude_list (label (fst pair)) (snd pair)
         then [label (fst pair)] else [])
      (List.combine tags probs)
  /\ (forall tag prob,
        List.In tag tags ->
        (keep_tag threshold exclude_list (label tag) prob = true
         <-> PyFloat.compare bar prob = Some Lt
             /\ ~ List.In (PyStr.lower (label tag)) exclude_list))
  /\ (forall tag prob,
        List.In tag tags ->
        PyFloat.compare prob bar = Some Eq ->
        keep_tag threshold exclude_list (label tag) prob = false)
  /\ (forall tag prob,
        List.In tag tags ->
        PyFloat.compare bar prob = Some Lt ->
        ~ List.In (PyStr.lower (label tag)) exclude_list ->
        keep_tag threshold exclude_list (label tag) prob = true)
  /\ (PyFloat.compare bar threshold = Some Eq ->
      forall tag prob,
        List.In tag tags ->
        (keep_tag threshold exclude_list (label tag) prob = true
         <-> PyFloat.compare threshold prob = Some Lt
             /\ ~ List.In (PyStr.lower (label tag)) exclude_list))
  /\ (forall tag prob,
        List.In tag tags ->
        NpFloat32.is_float32 prob = true ->
        keep_tag threshold exclude_list (label tag) prob = true ->
        PyFloat.compare threshold prob = Some Lt)
  /\ (forall tag prob,
        List.In tag tags ->
        NpFloat32.is_float32 prob = true ->
        PyFloat.leb prob threshold = true ->
        keep_tag threshold exclude_list (label tag) prob = false)
  /\ NpFloat32.gt (Fixture.f32 9 10) (Fixture.frac 1 2) = true
  /\ NpFloat32.gt (Fixture.f32 1 2) (Fixture.frac 1 2) = false
  /\ NpFloat32.gt (Fixture.f32 35 100) (Fixture.frac 1 2) = false
  /\ NpFloat32.gt (Fixture.f32 1 10) (Fixture.frac 1 10) = false
  /\ keep_tag (Fixture.frac 1 2) ["dog"] "Cat" (Fixture.f32 9 10) = true
  /\ keep_tag (Fixture.frac 1 2) ["cat"] "Cat" (Fixture.f32 9 10) = false.
Proof.
  intros _ _ exclude_list label bar.
  split; [|split; [|split; [|split; [|split; [|split; [|split]]]]]].
  - apply filter_tags_pairs.
  - intros tag prob _. apply keep_tag_spec.
  - intros tag prob _ Heq. apply compare_Eq_sym in Heq.
    unfold keep_tag, NpFloat32.gt, PyFloat.ltb. fold bar. now rewrite Heq.
  - intros tag prob _ Hlt Hex. now apply keep_tag_spec.
  - intros Hbar tag prob _.
    rewrite <- (compare_Eq_l bar threshold prob Hbar). apply keep_tag_spec.
  - intros tag prob _ Hp Hkeep. unfold keep_tag in Hkeep.
    apply andb_prop in Hkeep as [Hgt _].
    apply (gt_float32_sound prob threshold Hp) in Hgt.
    unfold PyFloat.ltb in Hgt.
    now destruct (PyFloat.compare threshold prob) as [[| |]|].
  - intros tag prob _ Hp Hle. unfold keep_tag.
    destruct (NpFloat32.gt prob threshold) eqn:Hgt; [|reflexivity].
    apply (gt_float32_sound prob threshold Hp) in Hgt.
    apply leb_not_ltb in Hle. congruence.
  - vm_compute. repeat split.
Qed.

Lemma C3_witness :
  PyStr.isascii " SKY ," = true
  /\ List.Forall (fun tag => PyStr.isascii tag = true)
       ["Cat"; "blue_sky"; "tail"; "sky"]
  /\ filter_tags (Fixture.frac 1 2) (parse_exclude " SKY ,")
       (process_tags true ["Cat"; "blue_sky"; "tail"; "sky"])
       [Fixture.f32 9 10; Fixture.f32 35 100; Fixture.f32 1 2;
        Fixture.f32 99 100]
     = ["Cat"]
  /\ PyFloat.compare (Fixture.f32 1 2) (NpFloat32.of_float (Fixture.frac 1 2))
     = Some Eq
  /\ keep_tag (Fixture.frac 1 2) (parse_exclude " SKY ,")
       (process_tag true "tail") (Fixture.f32 1 2)
     = false.
Proof.
  assert (Hascii : List.Forall (fun tag => PyStr.isascii tag = true)
                     ["Cat"; "blue_sky"; "tail"; "sky"])
    by (repeat constructor).
  destruct (C3_strict_threshold_and_exclusion (Fixture.frac 1 2)
              " SKY ," true ["Cat"; "blue_sky"; "tail"; "sky"]
              [Fixture.f32 9 10; Fixture.f32 35 100; Fixture.f32 1 2;
               Fixture.f32 99 100]
              eq_refl Hascii) as [Hloop [_ [Hequal _]]].
  split; [reflexivity|]. split; [exact Hascii|].
  split; [rewrite Hloop; vm_compute; reflexivity|].
  split; [vm_compute; reflexivity|].
  apply (Hequal "tail" (Fixture.f32 1 2)).
  - simpl. auto.
  - vm_compute. reflexivity.
Defined.

(** C3 as first stated fails.  The threshold is the Python float 0.1 and
    the probability the float32 nearest to it, which is the larger of the
    two; the label is not excluded; the comparison rounds the threshold to
    that same float32, finds the two equal, and the label is dropped. *)
Lemma C3_counterexample_probability_above_threshold_dropped :
  Fixture.frac 1 10 = S754_finite false 7205759403792794 (-56)
  /\ Fixture.f32 1 10 = S754_finite false 13421773 (-27)
  /\ PyFloat.compare (Fixture.frac 1 10) (Fixture.f32 1 10) = Some Lt
  /\ (7205759403792794 < 13421773 * 2 ^ 29)%Z
  /\ str_in (PyStr.lower (process_tag true "cat")) (parse_exclude "")
     = false
  /\ keep_tag (Fixture.frac 1 10) (parse_exclude "") (process_tag true "cat")
       (Fixture.f32 1 10) = false
  /\ filter_tags (Fixture.frac 1 10) (parse_exclude "")
       (process_tags true ["cat"]) [Fixture.f32 1 10] = [].
Proof. vm_compute. repeat split. Qed.

(** C4: the transform replaces every underscore by a space, or is the
    identity, and is applied to each label before the filter sees it.
    The exclusion terms are the pieces between the commas of the exclude
    string, each without the white space around it and lower-cased, the
    pieces of white space only left out.  A label is matched against them
    in its transformed, lower-cased form.  So an exclude string with a
    piece [cat], padded or not and wherever it stands, removes the label
    [Cat], whatever [replace_underscore] is. *)
Theorem C4_exclusion_after_transform
  (threshold : spec_float) (replace_underscore : bool)
  (tags : list string) (probs : list spec_float)
  (before after : list string) (lead trail : string) :
  List.Forall
    (fun t => PyStr.contains "," t = false /\ PyStr.isascii t = true)
    (before ++ after) ->
  blank lead = true -> blank trail = true ->
  List.Forall (fun tag => PyStr.isascii tag = true) tags ->
  let pieces :=
    (before ++ [(lead ++ "cat" ++ trail)%string] ++ after)%list in
  let exclude_tags := PyStr.join "," pieces in
  let exclude_list := parse_exclude exclude_tags in
  let label := process_tag replace_underscore in
  let selected :=
    filter_tags threshold exclude_list
      (process_tags replace_underscore tags) probs in
  (forall tag, process_tag false tag = tag)
  /\ (forall s t, process_tag true (s ++ "_" ++ t)
                  = process_tag true s ++ " " ++ process_tag true t)
  /\ (forall tag, PyStr.contains "_" tag = false ->
                  process_tag true tag = tag)
  /\ (forall tag, PyStr.contains "_" (process_tag true tag) = false)
  /\ process_tags replace_underscore tags = List.map label tags
  /\ (forall term,
        List.In term exclude_list
        <-> exists pre core post,
              List.In (pre ++ core ++ post) pieces
              /\ blank pre = true /\ blank post = true
              /\ bare core = true /\ core <> EmptyString
              /\ term = PyStr.lower core)
  /\ (forall c s,
        PyStr.lower (String c s)
        = String (if ((65 <=? nat_of_ascii c) && (nat_of_ascii c <=? 90))%nat
                  then ascii_of_nat (nat_of_ascii c + 32) else c)
            (PyStr.lower s))
  /\ List.In "cat" exclude_list
  /\ selected
     = List.flat_map
         (fun pair =>
            if NpFloat32.gt (snd pair) threshold
               && negb (str_in (PyStr.lower (label (fst pair)))
                          exclude_list)
            then [label (fst pair)] else [])
         (List.combine tags probs)
  /\ ~ List.In "Cat" selected
  /\ compose_tags ["blue_sky"] [Fixture.f32 9 10] (Fixture.frac 35 100)
       "blue sky" true "" = ""
  /\ compose_tags ["blue_sky"] [Fixture.f32 9 10] (Fixture.frac 35 100)
       "blue_sky" true "" = "blue sky"
  /\ compose_tags ["blue_sky"] [Fixture.f32 9 10] (Fixture.frac 35 100)
       "blue_sky" false "" = ""
  /\ compose_tags ["blue_sky"] [Fixture.f32 9 10] (Fixture.frac 35 100)
       "blue sky" false "" = "blue_sky"
  /\ parse_exclude " Dog, CAT  ,,blue Sky , " = ["dog"; "cat"; "blue sky"].
Proof.
  intros Hpieces Hlead Htrail _ pieces exclude_tags exclude_list label
         selected.
  assert (Hcat : PyStr.contains "," (lead ++ "cat" ++ trail) = false).
  { rewrite !contains_app. simpl.
    assert (Hb : forall s, blank s = true -> PyStr.contains "," s = false).
    { induction s as [|c s IH]; simpl; [reflexivity|].
      intros H. apply andb_true_iff in H as [Hc Hs]. rewrite (IH Hs).
      destruct c as [[] [] [] [] [] [] [] []]; try reflexivity;
        discriminate. }
    now rewrite (Hb lead Hlead), (Hb trail Htrail). }
  assert (Hfree : List.Forall (fun t => PyStr.contains "," t = false)
                    pieces).
  { unfold pieces. apply List.Forall_app in Hpieces as [Hb Ha].
    apply List.Forall_app. split.
    - eapply List.Forall_impl; [|exact Hb]. now intros t [H _].
    - constructor; [exact Hcat|].
      eapply List.Forall_impl; [|exact Ha]. now intros t [H _]. }
  assert (Hparse : exclude_list
                   = List.map (fun t => PyStr.lower (PyStr.strip t))
                       (List.filter
                          (fun t => PyStr.truthy (PyStr.strip t)) pieces))
    by exact (parse_exclude_join pieces Hfree).
  assert (Hterms : forall term,
            List.In term exclude_list
            <-> exists pre core post,
                  List.In (pre ++ core ++ post) pieces
                  /\ blank pre = true /\ blank post = true
                  /\ bare core = true /\ core <> EmptyString
                  /\ term = PyStr.lower core).
  { intros term. rewrite Hparse, List.in_map_iff. split.
    - intros [piece [Hterm Hin]]. apply List.filter_In in Hin as [Hin Hne].
      apply truthy_true in Hne.
      destruct (strip_margins piece) as [pre [post [Hp [Hl Hr]]]].
      exists pre, (PyStr.strip piece), post.
      rewrite <- Hp. repeat split; auto using strip_bare.
    - intros [pre [core [post [Hin [Hl [Hr [Hc [Hne ->]]]]]]]].
      exists (pre ++ core ++ post).
      rewrite (strip_padded pre core post Hl Hr Hc). split; [reflexivity|].
      apply List.filter_In. split; [exact Hin|].
      rewrite (strip_padded pre core post Hl Hr Hc).
      now apply truthy_true. }
  assert (Hin : List.In "cat" exclude_list).
  { apply Hterms. exists lead, "cat", trail.
    repeat split; try assumption; try reflexivity; try discriminate.
    unfold pieces. apply List.in_or_app. right. now left. }
  repeat match goal with |- _ /\ _ => split end.
  - reflexivity.
  - intros s t. unfold process_tag.
    change ("_" ++ t) with (String "_" t).
    rewrite replace_app. reflexivity.
  - intros tag. apply replace_underscore_id.
  - intros tag. apply replace_underscore_clean.
  - apply process_tags_map.
  - exact Hterms.
  - reflexivity.
  - exact Hin.
  - apply filter_tags_pairs.
  - intros Hsel. apply filter_tags_In in Hsel as [prob [_ Hkeep]].
    apply keep_tag_spec in Hkeep as [_ Hnot]. now apply Hnot.
  - vm_compute. reflexivity.
  - vm_compute. reflexivity.
  - vm_compute. reflexivity.
  - vm_compute. reflexivity.
  - vm_compute. reflexivity.
Qed.

Lemma C4_witness :
  List.Forall
    (fun t => PyStr.contains "," t = false /\ PyStr.isascii t = true)
    ([" Dog"] ++ [""; "blue Sky "])
  /\ blank " " = true /\ blank "  " = true
  /\ List.Forall (fun tag => PyStr.isascii tag = true)
       ["Cat"; "dog"; "blue_sky"; "tail"]
  /\ PyStr.join "," ([" Dog"] ++ [" " ++ "cat" ++ "  "] ++ [""; "blue Sky "])
     = " Dog, cat  ,,blue Sky "
  /\ filter_tags (Fixture.frac 35 100)
       (parse_exclude " Dog, cat  ,,blue Sky ")
       (process_tags true ["Cat"; "dog"; "blue_sky"; "tail"])
       [Fixture.f32 9 10; Fixture.f32 9 10; Fixture.f32 1 2;
        Fixture.f32 99 100]
     = ["tail"].
Proof.
  assert (H1 : List.Forall
                 (fun t => PyStr.contains "," t = false
                           /\ PyStr.isascii t = true)
                 ([" Dog"] ++ [""; "blue Sky "]))
    by (repeat constructor).
  assert (H4 : List.Forall (fun tag => PyStr.isascii tag = true)
                 ["Cat"; "dog"; "blue_sky"; "tail"])
    by (repeat constructor).
  split; [exact H1|]. split; [reflexivity|]. split; [reflexivity|].
  split; [exact H4|]. split; [reflexivity|].
  destruct (C4_exclusion_after_transform (Fixture.frac 35 100) true
              ["Cat"; "dog"; "blue_sky"; "tail"]
              [Fixture.f32 9 10; Fixture.f32 9 10; Fixture.f32 1 2;
               Fixture.f32 99 100]
              [" Dog"] [""; "blue Sky "] " " "  " H1 eq_refl eq_refl H4)
    as [_ [_ [_ [_ [_ [_ [_ [_ [Hsel _]]]]]]]]].
  change (PyStr.join ","
            ([" Dog"] ++ [" " ++ "cat" ++ "  "] ++ [""; "blue Sky "]))
    with " Dog, cat  ,,blue Sky " in Hsel.
  rewrite Hsel. vm_compute. reflexivity.
Defined.

(** ** Output assembly *)

Lemma contributions_sublist (threshold : spec_float)
  (exclude_list : list string) (processed_tags : list string)
  (probs : list spec_float) :
  sublist
    (List.flat_map (contribution threshold exclude_list)
       (List.combine processed_tags probs))
    processed_tags.
Proof.
  revert probs. induction processed_tags as [|tag rest IH]; intros probs.
  - constructor.
  - destruct probs as [|prob probs]; simpl.
    + apply sublist_nil_l.
    + unfold contribution at 1; simpl.
      destruct (keep_tag threshold exclude_list tag prob); simpl.
      * apply sublist_skip, IH.
      * apply sublist_cons, IH.
Qed.

(** The labels are the second columns of the rows that have one, in row
    order. *)
Lemma read_tags_omap (rows : list (list string)) :
  read_tags rows = omap (fun row => row !! 1%nat) rows.
Proof.
  induction rows as [|row rows IH]; simpl; [reflexivity|].
  destruct (row !! 1%nat) as [tag|] eqn:Htag.
  - apply lookup_lt_Some in Htag.
    destruct (Nat.ltb_spec 1 (length row)) as [H|H]; [|lia].
    now rewrite IH.
  - now destruct (1 <? length row)%nat.
Qed.

(** C5: the output is the prepend without the white space around it,
    then [", "] only when both that and the list of selected tags are
    non-empty, then the selected tags joined by [", "].  The selected
    tags are a subsequence of the transformed labels, in label order,
    whatever the probabilities are; the labels themselves are in
    label-file row order. *)
Theorem C5_output_assembly
  (prepend_tags : string) (result_tags : list string)
  (threshold : spec_float) (exclude_list : list string)
  (replace_underscore : bool) (tags : list string)
  (probs : list spec_float) :
  PyStr.isascii prepend_tags = true ->
  (exists lead core trail,
     prepend_tags = lead ++ core ++ trail
     /\ blank lead = true /\ blank trail = true /\ bare core = true)
  /\ (forall lead core trail,
        prepend_tags = lead ++ core ++ trail ->
        blank lead = true -> blank trail = true -> bare core = true ->
        build_output prepend_tags result_tags
        = core
          ++ (if PyStr.truthy core && nonempty result_tags
              then ", " else EmptyString)
          ++ PyStr.join ", " result_tags
        /\ (core = EmptyString ->
            build_output prepend_tags result_tags
            = PyStr.join ", " result_tags)
        /\ build_output prepend_tags [] = core)
  /\ (forall x y rest,
        PyStr.join ", " [] = EmptyString
        /\ PyStr.join ", " [x] = x
        /\ PyStr.join ", " (x :: y :: rest)
           = x ++ ", " ++ PyStr.join ", " (y :: rest))
  /\ sublist
       (filter_tags threshold exclude_list
          (process_tags replace_underscore tags) probs)
       (List.map (process_tag replace_underscore) tags)
  /\ (forall rows : list (list string),
        read_tags rows = omap (fun row => row !! 1%nat) rows)
  /\ build_output "studio" ["ear"; "tail"] = "studio, ear, tail"
  /\ build_output "" ["ear"] = "ear"
  /\ build_output "studio" [] = "studio"
  /\ build_output "  studio " ["ear"; "tail"] = "studio, ear, tail"
  /\ build_output "   " ["ear"] = "ear"
  /\ build_output " a, b " [] = "a, b".
Proof.
  intros _.
  assert (Hout : forall core,
            PyStr.strip prepend_tags = core ->
            build_output prepend_tags result_tags
            = core
              ++ (if PyStr.truthy core && nonempty result_tags
                  then ", " else EmptyString)
              ++ PyStr.join ", " result_tags
            /\ (core = EmptyString ->
                build_output prepend_tags result_tags
                = PyStr.join ", " result_tags)
            /\ build_output prepend_tags [] = core).
  { intros core <-. unfold build_output. split; [|split].
    - destruct (PyStr.truthy (PyStr.strip prepend_tags)
                && nonempty result_tags);
        [apply string_app_assoc | reflexivity].
    - intros Hempty. now rewrite Hempty.
    - rewrite andb_false_r. apply string_app_empty_r. }
  repeat match goal with |- _ /\ _ => split end.
  - destruct (strip_margins prepend_tags) as [lead [trail [Hp [Hl Ht]]]].
    exists lead, (PyStr.strip prepend_tags), trail.
    repeat split; auto using strip_bare.
  - intros lead core trail Hp Hl Ht Hc. apply Hout. rewrite Hp.
    now apply strip_padded.
  - intros x y rest. repeat split.
  - rewrite filter_tags_flat_map, process_tags_map.
    apply contributions_sublist.
  - apply read_tags_omap.
  - reflexivity.
  - reflexivity.
  - reflexivity.
  - reflexivity.
  - reflexivity.
  - reflexivity.
Qed.

Lemma C5_witness :
  PyStr.isascii "  studio " = true
  /\ build_output "  studio " ["ear"; "tail"] = "studio, ear, tail".
Proof.
  split; [reflexivity|].
  destruct (C5_output_assembly "  studio " ["ear"; "tail"]
              (Fixture.frac 35 100) [] true [] [] eq_refl)
    as [_ [Hlaw _]].
  exact (proj1 (Hlaw "  " "studio" " " eq_refl eq_refl eq_refl eq_refl)).
Defined.

(** ** The unused parameter *)

Lemma tag_request_character_threshold (w : World) (r r' : Request.t)
  (st : state) :
  Request.same_but_character_threshold r r' ->
  tag_request w r st = tag_request w r' st.
Proof.
  destruct r, r'. unfold Request.same_but_character_threshold. simpl.
  intros [-> [-> [-> [-> [-> [-> [-> [-> ->]]]]]]]]. reflexivity.
Qed.

(** C8: [character_threshold] is accepted and never read: two calls that
    differ only in it return the same string and leave the same state
    behind, files included; and so do two whole batches whose requests
    differ only in it. *)
Theorem C8_character_threshold_unused
  (w : World) (image : option NdArray.t)
  (filename folder_path model : string)
  (threshold character_threshold character_threshold' : spec_float)
  (replace_underscore use_gpu : bool) (prepend_tags exclude_tags : string)
  (st : state) :
  tag_batch w image filename folder_path model threshold
    character_threshold replace_underscore use_gpu prepend_tags
    exclude_tags st
  = tag_batch w image filename folder_path model threshold
      character_threshold' replace_underscore use_gpu prepend_tags
      exclude_tags st
  /\ forall requests requests' : list Request.t,
       List.Forall2 Request.same_but_character_threshold
         requests requests' ->
       run_batch w requests st = run_batch w requests' st.
Proof.
  split; [reflexivity|].
  intros requests requests' Hsame. revert st.
  induction Hsame as [|r r' rest rest' Hr _ IH]; intros st; simpl.
  - reflexivity.
  - rewrite (tag_request_character_threshold w r r' st Hr).
    destruct (tag_request w r' st) as [out st1]. now rewrite IH.
Qed.

(** ** A small program logic for [M] *)

Lemma hoare_weaken {A : Type} (P : state -> Prop) (m : M A)
  (Q Q' : result A -> state -> Prop) :
  hoare P m Q -> (forall r st, Q r st -> Q' r st) -> hoare P m Q'.
Proof. intros H HQ st HP. apply HQ, H, HP. Qed.

Lemma hoare_ret {A : Type} (P : state -> Prop) (a : A)
  (Q : result A -> state -> Prop) :
  (forall st, P st -> Q (Ok a) st) -> hoare P (ret a) Q.
Proof. intros H st HP. apply H, HP. Qed.

Lemma hoare_raise {A : Type} (P : state -> Prop)
  (Q : result A -> state -> Prop) :
  (forall st, P st -> Q Raised st) -> hoare P raise Q.
Proof. intros H st HP. apply H, HP. Qed.

Lemma hoare_bind {A B : Type} (P : state -> Prop) (m : M A) (k : A -> M B)
  (R : result A -> state -> Prop) (Q : result B -> state -> Prop) :
  hoare P m R ->
  (forall a, hoare (R (Ok a)) (k a) Q) ->
  (forall st, R Raised st -> Q Raised st) ->
  hoare P (bind m k) Q.
Proof.
  intros Hm Hk Hr st HP. unfold bind. specialize (Hm st HP).
  destruct (m st) as [[a|] st1]; simpl in *.
  - apply Hk, Hm.
  - apply Hr, Hm.
Qed.

Lemma hoare_try {A : Type} (P : state -> Prop) (body handler : M A)
  (R Q : result A -> state -> Prop) :
  hoare P body R ->
  (forall a st, R (Ok a) st -> Q (Ok a) st) ->
  hoare (R Raised) handler Q ->
  hoare P (try_except body handler) Q.
Proof.
  intros Hb Hok Hh st HP. unfold try_except. specialize (Hb st HP).
  destruct (body st) as [[a|] st1]; simpl in *.
  - apply Hok, Hb.
  - apply Hh, Hb.
Qed.

Lemma hoare_gets {A : Type} (P : state -> Prop) (f : state -> A)
  (Q : result A -> state -> Prop) :
  (forall st, P st -> Q (Ok (f st)) st) -> hoare P (gets f) Q.
Proof. intros H st HP. apply H, HP. Qed.

Lemma hoare_modify (P : state -> Prop) (f : state -> state)
  (Q : result unit -> state -> Prop) :
  (forall st, P st -> Q (Ok tt) (f st)) -> hoare P (modify f) Q.
Proof. intros H st HP. apply H, HP. Qed.

(** *** Computations that leave the model cache alone *)

Lemma frame_ret {A : Type} (a : A) : frame_cache (ret a).
Proof. intros c. now apply hoare_ret. Qed.

Lemma frame_raise {A : Type} : frame_cache (@raise A).
Proof. intros c. now apply hoare_raise. Qed.

Lemma frame_bind {A B : Type} (m : M A) (k : A -> M B) :
  frame_cache m -> (forall a, frame_cache (k a)) -> frame_cache (bind m k).
Proof.
  intros Hm Hk c. apply hoare_bind with (R := fun _ => keeps c).
  - apply Hm.
  - intros a. apply Hk.
  - auto.
Qed.

Lemma frame_try {A : Type} (body handler : M A) :
  frame_cache body -> frame_cache handler ->
  frame_cache (try_except body handler).
Proof.
  intros Hb Hh c. apply hoare_try with (R := fun _ => keeps c).
  - apply Hb.
  - auto.
  - apply Hh.
Qed.

Lemma frame_gets {A : Type} (f : state -> A) : frame_cache (gets f).
Proof. intros c. now apply hoare_gets. Qed.

Lemma frame_of_option {A : Type} (o : option A) : frame_cache (of_option o).
Proof. destruct o; [apply frame_ret | apply frame_raise]. Qed.

Lemma frame_modify (f : state -> state) :
  (forall st, model_cache (f st) = model_cache st) -> frame_cache (modify f).
Proof.
  intros H c. apply hoare_modify. intros st Hc. unfold keeps.
  now rewrite H.
Qed.

Lemma frame_path_exists (p : string) : frame_cache (path_exists p).
Proof. apply frame_gets. Qed.

Lemma frame_mkdir (dir : string) : frame_cache (mkdir dir).
Proof. now apply frame_modify. Qed.

Lemma frame_rename (src dst : string) : frame_cache (rename src dst).
Proof.
  intros c st Hc. unfold rename. now destruct (files st !! src).
Qed.

Lemma frame_hub_download (w : World) (repo file local_dir : string) :
  frame_cache (hub_download w repo file local_dir).
Proof.
  intros c st Hc. unfold hub_download.
  now destruct (hf_hub_download w repo file local_dir (files st)).
Qed.

Lemma frame_new_session (w : World) (path : string) (provs : list provider) :
  frame_cache (new_session w path provs).
Proof.
  intros c st Hc. unfold new_session.
  now destruct (InferenceSession w path provs (files st)).
Qed.

Lemma frame_read_text (p : string) : frame_cache (read_text p).
Proof. intros c st Hc. unfold read_text. now destruct (files st !! p). Qed.

Lemma frame_run_session (w : World) (sess : Session.t) (input_name : string)
  (inp : tensor) : frame_cache (run_session w sess input_name inp).
Proof.
  intros c st Hc. unfold run_session.
  now destruct (session_run w sess input_name inp).
Qed.

Lemma frame_write_text (w : World) (path content : string) :
  frame_cache (write_text w path content).
Proof.
  intros c st Hc. unfold write_text. now destruct (open_w w path (files st)).
Qed.

Create HintDb frame.
#[local] Hint Resolve frame_ret frame_raise frame_gets frame_of_option
  frame_path_exists frame_mkdir frame_rename frame_hub_download
  frame_new_session frame_read_text frame_run_session frame_write_text
  : frame.

(** Walks down a computation built from the combinators above. *)
Ltac frame_step :=
  match goal with
  | |- frame_cache (bind _ _) => apply frame_bind; [|intros ?]
  | |- frame_cache (try_except _ _) => apply frame_try
  | |- frame_cache (if ?b then _ else _) => destruct b
  | |- frame_cache (match ?x with _ => _ end) => destruct x
  | |- frame_cache (modify _) => apply frame_modify; reflexivity
  | |- frame_cache _ => solve [auto with frame]
  end.

Ltac frame := repeat frame_step.

(** ** The resolver and the loader *)

Lemma download_missing_frame (w : World) (config : Config.t)
  (model_dir model_path csv_path : string) :
  frame_cache (download_missing w config model_dir model_path csv_path).
Proof. unfold download_missing. frame. Qed.

Lemma ensure_model_available_frame (w : World) (model_name : string) :
  frame_cache (ensure_model_available w model_name).
Proof.
  unfold ensure_model_available.
  destruct (MODEL_CONFIGS !! model_name); [|apply frame_ret].
  apply frame_bind; [apply frame_mkdir | intros _].
  apply frame_bind; [apply frame_path_exists | intros have_model].
  apply frame_bind; [apply frame_path_exists | intros have_csv].
  destruct (have_model && have_csv); [apply frame_ret|].
  apply frame_try; [apply download_missing_frame | apply frame_ret].
Qed.

(** Where the models directory can be made, [ensure_model_available]
    returns its tuple. *)
Lemma ensure_model_available_returns (w : World) (model_name : string)
  (st : state) :
  exists t, fst (ensure_model_available w model_name st) = Ok t.
Proof.
  unfold ensure_model_available.
  destruct (MODEL_CONFIGS !! model_name) as [config|]; [|now eexists].
  unfold bind, mkdir, modify, path_exists, gets, try_except, ret. simpl.
  match goal with
  | |- context [if ?b then _ else _] => destruct b
  end; [now eexists|].
  match goal with
  | |- context [download_missing ?a ?b ?c ?d ?e ?s] =>
      destruct (download_missing a b c d e s) as [[t|] st1]
  end; now eexists.
Qed.

Lemma loaded_for_hit (model_name : string) (c : Cache.t) :
  loaded_for model_name c -> cache_hit c model_name = true.
Proof.
  intros [sess [tags [input_name [Hs [_ [Hn _]]]]]].
  unfold cache_hit. rewrite Hn, Hs. apply String.eqb_refl.
Qed.

(** The [try] block either returns [True] with the cache filled for the
    requested model, or leaves the cache as it found it. *)
Lemma load_model_body_spec (w : World) (model_name : string) (use_gpu : bool)
  (c : Cache.t) :
  hoare (keeps c) (load_model_body w model_name use_gpu)
    (fun r st' =>
       match r with
       | Ok true => loaded_for model_name (model_cache st')
       | _ => keeps c st'
       end).
Proof.
  unfold load_model_body.
  apply hoare_bind with (R := fun _ => keeps c);
    [apply ensure_model_available_frame | | auto].
  intros [[success model_path] csv_path].
  destruct success; simpl; [|now apply hoare_ret].
  apply hoare_bind with (R := fun _ => keeps c); [ | | auto].
  { apply frame_try; apply frame_new_session. }
  intros sess.
  apply hoare_bind with (R := fun _ => keeps c);
    [apply frame_of_option | | auto].
  intros first_input.
  apply hoare_bind with (R := fun _ => keeps c);
    [apply frame_of_option | | auto].
  intros input_size.
  apply hoare_bind with (R := fun _ => keeps c);
    [apply frame_path_exists | | auto].
  intros csv_found. destruct csv_found; simpl; [|now apply hoare_ret].
  apply hoare_bind with (R := fun _ => keeps c);
    [apply frame_read_text | | auto].
  intros content.
  apply hoare_bind with (R := fun _ => keeps c);
    [apply frame_of_option | | auto].
  intros [|header rest]; [now apply hoare_raise|].
  apply hoare_bind
    with (R := fun r st' =>
                 match r with
                 | Ok _ => loaded_for model_name (model_cache st')
                 | Raised => keeps c st'
                 end).
  - apply hoare_modify. intros st _. simpl.
    now exists sess, (read_tags rest), (NodeArg.name first_input).
  - intros []. now apply hoare_ret.
  - auto.
Qed.

(** What one call of [load_model_once] can do. *)
Lemma load_model_once_spec (w : World) (model_name : string) (use_gpu : bool)
  (st : state) :
  exists b st',
    load_model_once w model_name use_gpu st = (Ok b, st')
    /\ (cache_hit (model_cache st) model_name = true -> b = true /\ st' = st)
    /\ (b = true -> cache_hit (model_cache st') model_name = true)
    /\ (b = false -> model_cache st' = model_cache st).
Proof.
  unfold load_model_once, bind, gets, try_except, ret.
  destruct (cache_hit (model_cache st) model_name) eqn:Hhit.
  - exists true, st. repeat split; auto; discriminate.
  - pose proof (load_model_body_spec w model_name use_gpu (model_cache st)
                  st eq_refl) as H.
    destruct (load_model_body w model_name use_gpu st) as [[[|]|] st1];
      simpl in H.
    + exists true, st1. repeat split; try discriminate.
      intros _. now apply loaded_for_hit.
    + exists false, st1. repeat split; try discriminate. auto.
    + exists false, st1. repeat split; try discriminate. auto.
Qed.

(** ** Counting resolutions and sessions *)

Lemma resolutions_snoc (tr : list event) (e : event) :
  resolutions (tr ++ [e])
  = (resolutions tr + match e with EvMkdir _ => 1 | _ => 0 end)%nat.
Proof.
  unfold resolutions.
  rewrite List.filter_app, List.length_app. simpl.
  destruct e; reflexivity.
Qed.

Lemma sessions_built_snoc (tr : list event) (e : event) :
  sessions_built (tr ++ [e])
  = (sessions_built tr
     + match e with EvNewSession _ _ true => 1 | _ => 0 end)%nat.
Proof.
  unfold sessions_built.
  rewrite List.filter_app, List.length_app. simpl.
  destruct e as [| | |? ? []| |]; reflexivity.
Qed.

Lemma adds_weaken {A : Type} (m : M A) (r s r' s' : nat) :
  adds m r s -> (r <= r')%nat -> (s <= s')%nat -> adds m r' s'.
Proof. intros H Hr Hs st. destruct (H st). lia. Qed.

Lemma adds_ret {A : Type} (a : A) : adds (ret a) 0 0.
Proof. intros st. simpl. lia. Qed.

Lemma adds_raise {A : Type} : adds (@raise A) 0 0.
Proof. intros st. simpl. lia. Qed.

Lemma adds_gets {A : Type} (f : state -> A) : adds (gets f) 0 0.
Proof. intros st. simpl. lia. Qed.

Lemma adds_of_option {A : Type} (o : option A) : adds (of_option o) 0 0.
Proof. destruct o; [apply adds_ret | apply adds_raise]. Qed.

Lemma adds_bind {A B : Type} (m : M A) (k : A -> M B) (r s r' s' : nat) :
  adds m r s -> (forall a, adds (k a) r' s') ->
  adds (bind m k) (r + r') (s + s').
Proof.
  intros Hm Hk st. unfold bind. destruct (Hm st) as [H1 H2].
  destruct (m st) as [[a|] st1]; simpl in *.
  - destruct (Hk a st1). lia.
  - lia.
Qed.

Lemma adds_try {A : Type} (body handler : M A) (r s r' s' : nat) :
  adds body r s -> adds handler r' s' ->
  adds (try_except body handler) (r + r') (s + s').
Proof.
  intros Hb Hh st. unfold try_except. destruct (Hb st) as [H1 H2].
  destruct (body st) as [[a|] st1]; simpl in *.
  - lia.
  - destruct (Hh st1). lia.
Qed.

Lemma adds_path_exists (p : string) : adds (path_exists p) 0 0.
Proof. apply adds_gets. Qed.

Lemma adds_mkdir (dir : string) : adds (mkdir dir) 1 0.
Proof.
  intros st. unfold mkdir, modify. simpl.
  rewrite resolutions_snoc, sessions_built_snoc. lia.
Qed.

Lemma adds_rename (src dst : string) : adds (rename src dst) 0 0.
Proof.
  intros st. unfold rename. destruct (files st !! src); simpl.
  - rewrite resolutions_snoc, sessions_built_snoc. lia.
  - lia.
Qed.

Lemma adds_hub_download (w : World) (repo file local_dir : string) :
  adds (hub_download w repo file local_dir) 0 0.
Proof.
  intros st. unfold hub_download.
  destruct (hf_hub_download w repo file local_dir (files st)); simpl;
    rewrite resolutions_snoc, sessions_built_snoc; lia.
Qed.

Lemma adds_read_text (p : string) : adds (read_text p) 0 0.
Proof.
  intros st. unfold read_text. destruct (files st !! p); simpl; lia.
Qed.

(** The GPU attempt and the CPU fallback build one session between
    them. *)
Lemma adds_session_with_fallback (w : World) (path : string)
  (provs : list provider) :
  adds (try_except (new_session w path provs)
          (new_session w path [CPUExecutionProvider])) 0 1.
Proof.
  intros st. unfold try_except, new_session.
  destruct (InferenceSession w path provs (files st)); simpl.
  - rewrite resolutions_snoc, sessions_built_snoc. lia.
  - destruct (InferenceSession w path [CPUExecutionProvider] (files st));
      simpl; rewrite !resolutions_snoc, !sessions_built_snoc; simpl; lia.
Qed.

Create HintDb adds.
#[local] Hint Resolve adds_ret adds_raise adds_gets adds_of_option
  adds_path_exists adds_rename adds_hub_download adds_read_text : adds.

(** Walks down a computation that adds nothing to either count. *)
Ltac adds_nothing :=
  repeat match goal with
    | |- adds (bind _ _) 0 0 =>
        apply (adds_bind _ _ 0 0 0 0); [|intros ?]
    | |- adds (try_except _ _) 0 0 => apply (adds_try _ _ 0 0 0 0)
    | |- adds (if ?b then _ else _) 0 0 => destruct b
    | |- adds _ 0 0 => solve [auto with adds]
    end.

Lemma adds_download_missing (w : World) (config : Config.t)
  (model_dir model_path csv_path : string) :
  adds (download_missing w config model_dir model_path csv_path) 0 0.
Proof. unfold download_missing. adds_nothing. Qed.

Lemma adds_ensure_model_available (w : World) (model_name : string) :
  adds (ensure_model_available w model_name) 1 0.
Proof.
  unfold ensure_model_available.
  destruct (MODEL_CONFIGS !! model_name) as [config|].
  - apply (adds_bind _ _ 1 0 0 0); [apply adds_mkdir | intros _].
    apply (adds_bind _ _ 0 0 0 0); [auto with adds | intros have_model].
    apply (adds_bind _ _ 0 0 0 0); [auto with adds | intros have_csv].
    destruct (have_model && have_csv); [auto with adds|].
    apply (adds_try _ _ 0 0 0 0);
      [apply adds_download_missing | auto with adds].
  - apply (adds_weaken _ 0 0); [apply adds_ret | lia | lia].
Qed.

Lemma adds_load_model_body (w : World) (model_name : string)
  (use_gpu : bool) :
  adds (load_model_body w model_name use_gpu) 1 1.
Proof.
  unfold load_model_body.
  apply (adds_bind _ _ 1 0 0 1);
    [apply adds_ensure_model_available|].
  intros [[success model_path] csv_path].
  destruct success; simpl;
    [|apply (adds_weaken _ 0 0); [apply adds_ret | lia | lia]].
  apply (adds_bind _ _ 0 1 0 0); [apply adds_session_with_fallback|].
  intros sess.
  apply (adds_bind _ _ 0 0 0 0); [auto with adds | intros first_input].
  apply (adds_bind _ _ 0 0 0 0); [auto with adds | intros input_size].
  apply (adds_bind _ _ 0 0 0 0); [auto with adds | intros csv_found].
  destruct csv_found; simpl; [|auto with adds].
  apply (adds_bind _ _ 0 0 0 0); [auto with adds | intros content].
  apply (adds_bind _ _ 0 0 0 0); [auto with adds | intros rows].
  destruct rows as [|header rest]; [auto with adds|].
  apply (adds_bind _ _ 0 0 0 0); [|intros ?; auto with adds].
  intros st. simpl. lia.
Qed.

Lemma adds_load_model_once (w : World) (model_name : string)
  (use_gpu : bool) :
  adds (load_model_once w model_name use_gpu) 1 1.
Proof.
  unfold load_model_once.
  apply (adds_bind _ _ 0 0 1 1); [apply adds_gets | intros hit].
  destruct hit; [apply (adds_weaken _ 0 0); [apply adds_ret | lia | lia]|].
  apply (adds_try _ _ 1 1 0 0); [apply adds_load_model_body | apply adds_ret].
Qed.

(** ** Cache reuse *)

Lemma load_model_once_hit (w : World) (model_name : string) (use_gpu : bool)
  (st : state) :
  cache_hit (model_cache st) model_name = true ->
  load_model_once w model_name use_gpu st = (Ok true, st).
Proof.
  intros Hhit. unfold load_model_once, bind, gets, ret. now rewrite Hhit.
Qed.

Lemma load_many_hit (w : World) (model_name : string) (gpus : list bool)
  (st : state) :
  cache_hit (model_cache st) model_name = true ->
  load_many w model_name gpus st
  = (List.map (fun _ => Ok true) gpus, st).
Proof.
  intros Hhit. induction gpus as [|g gpus IH]; simpl; [reflexivity|].
  now rewrite load_model_once_hit, IH.
Qed.

(** C7: one call of [load_model_once] resolves the assets at most once
    and builds at most one session; once it has returned [True] for a
    model, every later call for the same model, with any [use_gpu],
    returns [True] and leaves the whole state as it was: no cache field is
    written, no file is touched and nothing is added to the log of outside
    calls, so no further asset resolution or session construction takes
    place. *)
Theorem C7_load_once_then_reuse
  (w : World) (model_name : string) (use_gpu : bool) (st st' : state) :
  load_model_once w model_name use_gpu st = (Ok true, st') ->
  (resolutions (trace st') <= resolutions (trace st) + 1)%nat
  /\ (sessions_built (trace st') <= sessions_built (trace st) + 1)%nat
  /\ forall gpus : list bool,
       load_many w model_name gpus st'
       = (List.map (fun _ => Ok true) gpus, st').
Proof.
  intros Hload.
  pose proof (adds_load_model_once w model_name use_gpu st) as Hadds.
  rewrite Hload in Hadds. simpl in Hadds. destruct Hadds as [Hr Hs].
  split; [exact Hr | split; [exact Hs|]].
  intros gpus. apply load_many_hit.
  destruct (load_model_once_spec w model_name use_gpu st)
    as [b [st1 [Heq [_ [Htrue _]]]]].
  rewrite Hload in Heq. injection Heq as <- <-. now apply Htrue.
Qed.

Lemma C7_witness :
  load_model_once Fixture.world Fixture.vit false Fixture.installed
  = (Ok true, Fixture.loaded)
  /\ load_many Fixture.world Fixture.vit [true; false; true] Fixture.loaded
     = ([Ok true; Ok true; Ok true], Fixture.loaded)
  /\ resolutions (trace Fixture.loaded) = 1%nat
  /\ sessions_built (trace Fixture.loaded) = 1%nat.
Proof.
  assert (H : load_model_once Fixture.world Fixture.vit false
                Fixture.installed = (Ok true, Fixture.loaded))
    by (vm_compute; reflexivity).
  split; [exact H|].
  split; [|split; vm_compute; reflexivity].
  exact (proj2 (proj2 (C7_load_once_then_reuse Fixture.world Fixture.vit
                         false Fixture.installed Fixture.loaded H))
           [true; false; true]).
Defined.

(** C9: when the cache already names the requested model and holds a
    session, [load_model_once] returns [True] for either value of
    [use_gpu] and changes nothing; in particular the cached session, with
    the providers it was built with, stays in place. *)
Theorem C9_hit_ignores_use_gpu
  (w : World) (model_name : string) (sess : Session.t) (use_gpu : bool)
  (st : state) :
  Cache.model_name (model_cache st) = Some model_name ->
  Cache.session (model_cache st) = Some sess ->
  load_model_once w model_name use_gpu st = (Ok true, st)
  /\ Cache.session
       (model_cache (snd (load_model_once w model_name use_gpu st)))
     = Some sess.
Proof.
  intros Hname Hsess.
  assert (Hhit : cache_hit (model_cache st) model_name = true).
  { unfold cache_hit. rewrite Hname, Hsess. apply String.eqb_refl. }
  rewrite (load_model_once_hit w model_name use_gpu st Hhit).
  split; [reflexivity | exact Hsess].
Qed.

Lemma C9_witness :
  load_model_once Fixture.world Fixture.vit true Fixture.loaded
  = (Ok true, Fixture.loaded)
  /\ Cache.session
       (model_cache
          (snd (load_model_once Fixture.world Fixture.vit true
                  Fixture.loaded)))
     = Some Fixture.cpu_session.
Proof.
  apply (C9_hit_ignores_use_gpu Fixture.world Fixture.vit
           Fixture.cpu_session true Fixture.loaded);
    vm_compute; reflexivity.
Defined.

(** ** One call of [tag_batch] *)

Lemma tag_with_cache_frame (w : World) (image : option NdArray.t)
  (filename folder_path : string) (threshold : spec_float)
  (replace_underscore : bool) (prepend_tags exclude_tags : string) :
  frame_cache
    (tag_with_cache w image filename folder_path threshold
       replace_underscore prepend_tags exclude_tags).
Proof. unfold tag_with_cache. frame. Qed.

(** When every stage succeeds the call returns the composed string. *)
Lemma tag_with_cache_tagged (w : World) (a : NdArray.t)
  (filename folder_path : string) (threshold : spec_float)
  (replace_underscore : bool) (prepend_tags exclude_tags : string)
  (st : state) (sess : Session.t) (tags : list string)
  (input_name : string) (inp : tensor) (probs : list spec_float) :
  Cache.session (model_cache st) = Some sess ->
  Cache.tags (model_cache st) = Some tags ->
  Cache.input_name (model_cache st) = Some input_name ->
  image_is_empty (Some a) = false ->
  preprocess w (Cache.input_size (model_cache st)) a = Some (Some inp) ->
  session_run w sess input_name inp = Some probs ->
  fst (tag_with_cache w (Some a) filename folder_path threshold
         replace_underscore prepend_tags exclude_tags st)
  = Ok (Tagged (compose_tags tags probs threshold exclude_tags
                  replace_underscore prepend_tags)).
Proof.
  intros Hs Ht Hn He Hp Hr.
  unfold tag_with_cache, bind, gets, of_option, ret, run_session.
  rewrite Ht, He, Hp, Hs, Hn. simpl. rewrite Hr.
  unfold try_except, write_text, modify.
  destruct (PyStr.truthy folder_path); simpl; [|reflexivity].
  match goal with
  | |- context [if ?b then _ else _] => destruct b
  end; reflexivity.
Qed.

(** Conversely, a tagged outcome needs every stage to have succeeded. *)
Lemma tag_with_cache_inv (w : World) (image : option NdArray.t)
  (filename folder_path : string) (threshold : spec_float)
  (replace_underscore : bool) (prepend_tags exclude_tags : string)
  (st : state) (s : string) :
  fst (tag_with_cache w image filename folder_path threshold
         replace_underscore prepend_tags exclude_tags st)
  = Ok (Tagged s) ->
  exists a sess tags input_name inp probs,
    image = Some a /\ image_is_empty image = false
    /\ Cache.session (model_cache st) = Some sess
    /\ Cache.tags (model_cache st) = Some tags
    /\ Cache.input_name (model_cache st) = Some input_name
    /\ preprocess w (Cache.input_size (model_cache st)) a = Some (Some inp)
    /\ session_run w sess input_name inp = Some probs
    /\ s = compose_tags tags probs threshold exclude_tags
             replace_underscore prepend_tags.
Proof.
  unfold tag_with_cache, bind, gets, of_option, ret, raise, run_session.
  destruct (Cache.tags (model_cache st)) as [tags|] eqn:Ht;
    simpl; [|discriminate].
  destruct image as [a|]; [|discriminate].
  destruct (image_is_empty (Some a)) eqn:He; [discriminate|].
  destruct (preprocess w (Cache.input_size (model_cache st)) a)
    as [[inp|]|] eqn:Hp; simpl; try discriminate.
  destruct (Cache.session (model_cache st)) as [sess|] eqn:Hs;
    simpl; [|discriminate].
  destruct (Cache.input_name (model_cache st)) as [input_name|] eqn:Hn;
    simpl; [|discriminate].
  destruct (session_run w sess input_name inp) as [probs|] eqn:Hr;
    simpl; [|discriminate].
  intros H. exists a, sess, tags, input_name, inp, probs.
  repeat split; try assumption; try reflexivity.
  unfold try_except, write_text, modify in H.
  destruct (PyStr.truthy folder_path); simpl in H.
  - match type of H with
    | context [if ?b then _ else _] => destruct b
    end; simpl in H; now injection H as <-.
  - now injection H as <-.
Qed.

(** The outcome of a call, split at the load. *)
Lemma tag_batch_outcome_split (w : World) (image : option NdArray.t)
  (filename folder_path model : string)
  (threshold character_threshold : spec_float)
  (replace_underscore use_gpu : bool) (prepend_tags exclude_tags : string)
  (st : state) :
  exists b st1,
    load_model_once w (model_name_of model) use_gpu st = (Ok b, st1)
    /\ tag_batch_body w image filename folder_path model threshold
         character_threshold replace_underscore use_gpu prepend_tags
         exclude_tags st
       = (if negb b then ret (Failed LoadFailed)
          else tag_with_cache w image filename folder_path threshold
                 replace_underscore prepend_tags exclude_tags) st1.
Proof.
  destruct (load_model_once_spec w (model_name_of model) use_gpu st)
    as [b [st1 [Heq _]]].
  exists b, st1. split; [exact Heq|].
  unfold tag_batch_body, bind. now rewrite Heq.
Qed.

(** C2, as the code has it: a failed call (load failure, empty image,
    invalid resize dimensions or any exception) returns the empty string
    and never raises; nothing after [load_model_once] writes the cache, so
    the call leaves the cache exactly as [load_model_once] left it:
    untouched when the load failed or the model was already cached, filled
    with the requested model when this call loaded it.  A tagged outcome
    needs every stage to succeed, and after a successful load later calls
    for the same model find it cached. *)
Theorem C2_failure_isolation
  (w : World) (image : option NdArray.t)
  (filename folder_path model : string)
  (threshold character_threshold : spec_float)
  (replace_underscore use_gpu : bool) (prepend_tags exclude_tags : string)
  (st : state) :
  let call :=
    tag_batch_outcome w image filename folder_path model threshold
      character_threshold replace_underscore use_gpu prepend_tags
      exclude_tags st in
  let model_name := model_name_of model in
  let load := load_model_once w model_name use_gpu st in
  (forall why, fst call = Failed why ->
     fst (tag_batch w image filename folder_path model threshold
            character_threshold replace_underscore use_gpu prepend_tags
            exclude_tags st) = EmptyString)
  /\ model_cache (snd call) = model_cache (snd load)
  /\ (fst load = Ok false ->
      fst call = Failed LoadFailed
      /\ model_cache (snd call) = model_cache st)
  /\ (cache_hit (model_cache st) model_name = true ->
      model_cache (snd call) = model_cache st)
  /\ (forall s, fst call = Tagged s ->
      exists a sess tags input_name inp probs,
        image = Some a /\ image_is_empty image = false
        /\ Cache.session (model_cache (snd load)) = Some sess
        /\ Cache.tags (model_cache (snd load)) = Some tags
        /\ Cache.input_name (model_cache (snd load)) = Some input_name
        /\ preprocess w (Cache.input_size (model_cache (snd load))) a
           = Some (Some inp)
        /\ session_run w sess input_name inp = Some probs
        /\ s = compose_tags tags probs threshold exclude_tags
                 replace_underscore prepend_tags)
  /\ (fst load = Ok true ->
      forall use_gpu',
        load_model_once w model_name use_gpu' (snd call)
        = (Ok true, snd call)).
Proof.
  intros call model_name load.
  destruct (tag_batch_outcome_split w image filename folder_path model
              threshold character_threshold replace_underscore use_gpu
              prepend_tags exclude_tags st) as [b [st1 [Hload Hbody]]].
  destruct (load_model_once_spec w model_name use_gpu st)
    as [b' [st1' [Hload' [Hhit [Htrue Hfalse]]]]].
  fold model_name in Hload. rewrite Hload in Hload'.
  injection Hload' as <- <-.
  assert (Hcache : model_cache (snd call) = model_cache st1).
  { subst call. unfold tag_batch_outcome. rewrite Hbody.
    destruct b; simpl.
    - pose proof (tag_with_cache_frame w image filename folder_path
                    threshold replace_underscore prepend_tags exclude_tags
                    (model_cache st1) st1 eq_refl) as Hf.
      unfold keeps in Hf.
      destruct (tag_with_cache w image filename folder_path threshold
                  replace_underscore prepend_tags exclude_tags st1)
        as [[o|] st2]; exact Hf.
    - reflexivity. }
  subst load. rewrite Hload. simpl.
  split; [|split; [|split; [|split; [|split]]]].
  - intros why Hwhy. unfold tag_batch. fold call.
    destruct call as [o st2]. simpl in Hwhy. now subst o.
  - exact Hcache.
  - intros Hb. injection Hb as ->. split.
    + subst call. unfold tag_batch_outcome. now rewrite Hbody.
    + rewrite Hcache. now apply Hfalse.
  - intros Hh. destruct (Hhit Hh) as [_ ->]. exact Hcache.
  - intros s Hs. subst call. unfold tag_batch_outcome in Hs.
    rewrite Hbody in Hs. destruct b; simpl in Hs; [|discriminate].
    apply (tag_with_cache_inv w image filename folder_path threshold
             replace_underscore prepend_tags exclude_tags st1 s).
    destruct (tag_with_cache w image filename folder_path threshold
                replace_underscore prepend_tags exclude_tags st1)
      as [[o|] st2]; simpl in *; [now subst o | discriminate].
  - intros Hb use_gpu'. injection Hb as ->.
    apply load_model_once_hit. rewrite Hcache. now apply Htrue.
Qed.

(** C2 as stated fails when the failing call is the one that loads the
    model: the first image of a batch has no rows, the call returns the
    empty string, and the cache went from empty to holding the model. *)
Lemma C2_counterexample_cache_filled_on_failure :
  fst (tag_batch_outcome Fixture.world (Some Fixture.no_rows) "a.png" ""
         Fixture.vit (Fixture.frac 35 100) (Fixture.frac 85 100)
         true false "" "" Fixture.installed)
  = Failed EmptyImage
  /\ fst (tag_batch Fixture.world (Some Fixture.no_rows) "a.png" ""
            Fixture.vit (Fixture.frac 35 100) (Fixture.frac 85 100)
            true false "" "" Fixture.installed)
     = EmptyString
  /\ Cache.model_name (model_cache Fixture.installed) = None
  /\ Cache.session (model_cache Fixture.installed) = None
  /\ Cache.model_name
       (model_cache
          (snd (tag_batch Fixture.world (Some Fixture.no_rows) "a.png" ""
                  Fixture.vit (Fixture.frac 35 100) (Fixture.frac 85 100)
                  true false "" "" Fixture.installed)))
     = Some Fixture.vit
  /\ Cache.session
       (model_cache
          (snd (tag_batch Fixture.world (Some Fixture.no_rows) "a.png" ""
                  Fixture.vit (Fixture.frac 35 100) (Fixture.frac 85 100)
                  true false "" "" Fixture.installed)))
     = Some Fixture.cpu_session.
Proof. vm_compute. repeat split. Qed.

(** ** Labels and probabilities of different lengths *)

Lemma combine_firstn_min {A B : Type} (l : list A) (l' : list B) :
  List.combine l l'
  = List.combine (List.firstn (Nat.min (length l) (length l')) l)
      (List.firstn (Nat.min (length l) (length l')) l').
Proof.
  revert l'. induction l as [|x l IH]; intros [|y l']; simpl;
    try reflexivity. now rewrite <- IH.
Qed.

Lemma compose_tags_pairs (tags : list string) (probs : list spec_float)
  (threshold : spec_float) (exclude_tags : string)
  (replace_underscore : bool) (prepend_tags : string) :
  compose_tags tags probs threshold exclude_tags replace_underscore
    prepend_tags
  = build_output prepend_tags
      (List.flat_map
         (fun pair =>
            contribution threshold (parse_exclude exclude_tags)
              (process_tag replace_underscore (fst pair), snd pair))
         (List.combine tags probs)).
Proof.
  unfold compose_tags.
  now rewrite filter_tags_flat_map, process_tags_map, flat_map_combine_map.
Qed.

Lemma compose_tags_truncate (tags : list string) (probs : list spec_float)
  (threshold : spec_float) (exclude_tags : string)
  (replace_underscore : bool) (prepend_tags : string) :
  compose_tags tags probs threshold exclude_tags replace_underscore
    prepend_tags
  = compose_tags
      (List.firstn (Nat.min (length tags) (length probs)) tags)
      (List.firstn (Nat.min (length tags) (length probs)) probs)
      threshold exclude_tags replace_underscore prepend_tags.
Proof.
  rewrite !compose_tags_pairs. now rewrite <- combine_firstn_min.
Qed.

(** C10: when the cached label list and the probability vector differ in
    length the call still returns its tag string, and that string is the
    one computed from the first [min N M] labels and the first [min N M]
    probabilities, paired by index; what is left of the longer sequence is
    not looked at.  Rows of the label file with fewer than two columns add
    no label, which is one way the lengths come apart. *)
Theorem C10_mismatched_lengths_truncate
  (w : World) (a : NdArray.t) (filename folder_path : string)
  (threshold : spec_float) (replace_underscore : bool)
  (prepend_tags exclude_tags : string) (st : state) (sess : Session.t)
  (tags : list string) (input_name : string) (inp : tensor)
  (probs : list spec_float) :
  Cache.session (model_cache st) = Some sess ->
  Cache.tags (model_cache st) = Some tags ->
  Cache.input_name (model_cache st) = Some input_name ->
  image_is_empty (Some a) = false ->
  preprocess w (Cache.input_size (model_cache st)) a = Some (Some inp) ->
  session_run w sess input_name inp = Some probs ->
  let k := Nat.min (length tags) (length probs) in
  fst (tag_with_cache w (Some a) filename folder_path threshold
         replace_underscore prepend_tags exclude_tags st)
  = Ok (Tagged (compose_tags (List.firstn k tags) (List.firstn k probs)
                  threshold exclude_tags replace_underscore prepend_tags))
  /\ length (List.combine (process_tags replace_underscore tags) probs) = k
  /\ (forall (rows : list (list string)) (row : list string),
        (length row < 2)%nat -> read_tags (row :: rows) = read_tags rows)
  /\ (forall (rows : list (list string)) (row : list string) (tag : string),
        row !! 1%nat = Some tag ->
        read_tags (row :: rows) = tag :: read_tags rows).
Proof.
  intros Hs Ht Hn He Hp Hr k.
  split; [|split; [|split]].
  - rewrite (tag_with_cache_tagged w a filename folder_path threshold
               replace_underscore prepend_tags exclude_tags st sess tags
               input_name inp probs Hs Ht Hn He Hp Hr).
    subst k. now rewrite <- compose_tags_truncate.
  - rewrite List.length_combine, process_tags_map, List.length_map.
    reflexivity.
  - intros rows row Hlen. simpl.
    destruct (Nat.ltb_spec 1 (length row)) as [H|H]; [lia | reflexivity].
  - intros rows row tag Htag. simpl. rewrite Htag.
    destruct (Nat.ltb_spec 1 (length row)) as [H|H]; [reflexivity|].
    apply lookup_lt_Some in Htag. lia.
Qed.

Lemma C10_witness :
  fst (tag_with_cache Fixture.world (Some Fixture.grey) "a.png" "/out"
         (Fixture.frac 35 100) true "" "" Fixture.loaded)
  = Ok (Tagged "Cat, tail")
  /\ length
       (List.combine (process_tags true ["Cat"; "blue_sky"; "tail"])
          [Fixture.f32 9 10; Fixture.f32 35 100; Fixture.f32 1 2;
           Fixture.f32 99 100])
     = 3%nat.
Proof.
  pose proof
    (C10_mismatched_lengths_truncate Fixture.world Fixture.grey "a.png"
       "/out" (Fixture.frac 35 100) true "" "" Fixture.loaded
       Fixture.cpu_session ["Cat"; "blue_sky"; "tail"] "input"
       Fixture.grey_input
       [Fixture.f32 9 10; Fixture.f32 35 100; Fixture.f32 1 2;
        Fixture.f32 99 100]
       eq_refl eq_refl eq_refl eq_refl eq_refl eq_refl) as H.
  destruct H as [H1 [H2 _]]. split; [exact H1 | exact H2].
Defined.

(** ** Preprocessing *)

Lemma lookup_map {A B : Type} (f : A -> B) (l : list A) (i : nat) :
  List.map f l !! i = option_map f (l !! i).
Proof.
  revert i. induction l as [|x l IH]; intros [|i]; simpl;
    try reflexivity. apply IH.
Qed.

Lemma lookup_seqZ_index (n x : Z) :
  (0 <= x < n)%Z -> seqZ 0 n !! Z.to_nat x = Some x.
Proof.
  intros Hx. rewrite lookup_seqZ_lt by lia. f_equal. lia.
Qed.

(** The square handed to [np.array] shows the letterbox of the
    specification at every position. *)
Lemma letterbox_getpixel (w : World) (img : PIL.t) (edge : Z)
  (new_size : Z * Z) (x y : Z) :
  PIL.getpixel
    (paste (Image_new (edge, edge) (255, 255, 255)%Z)
       (resize w img new_size) (paste_pos edge new_size)) x y
  = letterbox_spec w img edge new_size x y.
Proof. reflexivity. Qed.

Lemma to_model_input_at (square : PIL.t) (x y : Z) (c : nat) :
  (0 <= x < PIL.width square)%Z -> (0 <= y < PIL.height square)%Z ->
  tensor_at (to_model_input square) 0 (Z.to_nat y) (Z.to_nat x) c
  = option_map astype_float32 (bgr_channel (PIL.getpixel square x y) c).
Proof.
  intros Hx Hy. unfold tensor_at, to_model_input, np_array. simpl.
  rewrite !lookup_map, (lookup_seqZ_index _ y Hy). simpl.
  rewrite !lookup_map, (lookup_seqZ_index _ x Hx). simpl.
  destruct (PIL.getpixel square x y) as [[r g] b]. simpl.
  destruct c as [|[|[|c]]]; reflexivity.
Qed.

Lemma to_model_input_shape (square : PIL.t) :
  exists plane,
    to_model_input square = [plane]
    /\ length plane = Z.to_nat (PIL.height square)
    /\ List.Forall
         (fun row =>
            length row = Z.to_nat (PIL.width square)
            /\ List.Forall (fun px => length px = 3%nat) row)
         plane.
Proof.
  unfold to_model_input, np_array. eexists. split; [reflexivity|]. split.
  - now rewrite !List.length_map, length_seqZ.
  - rewrite List.Forall_map, List.Forall_map. apply List.Forall_forall.
    intros y _. split.
    + now rewrite !List.length_map, length_seqZ.
    + rewrite List.Forall_map, List.Forall_map. apply List.Forall_forall.
      intros x _. now destruct (PIL.getpixel square x y) as [[r g] b].
Qed.

(** Casting a byte to float32 changes nothing: the float is that
    integer. *)
Lemma astype_float32_exact (v : Z) :
  (0 <= v <= 255)%Z -> int_value (astype_float32 v) = Some v.
Proof.
  intros Hv.
  assert (Hall : List.forallb
                   (fun u => match int_value (astype_float32 u) with
                             | Some u' => (u' =? u)%Z
                             | None => false
                             end) (seqZ 0 256) = true)
    by (vm_compute; reflexivity).
  rewrite List.forallb_forall in Hall.
  assert (Hin : List.In v (seqZ 0 256)).
  { apply list_elem_of_In, elem_of_seqZ. lia. }
  specialize (Hall v Hin).
  destruct (int_value (astype_float32 v)) as [u|]; [|discriminate].
  apply Z.eqb_eq in Hall. now subst.
Qed.

Lemma scaled_size_inv (img : PIL.t) (ratio : spec_float) (new_w new_h : Z) :
  scaled_size img ratio = Some (new_w, new_h) ->
  exists fw fh,
    PyFloat.mul_int_float (PIL.width img) ratio = Some fw
    /\ PyFloat.to_int fw = Some new_w
    /\ PyFloat.mul_int_float (PIL.height img) ratio = Some fh
    /\ PyFloat.to_int fh = Some new_h.
Proof.
  unfold scaled_size.
  destruct (PyFloat.mul_int_float (PIL.width img) ratio) as [fw|];
    [|discriminate].
  destruct (PyFloat.to_int fw) as [nw|] eqn:Hw; [|discriminate].
  destruct (PyFloat.mul_int_float (PIL.height img) ratio) as [fh|];
    [|discriminate].
  destruct (PyFloat.to_int fh) as [nh|] eqn:Hh; [|discriminate].
  intros H. injection H as <- <-. exists fw, fh. now repeat split.
Qed.

(** C6: for a non-empty array of width [W] and height [H] and an edge
    [E], one ratio [E / max(W, H)] scales both sides (in binary64, each
    product truncated by [int]); a target side [<= 0] makes the call return
    the empty-string failure; otherwise the tensor has shape
    [(1, E, E, 3)] and its entry at row [y], column [x], channel [c] is the
    float32 cast of channel [c], in blue-green-red order, of the resized
    image pasted at [((E - w') // 2, (E - h') // 2)] on a white canvas.
    The cast maps each byte to the float equal to it. *)
Theorem C6_preprocessing
  (w : World) (a : NdArray.t) (edge : Z) (ratio : spec_float)
  (new_w new_h : Z) :
  image_is_empty (Some a) = false ->
  resize_ratio edge (fromarray a) = Some ratio ->
  scaled_size (fromarray a) ratio = Some (new_w, new_h) ->
  PyFloat.truediv_int edge (Z.max (NdArray.shape1 a) (NdArray.shape0 a))
  = Some ratio
  /\ (exists fw fh,
        PyFloat.mul_int_float (NdArray.shape1 a) ratio = Some fw
        /\ PyFloat.to_int fw = Some new_w
        /\ PyFloat.mul_int_float (NdArray.shape0 a) ratio = Some fh
        /\ PyFloat.to_int fh = Some new_h)
  /\ ((new_w <= 0 \/ new_h <= 0)%Z ->
      preprocess w (DimInt edge) a = Some None
      /\ forall filename folder_path threshold replace_underscore
                prepend_tags exclude_tags st tags,
           Cache.tags (model_cache st) = Some tags ->
           Cache.input_size (model_cache st) = DimInt edge ->
           tag_with_cache w (Some a) filename folder_path threshold
             replace_underscore prepend_tags exclude_tags st
           = (Ok (Failed InvalidResize), st))
  /\ ((0 < new_w)%Z -> (0 < new_h)%Z ->
      exists plane,
        preprocess w (DimInt edge) a = Some (Some [plane])
        /\ length plane = Z.to_nat edge
        /\ List.Forall
             (fun row =>
                length row = Z.to_nat edge
                /\ List.Forall (fun px => length px = 3%nat) row)
             plane
        /\ forall (x y : Z) (c : nat),
             (0 <= x < edge)%Z -> (0 <= y < edge)%Z ->
             tensor_at [plane] 0 (Z.to_nat y) (Z.to_nat x) c
             = option_map astype_float32
                 (bgr_channel
                    (letterbox_spec w (fromarray a) edge (new_w, new_h) x y)
                    c))
  /\ (forall v, (0 <= v <= 255)%Z -> int_value (astype_float32 v) = Some v).
Proof.
  intros Hne Hratio Hsize.
  split; [exact Hratio|].
  split; [exact (scaled_size_inv _ _ _ _ Hsize)|].
  split; [|split; [|exact astype_float32_exact]].
  - intros Hbad.
    assert (Hinv : invalid_size (new_w, new_h) = true).
    { unfold invalid_size. simpl. apply orb_true_iff.
      destruct Hbad as [H|H]; [left | right]; now apply Z.leb_le. }
    assert (Hpre : preprocess w (DimInt edge) a = Some None).
    { unfold preprocess. now rewrite Hratio, Hsize, Hinv. }
    split; [exact Hpre|].
    intros filename folder_path threshold replace_underscore prepend_tags
      exclude_tags st tags Htags Hedge.
    unfold tag_with_cache, bind, gets, of_option, ret.
    now rewrite Htags, Hne, Hedge, Hpre.
  - intros Hw Hh.
    assert (Hinv : invalid_size (new_w, new_h) = false).
    { unfold invalid_size. simpl. apply orb_false_iff.
      split; apply Z.leb_gt; assumption. }
    set (square := paste (Image_new (edge, edge) (255, 255, 255)%Z)
                     (resize w (fromarray a) (new_w, new_h))
                     (paste_pos edge (new_w, new_h))).
    destruct (to_model_input_shape square) as [plane [Hin [Hlen Hrows]]].
    exists plane. split; [|split; [exact Hlen | split; [exact Hrows|]]].
    + unfold preprocess. rewrite Hratio, Hsize, Hinv. fold square.
      now rewrite Hin.
    + intros x y c Hx Hy. rewrite <- Hin.
      rewrite (to_model_input_at square x y c Hx Hy).
      reflexivity.
Qed.

Lemma C6_witness :
  preprocess Fixture.world (DimInt 8) Fixture.grey
  = Some (Some Fixture.grey_input)
  /\ tensor_at Fixture.grey_input 0 0 0 0 = Some (astype_float32 255)
  /\ tensor_at Fixture.grey_input 0 2 0 0 = Some (astype_float32 128)
  /\ int_value (astype_float32 128) = Some 128%Z.
Proof.
  destruct (C6_preprocessing Fixture.world Fixture.grey 8 (Fixture.b64 2)
              8 4 eq_refl eq_refl eq_refl)
    as [_ [_ [_ [Hok Hcast]]]].
  destruct (Hok ltac:(lia) ltac:(lia)) as [plane [Hpre [_ [_ Hat]]]].
  assert (Hc : preprocess Fixture.world (DimInt 8) Fixture.grey
               = Some (Some Fixture.grey_input))
    by (vm_compute; reflexivity).
  assert (Hplane : [plane] = Fixture.grey_input)
    by congruence.
  split; [exact Hc|].
  rewrite <- Hplane.
  split; [exact (Hat 0%Z 0%Z 0%nat ltac:(lia) ltac:(lia))|].
  split; [exact (Hat 0%Z 2%Z 0%nat ltac:(lia) ltac:(lia))|].
  apply Hcast. lia.
Defined.

(** A 1920 x 1080 frame for a 448 model: scaled to 448 x 252 and pasted
    98 rows down. *)
Example scaled_size_full_hd :
  let img := {| PIL.width := 1920; PIL.height := 1080;
                PIL.getpixel := fun _ _ => (0, 0, 0)%Z |} in
  exists ratio,
    resize_ratio 448 img = Some ratio
    /\ scaled_size img ratio = Some (448, 252)%Z
    /\ paste_pos 448 (448, 252)%Z = (0, 98)%Z.
Proof.
  intros img. eexists. split; [reflexivity|].
  split; vm_compute; reflexivity.
Qed.

(** A 1 x 1000 strip for the same model: the width truncates to zero and
    the image is refused. *)
Example scaled_size_thin_strip :
  let a := {| NdArray.shape0 := 1000; NdArray.shape1 := 1;
              NdArray.item := fun _ _ => (0, 0, 0)%Z |} in
  preprocess Fixture.world (DimInt 448) a = Some None.
Proof. vm_compute. reflexivity. Qed.

(** ** Asset resolution *)

(** C1, at the input where the code departs from it: the hub call
    returns normally but the file is not under [local_dir/filename], the
    rename is skipped, and the call reports success for a registered model
    while neither canonical file exists. *)
Theorem C1_success_reported_without_files :
  is_Some (MODEL_CONFIGS !! Fixture.vit)
  /\ fst (ensure_model_available Fixture.misplacing_world Fixture.vit
            Fixture.fresh)
     = Ok (true, "/nodes/models/wd-vit-tagger-v3.onnx",
                 "/nodes/models/wd-vit-tagger-v3.csv")
  /\ file_exists
       (files (snd (ensure_model_available Fixture.misplacing_world
                      Fixture.vit Fixture.fresh)))
       "/nodes/models/wd-vit-tagger-v3.onnx" = false
  /\ file_exists
       (files (snd (ensure_model_available Fixture.misplacing_world
                      Fixture.vit Fixture.fresh)))
       "/nodes/models/wd-vit-tagger-v3.csv" = false.
Proof.
  split; [vm_compute; eauto|].
  vm_compute. repeat split.
Qed.

(** The part of C1 the code does keep: a transfer that raises makes the
    call return [(False, "", "")], for the model file and for the label
    file alike. *)
Lemma model_transfer_failure (w : World) (model_name : string)
  (config : Config.t) (st : state) :
  let model_dir := Pathlib.joinpath (module_dir w) "models" in
  MODEL_CONFIGS !! model_name = Some config ->
  file_exists (files st)
    (Pathlib.joinpath model_dir (model_name ++ ".onnx")) = false ->
  hf_hub_download w (Config.repo_id config) (Config.filename config)
    model_dir (files st) = None ->
  fst (ensure_model_available w model_name st) = Ok (false, "", "").
Proof.
  intros model_dir Hcfg Hmissing Hfail.
  unfold ensure_model_available. rewrite Hcfg. fold model_dir.
  unfold bind, mkdir, modify, path_exists, gets, try_except, ret. simpl.
  rewrite Hmissing. simpl.
  unfold download_missing, bind, path_exists, gets, hub_download. simpl.
  rewrite Hmissing. simpl. now rewrite Hfail.
Qed.

Lemma label_transfer_failure (w : World) (model_name : string)
  (config : Config.t) (st : state) :
  let model_dir := Pathlib.joinpath (module_dir w) "models" in
  MODEL_CONFIGS !! model_name = Some config ->
  file_exists (files st)
    (Pathlib.joinpath model_dir (model_name ++ ".onnx")) = true ->
  file_exists (files st)
    (Pathlib.joinpath model_dir (model_name ++ ".csv")) = false ->
  hf_hub_download w (Config.repo_id config) (Config.csv_filename config)
    model_dir (files st) = None ->
  fst (ensure_model_available w model_name st) = Ok (false, "", "").
Proof.
  intros model_dir Hcfg Hmodel Hmissing Hfail.
  unfold ensure_model_available. rewrite Hcfg. fold model_dir.
  unfold bind, mkdir, modify, path_exists, gets, try_except, ret. simpl.
  rewrite Hmodel, Hmissing. simpl.
  unfold download_missing, bind, path_exists, gets, hub_download, ret. simpl.
  rewrite Hmodel. simpl. rewrite Hmissing. simpl. now rewrite Hfail.
Qed.

Example offline_resolution_fails :
  fst (ensure_model_available Fixture.offline_world Fixture.vit
         Fixture.fresh)
  = Ok (false, "", "").
Proof.
  eapply (model_transfer_failure Fixture.offline_world Fixture.vit);
    [vm_compute; reflexivity | reflexivity | reflexivity].
Qed.

(** With a hub client that keeps its contract the claim holds: success
    is reported only with both files in place. *)
(** What [pathlib] makes of a folder path before a name is joined to
    it. *)
Example joinpath_normalizes :
  Pathlib.joinpath "/out" "a.txt" = "/out/a.txt"
  /\ Pathlib.joinpath "/out/" "a.txt" = "/out/a.txt"
  /\ Pathlib.joinpath "/out//./" "a.txt" = "/out/a.txt"
  /\ Pathlib.joinpath "out/sub" "a.txt" = "out/sub/a.txt"
  /\ Pathlib.joinpath "." "a.txt" = "a.txt"
  /\ Pathlib.joinpath "/" "a.txt" = "/a.txt"
  /\ Pathlib.joinpath "//" "a.txt" = "//a.txt"
  /\ Pathlib.joinpath "///srv" "a.txt" = "/srv/a.txt"
  /\ Pathlib.joinpath "a/.." "b.txt" = "a/../b.txt"
  /\ Pathlib.joinpath "out" "/abs//q/" = "/abs/q"
  /\ Pathlib.normalize "" = ".".
Proof. repeat split. Qed.

Lemma string_app_inv_head (s a b : string) : s ++ a = s ++ b -> a = b.
Proof.
  induction s as [|c s IH]; intros H; [exact H|].
  rewrite !string_app_cons in H. injection H as H. now apply IH.
Qed.

Lemma join_snoc (sep : string) (ps : list string) (b : string) :
  PyStr.join sep (ps ++ [b])
  = match ps with
    | [] => b
    | _ => PyStr.join sep ps ++ sep ++ b
    end.
Proof.
  induction ps as [|x ps IH]; [reflexivity|].
  destruct ps as [|y ps]; [reflexivity|].
  change (x ++ sep ++ PyStr.join sep ((y :: ps) ++ [b])
          = (x ++ sep ++ PyStr.join sep (y :: ps)) ++ sep ++ b).
  now rewrite IH, !string_app_assoc.
Qed.

Lemma component_parts (b : string) :
  Pathlib.is_component b = true ->
  Pathlib.root b = EmptyString /\ Pathlib.parts b = [b].
Proof.
  unfold Pathlib.is_component. rewrite !andb_true_iff, !negb_true_iff.
  intros [[He Hd] Hs]. split.
  - destruct b as [|c b]; [reflexivity|]. simpl in Hs.
    apply orb_false_iff in Hs as [Hc _].
    apply Ascii.eqb_neq in Hc. unfold Pathlib.root.
    destruct c as [[] [] [] [] [] [] [] []]; try reflexivity.
    now contradiction Hc.
  - unfold Pathlib.parts. rewrite (split_without_sep _ _ Hs). simpl.
    now rewrite He, Hd.
Qed.

(** Joining a single component appends it to the directory's prefix. *)
Lemma joinpath_component (a b : string) :
  Pathlib.is_component b = true ->
  Pathlib.joinpath a b = Pathlib.dir_prefix a ++ b.
Proof.
  intros Hb. destruct (component_parts b Hb) as [Hr Hp].
  unfold Pathlib.joinpath, Pathlib.dir_prefix, Pathlib.render.
  rewrite Hr, Hp. simpl. rewrite join_snoc.
  destruct (Pathlib.parts a) as [|x ps].
  - simpl. now destruct (Pathlib.root a).
  - destruct (Pathlib.root a); simpl;
      now rewrite ?string_app_assoc.
Qed.

Lemma joinpath_inj (d a b : string) :
  Pathlib.is_component a = true -> Pathlib.is_component b = true ->
  Pathlib.joinpath d a = Pathlib.joinpath d b -> a = b.
Proof.
  intros Ha Hb. rewrite (joinpath_component d a Ha).
  rewrite (joinpath_component d b Hb). apply string_app_inv_head.
Qed.

Lemma registered_config (model_name : string) (config : Config.t) :
  MODEL_CONFIGS !! model_name = Some config ->
  Config.filename config = "model.onnx"
  /\ Config.csv_filename config = "selected_tags.csv"
  /\ (model_name = "wd-vit-tagger-v3"
      \/ model_name = "wd-swinv2-tagger-v3"
      \/ model_name = "wd-eva02-large-tagger-v3"
      \/ model_name = "wd-convnext-tagger-v3").
Proof.
  intros H. unfold MODEL_CONFIGS, MODEL_CONFIGS_items in H.
  apply elem_of_list_to_map_2 in H.
  repeat (apply elem_of_cons in H as [H|H];
          [injection H as -> ->; simpl; auto 10|]).
  now apply elem_of_nil in H.
Qed.

Lemma download_missing_blocks (w : World) (config : Config.t)
  (model_dir model_path csv_path : string) :
  download_missing w config model_dir model_path csv_path
  = (fetch_as w (Config.repo_id config) (Config.filename config)
       model_dir model_path ;;
     fetch_as w (Config.repo_id config) (Config.csv_filename config)
       model_dir csv_path ;;
     ret (true, model_path, csv_path))%py.
Proof. reflexivity. Qed.

(** A block that returns leaves its target in place and touches no file
    other than the target and the download. *)
Lemma fetch_as_spec (w : World) (repo file local_dir target : string)
  (st : state) :
  hub_places_files w ->
  match fetch_as w repo file local_dir target st with
  | (Ok _, st') =>
      file_exists (files st') target = true
      /\ forall q, q <> target -> q <> Pathlib.joinpath local_dir file ->
                   files st' !! q = files st !! q
  | (Raised, _) => True
  end.
Proof.
  intros Hhub. unfold fetch_as, bind, path_exists, gets.
  destruct (file_exists (files st) target) eqn:Ht; simpl.
  - split; [exact Ht | reflexivity].
  - unfold hub_download.
    destruct (hf_hub_download w repo file local_dir (files st))
      as [fs1|] eqn:Hd; simpl; [|exact I].
    destruct (Hhub _ _ _ _ _ Hd) as [content ->].
    unfold file_exists at 1. rewrite lookup_insert_eq.
    unfold rename. simpl. rewrite lookup_insert_eq. simpl.
    split.
    + unfold file_exists. now rewrite lookup_insert_eq.
    + intros q Hq Hq'.
      rewrite lookup_insert_ne by congruence.
      rewrite lookup_delete_ne by congruence.
      now rewrite lookup_insert_ne by congruence.
Qed.

Lemma resolve_success_sound (w : World) (model_name : string)
  (st st' : state) (model_path csv_path : string) :
  hub_places_files w ->
  ensure_model_available w model_name st
  = (Ok (true, model_path, csv_path), st') ->
  file_exists (files st') model_path = true
  /\ file_exists (files st') csv_path = true.
Proof.
  intros Hhub. unfold ensure_model_available.
  destruct (MODEL_CONFIGS !! model_name) as [config|] eqn:Hcfg;
    [|discriminate].
  destruct (registered_config _ _ Hcfg) as [Hf [Hc Hname]].
  rewrite download_missing_blocks, Hf, Hc.
  set (dir := Pathlib.joinpath (module_dir w) "models").
  set (mpath := Pathlib.joinpath dir (model_name ++ ".onnx")).
  set (cpath := Pathlib.joinpath dir (model_name ++ ".csv")).
  assert (Hmc : mpath <> cpath).
  { intros E. unfold mpath, cpath in E.
    destruct Hname as [Hn|[Hn|[Hn|Hn]]]; rewrite Hn in E;
      apply joinpath_inj in E; try reflexivity; cbv in E; discriminate. }
  assert (Hdm : mpath <> Pathlib.joinpath dir "selected_tags.csv").
  { intros E. unfold mpath in E.
    destruct Hname as [Hn|[Hn|[Hn|Hn]]]; rewrite Hn in E;
      apply joinpath_inj in E; try reflexivity; cbv in E; discriminate. }
  unfold bind at 1 2 3. unfold mkdir, modify, path_exists, gets. simpl.
  destruct (file_exists (files st) mpath && file_exists (files st) cpath)
    eqn:Hboth.
  - unfold ret. intros H. injection H as <- <- <-. simpl.
    now apply andb_true_iff in Hboth.
  - unfold try_except, bind.
    pose proof (fetch_as_spec w (Config.repo_id config) "model.onnx" dir
                  mpath (log_event (EvMkdir dir) st) Hhub) as H1.
    destruct (fetch_as w (Config.repo_id config) "model.onnx" dir mpath
                (log_event (EvMkdir dir) st)) as [[[]|] st1];
      [|discriminate].
    destruct H1 as [Hm1 _].
    pose proof (fetch_as_spec w (Config.repo_id config)
                  "selected_tags.csv" dir cpath st1 Hhub) as H2.
    destruct (fetch_as w (Config.repo_id config) "selected_tags.csv" dir
                cpath st1) as [[[]|] st2]; [|discriminate].
    destruct H2 as [Hc2 Hkeep].
    unfold ret. intros H. injection H as <- <- <-.
    split; [|exact Hc2].
    unfold file_exists in *. now rewrite (Hkeep mpath Hmc Hdm).
Qed.

Example fixture_hub_keeps_contract : hub_places_files Fixture.world.
Proof.
  intros repo file local_dir fs fs' H. simpl in H.
  injection H as <-. eauto.
Qed.

(** ** A batch with one bad image *)

(** Three images, the second with no rows: the first and third are
    tagged, the second yields the empty string, and the model loaded by
    the first call is still cached at the end, having been resolved and
    built once. *)
Example batch_isolation :
  let requests :=
    [Fixture.request (Some Fixture.grey) "1.png";
     Fixture.request (Some Fixture.no_rows) "2.png";
     Fixture.request (Some Fixture.grey) "3.png"] in
  fst (run_batch Fixture.world requests Fixture.installed)
  = ["Cat, tail"; ""; "Cat, tail"]
  /\ model_cache (snd (run_batch Fixture.world requests Fixture.installed))
     = model_cache Fixture.loaded
  /\ resolutions
       (trace (snd (run_batch Fixture.world requests Fixture.installed)))
     = 1%nat
  /\ sessions_built
       (trace (snd (run_batch Fixture.world requests Fixture.installed)))
     = 1%nat.
Proof. vm_compute. repeat split. Qed.

(** * Further properties *)

(** ** Resolution *)

Lemma resolve_both_present (w : World) (model_name : string)
  (config : Config.t) (st : state) :
  MODEL_CONFIGS !! model_name = Some config ->
  file_exists (files st) (onnx_path w model_name) = true ->
  file_exists (files st) (labels_path w model_name) = true ->
  ensure_model_available w model_name st
  = (Ok (true, onnx_path w model_name, labels_path w model_name),
     log_event (EvMkdir (models_dir w)) st).
Proof.
  intros Hcfg Hm Hc. unfold ensure_model_available. rewrite Hcfg.
  fold (models_dir w). fold (onnx_path w model_name).
  fold (labels_path w model_name).
  unfold bind, mkdir, modify, path_exists, gets. simpl.
  now rewrite Hm, Hc.
Qed.

Lemma resolve_success_paths (w : World) (model_name : string)
  (st st' : state) (model_path csv_path : string) :
  ensure_model_available w model_name st
  = (Ok (true, model_path, csv_path), st') ->
  is_Some (MODEL_CONFIGS !! model_name)
  /\ model_path = onnx_path w model_name
  /\ csv_path = labels_path w model_name.
Proof.
  unfold ensure_model_available.
  destruct (MODEL_CONFIGS !! model_name) as [config|]; [|discriminate].
  fold (models_dir w). fold (onnx_path w model_name).
  fold (labels_path w model_name).
  unfold bind, mkdir, modify, path_exists, gets, try_except, ret. simpl.
  match goal with
  | |- context [if ?b then _ else _] => destruct b
  end.
  - intros H. inversion H. eauto.
  - rewrite download_missing_blocks. unfold bind, ret.
    destruct (fetch_as w (Config.repo_id config) (Config.filename config)
                (models_dir w) (onnx_path w model_name)
                (log_event (EvMkdir (models_dir w)) st)) as [[[]|] st1];
      [|discriminate].
    destruct (fetch_as w (Config.repo_id config)
                (Config.csv_filename config) (models_dir w)
                (labels_path w model_name) st1) as [[[]|] st2];
      [|discriminate].
    intros H. inversion H. eauto.
Qed.

(** X1: with a hub client that puts each download under
    [local_dir/filename], a successful resolution leaves both canonical
    files on disk, and from then on resolving the same model is a pure
    check: it succeeds in any world installed at the same place, also one
    whose hub is unreachable, and changes no file. *)
Theorem X1_resolution_is_sound_and_idempotent
  (w w' : World) (model_name : string) (st st' : state)
  (model_path csv_path : string) :
  hub_places_files w ->
  module_dir w' = module_dir w ->
  ensure_model_available w model_name st
  = (Ok (true, model_path, csv_path), st') ->
  file_exists (files st') model_path = true
  /\ file_exists (files st') csv_path = true
  /\ ensure_model_available w' model_name st'
     = (Ok (true, model_path, csv_path),
        log_event (EvMkdir (models_dir w)) st').
Proof.
  intros Hhub Hdir Hres.
  destruct (resolve_success_sound w model_name st st' model_path csv_path
              Hhub Hres) as [Hm Hc].
  destruct (resolve_success_paths w model_name st st' model_path csv_path
              Hres) as [[config Hcfg] [-> ->]].
  split; [exact Hm | split; [exact Hc|]].
  assert (Ho : onnx_path w' model_name = onnx_path w model_name)
    by (unfold onnx_path, models_dir; now rewrite Hdir).
  assert (Hl : labels_path w' model_name = labels_path w model_name)
    by (unfold labels_path, models_dir; now rewrite Hdir).
  assert (Hd : models_dir w' = models_dir w)
    by (unfold models_dir; now rewrite Hdir).
  rewrite <- Ho, <- Hl, <- Hd.
  apply (resolve_both_present w' model_name config st' Hcfg).
  - now rewrite Ho.
  - now rewrite Hl.
Qed.

Lemma X1_witness :
  file_exists
    (files (snd (ensure_model_available Fixture.world Fixture.vit
                   Fixture.fresh)))
    "/nodes/models/wd-vit-tagger-v3.onnx" = true
  /\ fst (ensure_model_available Fixture.offline_world Fixture.vit
            (snd (ensure_model_available Fixture.world Fixture.vit
                    Fixture.fresh)))
     = Ok (true, "/nodes/models/wd-vit-tagger-v3.onnx",
                 "/nodes/models/wd-vit-tagger-v3.csv").
Proof.
  destruct (X1_resolution_is_sound_and_idempotent Fixture.world
              Fixture.offline_world Fixture.vit Fixture.fresh
              (snd (ensure_model_available Fixture.world Fixture.vit
                      Fixture.fresh))
              "/nodes/models/wd-vit-tagger-v3.onnx"
              "/nodes/models/wd-vit-tagger-v3.csv"
              fixture_hub_keeps_contract eq_refl
              ltac:(vm_compute; reflexivity)) as [Hm [_ Hagain]].
  split; [exact Hm|]. now rewrite Hagain.
Defined.

Lemma registered_paths_differ (w : World) (model_name : string)
  (config : Config.t) :
  MODEL_CONFIGS !! model_name = Some config ->
  onnx_path w model_name <> labels_path w model_name
  /\ onnx_path w model_name
     <> Pathlib.joinpath (models_dir w) "selected_tags.csv"
  /\ labels_path w model_name
     <> Pathlib.joinpath (models_dir w) "model.onnx".
Proof.
  intros Hcfg. destruct (registered_config _ _ Hcfg) as [_ [_ Hname]].
  unfold onnx_path, labels_path.
  split; [|split]; intros E;
    destruct Hname as [Hn|[Hn|[Hn|Hn]]]; rewrite Hn in E;
    apply joinpath_inj in E; try reflexivity; cbv in E; discriminate.
Qed.

(** X2: when the model file is already on disk and only the label file is
    missing, resolution downloads the label file alone: the log gains the
    [mkdir], one download of [selected_tags.csv] and its rename, the model
    file is not touched, and the call succeeds with both files in
    place. *)
Theorem X2_only_the_missing_file_is_fetched
  (w : World) (model_name : string) (config : Config.t) (st : state)
  (fs1 : gmap string string) :
  hub_places_files w ->
  MODEL_CONFIGS !! model_name = Some config ->
  file_exists (files st) (onnx_path w model_name) = true ->
  file_exists (files st) (labels_path w model_name) = false ->
  hf_hub_download w (Config.repo_id config) "selected_tags.csv"
    (models_dir w) (files st) = Some fs1 ->
  let r := ensure_model_available w model_name st in
  fst r = Ok (true, onnx_path w model_name, labels_path w model_name)
  /\ trace (snd r)
     = (trace st
        ++ [EvMkdir (models_dir w);
            EvDownload (Config.repo_id config) "selected_tags.csv"
              (models_dir w);
            EvRename (Pathlib.joinpath (models_dir w) "selected_tags.csv")
              (labels_path w model_name)])%list
  /\ files (snd r) !! onnx_path w model_name
     = files st !! onnx_path w model_name
  /\ file_exists (files (snd r)) (labels_path w model_name) = true.
Proof.
  intros Hhub Hcfg Hm Hc Hd r.
  destruct (registered_config _ _ Hcfg) as [Hf [Hcsv _]].
  destruct (registered_paths_differ w model_name config Hcfg)
    as [Hmc [Hmd _]].
  destruct (Hhub _ _ _ _ _ Hd) as [content Hfs1].
  set (dc := Pathlib.joinpath (models_dir w) "selected_tags.csv") in *.
  assert (Hr : r
    = (Ok (true, onnx_path w model_name, labels_path w model_name),
       set_files
         (<[labels_path w model_name := content]>
            (delete dc (<[dc := content]> (files st))))
         (log_event (EvRename dc (labels_path w model_name))
            (log_event
               (EvDownload (Config.repo_id config) "selected_tags.csv"
                  (models_dir w))
               (log_event (EvMkdir (models_dir w)) st))))).
  { subst r. unfold ensure_model_available. rewrite Hcfg.
    fold (models_dir w). fold (onnx_path w model_name).
    fold (labels_path w model_name).
    unfold bind at 1 2 3. unfold mkdir, modify, path_exists, gets. simpl.
    rewrite Hm, Hc. simpl.
    unfold try_except, download_missing, bind, path_exists, gets,
      hub_download, ret. simpl.
    rewrite Hm. simpl. rewrite Hc. simpl. rewrite Hcsv, Hd. simpl.
    rewrite Hfs1. fold dc. unfold file_exists at 1.
    rewrite lookup_insert_eq.
    unfold rename. simpl. rewrite lookup_insert_eq. reflexivity. }
  rewrite Hr. simpl.
  split; [reflexivity|]. split.
  { now rewrite <- !List.app_assoc. }
  split.
  - rewrite lookup_insert_ne by congruence.
    rewrite lookup_delete_ne by congruence.
    now rewrite lookup_insert_ne by congruence.
  - unfold file_exists. now rewrite lookup_insert_eq.
Qed.

Lemma X2_witness :
  fst (ensure_model_available Fixture.world Fixture.vit
         Scenario.model_only)
  = Ok (true, "/nodes/models/wd-vit-tagger-v3.onnx",
              "/nodes/models/wd-vit-tagger-v3.csv")
  /\ trace (snd (ensure_model_available Fixture.world Fixture.vit
                   Scenario.model_only))
     = [EvMkdir "/nodes/models";
        EvDownload "SmilingWolf/wd-vit-tagger-v3" "selected_tags.csv"
          "/nodes/models";
        EvRename "/nodes/models/selected_tags.csv"
          "/nodes/models/wd-vit-tagger-v3.csv"].
Proof.
  destruct (X2_only_the_missing_file_is_fetched Fixture.world Fixture.vit
              {| Config.repo_id := "SmilingWolf/wd-vit-tagger-v3";
                 Config.filename := "model.onnx";
                 Config.csv_filename := "selected_tags.csv";
                 Config.display_name := "WD ViT Tagger v3" |}
              Scenario.model_only
              (<["/nodes/models/selected_tags.csv" := Fixture.labels_csv]>
                 (files Scenario.model_only))
              fixture_hub_keeps_contract
              ltac:(vm_compute; reflexivity) ltac:(vm_compute; reflexivity)
              ltac:(vm_compute; reflexivity) eq_refl)
    as [Hres [Htrace _]].
  split; [exact Hres | exact Htrace].
Defined.

(** X3: when the model file downloads and the label download raises, the
    call returns [(False, "", "")] but the model file stays under its
    canonical name, so a later call has only the label file left to
    fetch. *)
Theorem X3_partial_download_is_kept
  (w : World) (model_name : string) (config : Config.t) (st : state)
  (fs1 : gmap string string) :
  hub_places_files w ->
  MODEL_CONFIGS !! model_name = Some config ->
  file_exists (files st) (onnx_path w model_name) = false ->
  file_exists (files st) (labels_path w model_name) = false ->
  hf_hub_download w (Config.repo_id config) "model.onnx"
    (models_dir w) (files st) = Some fs1 ->
  (forall fs, hf_hub_download w (Config.repo_id config) "selected_tags.csv"
                (models_dir w) fs = None) ->
  let r := ensure_model_available w model_name st in
  fst r = Ok (false, "", "")
  /\ file_exists (files (snd r)) (onnx_path w model_name) = true
  /\ file_exists (files (snd r)) (labels_path w model_name) = false.
Proof.
  intros Hhub Hcfg Hm Hc Hd Hfail r.
  destruct (registered_config _ _ Hcfg) as [Hf [Hcsv _]].
  destruct (registered_paths_differ w model_name config Hcfg)
    as [Hmc [_ Hld]].
  destruct (Hhub _ _ _ _ _ Hd) as [content Hfs1].
  set (dm := Pathlib.joinpath (models_dir w) "model.onnx") in *.
  set (fs2 := <[onnx_path w model_name := content]>
                (delete dm (<[dm := content]> (files st)))).
  assert (Hstill : file_exists fs2 (labels_path w model_name) = false).
  { unfold file_exists in *. subst fs2.
    rewrite lookup_insert_ne by congruence.
    rewrite lookup_delete_ne by congruence.
    now rewrite lookup_insert_ne by congruence. }
  assert (Hr : r
    = (Ok (false, "", ""),
       log_event
         (EvDownload (Config.repo_id config) "selected_tags.csv"
            (models_dir w))
         (set_files fs2
            (log_event (EvRename dm (onnx_path w model_name))
               (log_event
                  (EvDownload (Config.repo_id config) "model.onnx"
                     (models_dir w))
                  (log_event (EvMkdir (models_dir w)) st)))))).
  { subst r. unfold ensure_model_available. rewrite Hcfg.
    fold (models_dir w). fold (onnx_path w model_name).
    fold (labels_path w model_name).
    unfold bind at 1 2 3. unfold mkdir, modify, path_exists, gets. simpl.
    rewrite Hm. simpl.
    unfold try_except, download_missing, bind, path_exists, gets,
      hub_download, ret. simpl.
    rewrite Hm. simpl. rewrite Hf, Hd. simpl.
    rewrite Hfs1. fold dm. unfold file_exists at 1.
    rewrite lookup_insert_eq.
    unfold rename. simpl. rewrite lookup_insert_eq. simpl. fold fs2.
    rewrite Hstill. simpl. now rewrite Hcsv, Hfail. }
  rewrite Hr. simpl.
  split; [reflexivity|]. split; [|exact Hstill].
  unfold file_exists. subst fs2. now rewrite lookup_insert_eq.
Qed.

Lemma X3_witness :
  fst (ensure_model_available Scenario.labels_unreachable Fixture.vit
         Fixture.fresh)
  = Ok (false, "", "")
  /\ file_exists
       (files (snd (ensure_model_available Scenario.labels_unreachable
                      Fixture.vit Fixture.fresh)))
       "/nodes/models/wd-vit-tagger-v3.onnx" = true.
Proof.
  assert (Hhub : hub_places_files Scenario.labels_unreachable).
  { intros repo file local_dir fs fs' H. simpl in H.
    destruct (String.eqb file "selected_tags.csv"); [discriminate|].
    injection H as <-. eauto. }
  destruct (X3_partial_download_is_kept Scenario.labels_unreachable
              Fixture.vit
              {| Config.repo_id := "SmilingWolf/wd-vit-tagger-v3";
                 Config.filename := "model.onnx";
                 Config.csv_filename := "selected_tags.csv";
                 Config.display_name := "WD ViT Tagger v3" |}
              Fixture.fresh
              (<["/nodes/models/model.onnx" := "onnx"]> ∅)
              Hhub
              ltac:(vm_compute; reflexivity) ltac:(vm_compute; reflexivity)
              ltac:(vm_compute; reflexivity) eq_refl
              ltac:(intros fs; reflexivity))
    as [Hres [Hkept _]].
  split; [exact Hres | exact Hkept].
Defined.

(** ** Loading *)

Lemma load_with_files_present (w : World) (model_name : string)
  (config : Config.t) (use_gpu : bool) (st : state) (content : string) :
  cache_hit (model_cache st) model_name = false ->
  MODEL_CONFIGS !! model_name = Some config ->
  file_exists (files st) (onnx_path w model_name) = true ->
  files st !! labels_path w model_name = Some content ->
  load_model_once w model_name use_gpu st
  = match session_or_fallback w (onnx_path w model_name) use_gpu
            (files st) with
    | Some sess =>
        match usable_assets w sess content with
        | Some (input_name, input_size, tags) =>
            (Ok true,
             set_model_cache
               {| Cache.session := Some sess;
                  Cache.tags := Some tags;
                  Cache.model_name := Some model_name;
                  Cache.input_name := Some input_name;
                  Cache.input_size := input_size |}
               (after_session_attempts w model_name use_gpu st))
        | None => (Ok false, after_session_attempts w model_name use_gpu st)
        end
    | None => (Ok false, after_session_attempts w model_name use_gpu st)
    end.
Proof.
  intros Hmiss Hcfg Hm Hc.
  assert (Hce : file_exists (files st) (labels_path w model_name) = true)
    by (unfold file_exists; now rewrite Hc).
  unfold load_model_once. unfold bind at 1. unfold gets at 1.
  rewrite Hmiss. unfold try_except at 1, load_model_body.
  unfold bind at 1.
  rewrite (resolve_both_present w model_name config st Hcfg Hm Hce).
  cbn [negb].
  unfold session_or_fallback, after_session_attempts, usable_assets.
  unfold bind, try_except, new_session, of_option, path_exists, gets,
    read_text, ret, raise, modify.
  cbn [files log_event set_files].
  destruct (InferenceSession w (onnx_path w model_name)
              (if use_gpu
               then [CUDAExecutionProvider; CPUExecutionProvider]
               else [CPUExecutionProvider]) (files st)) as [sess|].
  - destruct (Session.get_inputs sess !! 0%nat) as [first_input|];
      [|reflexivity].
    destruct (NodeArg.shape first_input !! 1%nat) as [input_size|];
      [|reflexivity].
    simpl. rewrite Hce. simpl. rewrite Hc. simpl.
    destruct (csv_reader w content) as [[|header rest]|]; reflexivity.
  - simpl.
    destruct (InferenceSession w (onnx_path w model_name)
                [CPUExecutionProvider] (files st)) as [sess|];
      [|reflexivity].
    destruct (Session.get_inputs sess !! 0%nat) as [first_input|];
      [|reflexivity].
    destruct (NodeArg.shape first_input !! 1%nat) as [input_size|];
      [|reflexivity].
    simpl. rewrite Hce. simpl. rewrite Hc. simpl.
    destruct (csv_reader w content) as [[|header rest]|]; reflexivity.
Qed.

Lemma load_success_names_model (w : World) (model_name : string)
  (use_gpu : bool) (st st' : state) :
  load_model_once w model_name use_gpu st = (Ok true, st') ->
  Cache.model_name (model_cache st') = Some model_name.
Proof.
  intros Hload.
  destruct (load_model_once_spec w model_name use_gpu st)
    as [b [st1 [Heq [_ [Htrue _]]]]].
  rewrite Hload in Heq. injection Heq as <- <-.
  specialize (Htrue eq_refl). unfold cache_hit in Htrue.
  destruct (Cache.model_name (model_cache st')) as [cached|];
    [|discriminate].
  destruct (Cache.session (model_cache st')); [|discriminate].
  apply String.eqb_eq in Htrue. now subst.
Qed.

(** X4: the cache has one slot.  A call never raises; when it returns
    [True] the cache names the requested model and no other model is a hit
    any more; when it returns [False] the cache is exactly what it was, so
    a model loaded earlier stays usable after a failed switch. *)
Theorem X4_single_slot_cache
  (w : World) (model_name : string) (use_gpu : bool) (st : state) :
  let r := load_model_once w model_name use_gpu st in
  (fst r = Ok true \/ fst r = Ok false)
  /\ (fst r = Ok true ->
      Cache.model_name (model_cache (snd r)) = Some model_name
      /\ forall other,
           other <> model_name ->
           cache_hit (model_cache (snd r)) other = false)
  /\ (fst r = Ok false ->
      model_cache (snd r) = model_cache st
      /\ forall other,
           cache_hit (model_cache (snd r)) other
           = cache_hit (model_cache st) other).
Proof.
  intros r.
  destruct (load_model_once_spec w model_name use_gpu st)
    as [b [st' [Heq [_ [_ Hfalse]]]]].
  subst r. rewrite Heq. simpl.
  split; [destruct b; auto|]. split.
  - intros Hb. injection Hb as ->.
    pose proof (load_success_names_model w model_name use_gpu st st' Heq)
      as Hname.
    split; [exact Hname|].
    intros other Hne. unfold cache_hit. rewrite Hname.
    destruct (Cache.session (model_cache st')); [|reflexivity].
    apply String.eqb_neq. congruence.
  - intros Hb. injection Hb as ->. rewrite (Hfalse eq_refl). auto.
Qed.

(** X5: when ONNX Runtime refuses the CUDA provider list and accepts the
    CPU provider alone, a load with [use_gpu] succeeds all the same: it
    caches the CPU session, having built one session after one refused
    attempt, and ends with the very cache a load without [use_gpu] gives. *)
Theorem X5_gpu_request_falls_back_to_cpu
  (w : World) (model_name : string) (config : Config.t) (st : state)
  (content : string) (sess : Session.t) (input_name : string)
  (input_size : dim) (tags : list string) :
  cache_hit (model_cache st) model_name = false ->
  MODEL_CONFIGS !! model_name = Some config ->
  file_exists (files st) (onnx_path w model_name) = true ->
  files st !! labels_path w model_name = Some content ->
  InferenceSession w (onnx_path w model_name)
    [CUDAExecutionProvider; CPUExecutionProvider] (files st) = None ->
  InferenceSession w (onnx_path w model_name) [CPUExecutionProvider]
    (files st) = Some sess ->
  usable_assets w sess content = Some (input_name, input_size, tags) ->
  let r := load_model_once w model_name true st in
  fst r = Ok true
  /\ model_cache (snd r)
     = {| Cache.session := Some sess;
          Cache.tags := Some tags;
          Cache.model_name := Some model_name;
          Cache.input_name := Some input_name;
          Cache.input_size := input_size |}
  /\ model_cache (snd r)
     = model_cache (snd (load_model_once w model_name false st))
  /\ trace (snd r)
     = (trace st
        ++ [EvMkdir (models_dir w);
            EvNewSession (onnx_path w model_name)
              [CUDAExecutionProvider; CPUExecutionProvider] false;
            EvNewSession (onnx_path w model_name) [CPUExecutionProvider]
              true])%list.
Proof.
  intros Hmiss Hcfg Hm Hc Hcuda Hcpu Husable r. subst r.
  rewrite (load_with_files_present w model_name config true st content
             Hmiss Hcfg Hm Hc).
  rewrite (load_with_files_present w model_name config false st content
             Hmiss Hcfg Hm Hc).
  unfold session_or_fallback, after_session_attempts.
  rewrite Hcuda, Hcpu, Husable. simpl.
  split; [reflexivity|]. split; [reflexivity|]. split; [reflexivity|].
  now rewrite <- !List.app_assoc.
Qed.

Lemma X5_witness :
  fst (load_model_once Scenario.no_cuda Fixture.vit true Fixture.installed)
  = Ok true
  /\ model_cache
       (snd (load_model_once Scenario.no_cuda Fixture.vit true
               Fixture.installed))
     = model_cache Fixture.loaded.
Proof.
  destruct (X5_gpu_request_falls_back_to_cpu Scenario.no_cuda Fixture.vit
              {| Config.repo_id := "SmilingWolf/wd-vit-tagger-v3";
                 Config.filename := "model.onnx";
                 Config.csv_filename := "selected_tags.csv";
                 Config.display_name := "WD ViT Tagger v3" |}
              Fixture.installed Fixture.labels_csv Fixture.cpu_session
              "input" (DimInt 8) ["Cat"; "blue_sky"; "tail"]
              eq_refl ltac:(vm_compute; reflexivity)
              ltac:(vm_compute; reflexivity)
              ltac:(vm_compute; reflexivity) eq_refl eq_refl
              ltac:(vm_compute; reflexivity))
    as [Hres [Hcache _]].
  split; [exact Hres|]. rewrite Hcache. vm_compute. reflexivity.
Defined.

(** X6: with both files on disk and the model not cached, a load returns
    [True] exactly when a session can be built (for the requested
    providers or for the CPU alone), that session declares a first input
    whose shape has a second entry, and the label file parses to at least a
    header row.  Whenever these hold the call returns [True] and the cache
    holds that session, the input's name, that shape entry and the second
    column of every later row that has one; whenever the call returns
    [True] they hold.  In every other case the call returns [False] and
    the cache is not written. *)
Theorem X6_load_succeeds_iff_assets_usable
  (w : World) (model_name : string) (config : Config.t) (use_gpu : bool)
  (st : state) (content : string) :
  cache_hit (model_cache st) model_name = false ->
  MODEL_CONFIGS !! model_name = Some config ->
  file_exists (files st) (onnx_path w model_name) = true ->
  files st !! labels_path w model_name = Some content ->
  let r := load_model_once w model_name use_gpu st in
  (forall sess first_input input_size header rest,
     session_or_fallback w (onnx_path w model_name) use_gpu (files st)
     = Some sess ->
     Session.get_inputs sess !! 0%nat = Some first_input ->
     NodeArg.shape first_input !! 1%nat = Some input_size ->
     csv_reader w content = Some (header :: rest) ->
     fst r = Ok true
     /\ model_cache (snd r)
        = {| Cache.session := Some sess;
             Cache.tags := Some (read_tags rest);
             Cache.model_name := Some model_name;
             Cache.input_name := Some (NodeArg.name first_input);
             Cache.input_size := input_size |})
  /\ (fst r = Ok true ->
      exists sess first_input input_size header rest,
        session_or_fallback w (onnx_path w model_name) use_gpu (files st)
        = Some sess
        /\ Session.get_inputs sess !! 0%nat = Some first_input
        /\ NodeArg.shape first_input !! 1%nat = Some input_size
        /\ csv_reader w content = Some (header :: rest))
  /\ (fst r <> Ok true ->
      fst r = Ok false /\ model_cache (snd r) = model_cache st).
Proof.
  intros Hmiss Hcfg Hm Hc r. subst r.
  rewrite (load_with_files_present w model_name config use_gpu st content
             Hmiss Hcfg Hm Hc).
  assert (Hkeep : model_cache (after_session_attempts w model_name use_gpu st)
                  = model_cache st).
  { unfold after_session_attempts.
    repeat match goal with
      | |- context [match ?x with _ => _ end] => destruct x
      end; reflexivity. }
  unfold usable_assets.
  destruct (session_or_fallback w (onnx_path w model_name) use_gpu
              (files st)) as [sess|] eqn:Hs; simpl.
  2: { split; [intros; discriminate|].
       split; [discriminate | now intros _]. }
  destruct (Session.get_inputs sess !! 0%nat) as [first_input|] eqn:Hi;
    simpl.
  2: { split; [intros s fi d h rs E E1; congruence|].
       split; [discriminate | now intros _]. }
  destruct (NodeArg.shape first_input !! 1%nat) as [input_size|] eqn:Hd;
    simpl.
  2: { split; [intros s fi d h rs E E1 E2; congruence|].
       split; [discriminate | now intros _]. }
  destruct (csv_reader w content) as [[|header rest]|] eqn:Hr; simpl.
  - split; [intros; discriminate|].
    split; [discriminate | now intros _].
  - split; [|split].
    + intros s fi d h rs E E1 E2 E3.
      assert (s = sess) by congruence. subst s.
      assert (fi = first_input) by congruence. subst fi.
      assert (d = input_size) by congruence. subst d.
      assert (rs = rest) by congruence. subst rs.
      now split.
    + intros _. exists sess, first_input, input_size, header, rest.
      repeat split; first [assumption | reflexivity].
    + intros H. now destruct H.
  - split; [intros; discriminate|].
    split; [discriminate | now intros _].
Qed.

Lemma X6_witness :
  fst (load_model_once Fixture.world Fixture.vit false Fixture.installed)
  = Ok true
  /\ model_cache
       (snd (load_model_once Fixture.world Fixture.vit false
               Fixture.installed))
     = {| Cache.session := Some Fixture.cpu_session;
          Cache.tags := Some ["Cat"; "blue_sky"; "tail"];
          Cache.model_name := Some Fixture.vit;
          Cache.input_name := Some "input";
          Cache.input_size := DimInt Fixture.edge |}.
Proof.
  destruct (X6_load_succeeds_iff_assets_usable Fixture.world
              Fixture.vit
              {| Config.repo_id := "SmilingWolf/wd-vit-tagger-v3";
                 Config.filename := "model.onnx";
                 Config.csv_filename := "selected_tags.csv";
                 Config.display_name := "WD ViT Tagger v3" |}
              false Fixture.installed Fixture.labels_csv
              eq_refl ltac:(vm_compute; reflexivity)
              ltac:(vm_compute; reflexivity)
              ltac:(vm_compute; reflexivity)) as [Hif _].
  exact (Hif Fixture.cpu_session
           {| NodeArg.name := "input";
              NodeArg.shape :=
                [DimParam "batch_size"; DimInt Fixture.edge;
                 DimInt Fixture.edge; DimInt 3] |}
           (DimInt Fixture.edge)
           ["tag_id"; "name"; "category"; "count"]
           [["0"; "Cat"; "0"; "100"]; ["1"; "blue_sky"; "0"; "90"];
            ["broken-row"]; ["2"; "tail"; "0"; "80"]]
           ltac:(vm_compute; reflexivity) eq_refl eq_refl
           ltac:(vm_compute; reflexivity)).
Defined.

(** ** Components of the state that a computation leaves alone *)

Lemma preserves_ret {A B : Type} (proj : state -> B) (a : A) :
  preserves proj (ret a).
Proof. intros b. now apply hoare_ret. Qed.

Lemma preserves_raise {A B : Type} (proj : state -> B) :
  preserves proj (@raise A).
Proof. intros b. now apply hoare_raise. Qed.

Lemma preserves_gets {A B : Type} (proj : state -> B) (f : state -> A) :
  preserves proj (gets f).
Proof. intros b. now apply hoare_gets. Qed.

Lemma preserves_of_option {A B : Type} (proj : state -> B) (o : option A) :
  preserves proj (of_option o).
Proof. destruct o; [apply preserves_ret | apply preserves_raise]. Qed.

Lemma preserves_bind {A A' B : Type} (proj : state -> B) (m : M A)
  (k : A -> M A') :
  preserves proj m -> (forall a, preserves proj (k a)) ->
  preserves proj (bind m k).
Proof.
  intros Hm Hk b. apply hoare_bind with (R := fun _ st => proj st = b).
  - apply Hm.
  - intros a. apply Hk.
  - auto.
Qed.

Lemma preserves_try {A B : Type} (proj : state -> B) (body handler : M A) :
  preserves proj body -> preserves proj handler ->
  preserves proj (try_except body handler).
Proof.
  intros Hb Hh b. apply hoare_try with (R := fun _ st => proj st = b).
  - apply Hb.
  - auto.
  - apply Hh.
Qed.

Lemma preserves_modify {B : Type} (proj : state -> B) (f : state -> state) :
  (forall st, proj (f st) = proj st) -> preserves proj (modify f).
Proof.
  intros H b. apply hoare_modify. intros st Hb. now rewrite H.
Qed.

(** The loader never touches the progress object. *)
Lemma progress_rename (src dst : string) :
  preserves batch_progress (rename src dst).
Proof. intros b st Hb. unfold rename. now destruct (files st !! src). Qed.

Lemma progress_hub_download (w : World) (repo file local_dir : string) :
  preserves batch_progress (hub_download w repo file local_dir).
Proof.
  intros b st Hb. unfold hub_download.
  now destruct (hf_hub_download w repo file local_dir (files st)).
Qed.

Lemma progress_new_session (w : World) (path : string)
  (provs : list provider) :
  preserves batch_progress (new_session w path provs).
Proof.
  intros b st Hb. unfold new_session.
  now destruct (InferenceSession w path provs (files st)).
Qed.

Lemma progress_read_text (p : string) :
  preserves batch_progress (read_text p).
Proof. intros b st Hb. unfold read_text. now destruct (files st !! p). Qed.

Lemma progress_run_session (w : World) (sess : Session.t)
  (input_name : string) (inp : tensor) :
  preserves batch_progress (run_session w sess input_name inp).
Proof.
  intros b st Hb. unfold run_session.
  now destruct (session_run w sess input_name inp).
Qed.

Lemma progress_write_text (w : World) (path content : string) :
  preserves batch_progress (write_text w path content).
Proof.
  intros b st Hb. unfold write_text.
  now destruct (open_w w path (files st)).
Qed.

Create HintDb progress.
#[local] Hint Resolve preserves_ret preserves_raise preserves_gets
  preserves_of_option progress_rename progress_hub_download
  progress_new_session progress_read_text progress_run_session
  progress_write_text : progress.

Ltac progress_kept :=
  repeat match goal with
    | |- preserves _ (bind _ _) => apply preserves_bind; [|intros ?]
    | |- preserves _ (try_except _ _) => apply preserves_try
    | |- preserves _ (if ?b then _ else _) => destruct b
    | |- preserves _ (match ?x with _ => _ end) => destruct x
    | |- preserves _ (modify _) => apply preserves_modify; reflexivity
    | |- preserves _ (path_exists _) => apply preserves_gets
    | |- preserves _ (mkdir _) => apply preserves_modify; reflexivity
    | |- preserves _ _ => solve [auto with progress]
    end.

Lemma progress_ensure_model_available (w : World) (model_name : string) :
  preserves batch_progress (ensure_model_available w model_name).
Proof.
  unfold ensure_model_available.
  destruct (MODEL_CONFIGS !! model_name); [|apply preserves_ret].
  apply preserves_bind; [progress_kept | intros _].
  apply preserves_bind; [progress_kept | intros have_model].
  apply preserves_bind; [progress_kept | intros have_csv].
  destruct (have_model && have_csv); [apply preserves_ret|].
  apply preserves_try; [|apply preserves_ret].
  unfold download_missing. progress_kept.
Qed.

Lemma progress_load_model_once (w : World) (model_name : string)
  (use_gpu : bool) :
  preserves batch_progress (load_model_once w model_name use_gpu).
Proof.
  unfold load_model_once.
  apply preserves_bind; [apply preserves_gets | intros hit].
  destruct hit; [apply preserves_ret|].
  apply preserves_try; [|apply preserves_ret].
  unfold load_model_body.
  apply preserves_bind; [apply progress_ensure_model_available|].
  intros [[success model_path] csv_path]. destruct success; simpl;
    [|apply preserves_ret].
  progress_kept.
Qed.

(** After the load, the progress object moves exactly when the image is
    tagged. *)
Lemma tag_with_cache_progress (w : World) (image : option NdArray.t)
  (filename folder_path : string) (threshold : spec_float)
  (replace_underscore : bool) (prepend_tags exclude_tags : string)
  (b : Progress.t) :
  hoare (fun st => batch_progress st = b)
    (tag_with_cache w image filename folder_path threshold
       replace_underscore prepend_tags exclude_tags)
    (fun r st' =>
       batch_progress st'
       = match r with
         | Ok (Tagged _) =>
             Progress.next_image (Progress.update_image_progress b)
         | _ => b
         end).
Proof.
  pose (keep := fun (A : Type) (_ : result A) (st : state) =>
                  batch_progress st = b).
  unfold tag_with_cache.
  apply hoare_bind with (R := keep _);
    [now apply hoare_gets | intros sess | auto].
  apply hoare_bind with (R := keep _);
    [now apply hoare_gets | intros tags | auto].
  apply hoare_bind with (R := keep _);
    [now apply hoare_gets | intros input_name | auto].
  apply hoare_bind with (R := keep _);
    [now apply hoare_gets | intros input_size | auto].
  apply hoare_bind with (R := keep _);
    [apply (preserves_of_option batch_progress) | intros tags' | auto].
  destruct image as [a|]; [|now apply hoare_ret].
  destruct (image_is_empty (Some a)); [now apply hoare_ret|].
  apply hoare_bind with (R := keep _);
    [apply (preserves_of_option batch_progress) | intros prepared | auto].
  destruct prepared as [inp|]; [|now apply hoare_ret].
  apply hoare_bind with (R := keep _);
    [apply (preserves_of_option batch_progress) | intros sess' | auto].
  apply hoare_bind with (R := keep _);
    [apply (preserves_of_option batch_progress) | intros name' | auto].
  apply hoare_bind with (R := keep _);
    [apply progress_run_session | intros probs | auto].
  apply hoare_bind with (R := keep _); [ | intros [] | auto].
  { destruct (PyStr.truthy folder_path).
    - apply (preserves_try batch_progress);
        [apply progress_write_text | apply preserves_ret].
    - apply (preserves_ret batch_progress). }
  apply hoare_bind
    with (R := fun (r : result unit) st' =>
                 batch_progress st'
                 = match r with
                   | Ok _ =>
                       Progress.next_image
                         (Progress.update_image_progress b)
                   | Raised => b
                   end).
  - apply hoare_modify. intros st Hb. simpl. unfold keep in Hb.
    now rewrite Hb.
  - intros []. now apply hoare_ret.
  - auto.
Qed.

(** X7: the progress object counts tagged images only.  A call that
    fails for any reason leaves it as it was; a call that tags its image
    advances the bar, if there is one, and the image counter by one. *)
Theorem X7_progress_counts_tagged_images
  (w : World) (image : option NdArray.t)
  (filename folder_path model : string)
  (threshold character_threshold : spec_float)
  (replace_underscore use_gpu : bool) (prepend_tags exclude_tags : string)
  (st : state) :
  let call :=
    tag_batch_outcome w image filename folder_path model threshold
      character_threshold replace_underscore use_gpu prepend_tags
      exclude_tags st in
  (forall why, fst call = Failed why ->
     batch_progress (snd call) = batch_progress st)
  /\ (forall output_tags, fst call = Tagged output_tags ->
        Progress.current_image (batch_progress (snd call))
        = S (Progress.current_image (batch_progress st))
        /\ Progress.pbar (batch_progress (snd call))
           = option_map S (Progress.pbar (batch_progress st))
        /\ Progress.total_images (batch_progress (snd call))
           = Progress.total_images (batch_progress st)).
Proof.
  intros call.
  destruct (tag_batch_outcome_split w image filename folder_path model
              threshold character_threshold replace_underscore use_gpu
              prepend_tags exclude_tags st) as [b [st1 [Hload Hbody]]].
  pose proof (progress_load_model_once w (model_name_of model) use_gpu
                (batch_progress st) st eq_refl) as Hp1.
  rewrite Hload in Hp1. simpl in Hp1.
  subst call. unfold tag_batch_outcome. rewrite Hbody.
  destruct b; simpl.
  - pose proof (tag_with_cache_progress w image filename folder_path
                  threshold replace_underscore prepend_tags exclude_tags
                  (batch_progress st) st1 Hp1) as Hp2.
    destruct (tag_with_cache w image filename folder_path threshold
                replace_underscore prepend_tags exclude_tags st1)
      as [[[s|why]|] st2]; simpl in *.
    + split; [discriminate|]. intros s' _. rewrite Hp2.
      destruct (batch_progress st) as [[n|] c t l]; now repeat split.
    + split; [intros _ _; exact Hp2 | discriminate].
    + split; [intros _ _; exact Hp2 | discriminate].
  - split; [intros _ _; exact Hp1 | discriminate].
Qed.

(** ** The call when the model is already cached *)

Lemma tag_batch_on_hit (w : World) (image : option NdArray.t)
  (filename folder_path model : string)
  (threshold character_threshold : spec_float)
  (replace_underscore use_gpu : bool) (prepend_tags exclude_tags : string)
  (st : state) :
  cache_hit (model_cache st) (model_name_of model) = true ->
  tag_batch_body w image filename folder_path model threshold
    character_threshold replace_underscore use_gpu prepend_tags
    exclude_tags st
  = tag_with_cache w image filename folder_path threshold
      replace_underscore prepend_tags exclude_tags st.
Proof.
  intros Hhit. unfold tag_batch_body, bind.
  now rewrite (load_model_once_hit w _ use_gpu st Hhit).
Qed.

Lemma cache_hit_intro (c : Cache.t) (model_name : string)
  (sess : Session.t) :
  Cache.model_name c = Some model_name -> Cache.session c = Some sess ->
  cache_hit c model_name = true.
Proof.
  intros Hn Hs. unfold cache_hit. rewrite Hn, Hs. apply String.eqb_refl.
Qed.

(** The state a fully successful call ends in. *)
Lemma tag_with_cache_run (w : World) (a : NdArray.t)
  (filename folder_path : string) (threshold : spec_float)
  (replace_underscore : bool) (prepend_tags exclude_tags : string)
  (st : state) (sess : Session.t) (tags : list string)
  (input_name : string) (inp : tensor) (probs : list spec_float) :
  Cache.session (model_cache st) = Some sess ->
  Cache.tags (model_cache st) = Some tags ->
  Cache.input_name (model_cache st) = Some input_name ->
  image_is_empty (Some a) = false ->
  preprocess w (Cache.input_size (model_cache st)) a = Some (Some inp) ->
  session_run w sess input_name inp = Some probs ->
  let out := compose_tags tags probs threshold exclude_tags
               replace_underscore prepend_tags in
  let p := txt_path_of folder_path filename in
  let ran := log_event (EvRun input_name) st in
  let moved :=
    set_batch_progress
      (Progress.next_image
         (Progress.update_image_progress (batch_progress st))) in
  tag_with_cache w (Some a) filename folder_path threshold
    replace_underscore prepend_tags exclude_tags st
  = (Ok (Tagged out),
     if PyStr.truthy folder_path
     then if open_w w p (files st)
          then moved (set_files (<[p := out]> (files st))
                        (log_event (EvOpenWrite p) ran))
          else moved (log_event (EvOpenWrite p) ran)
     else moved ran).
Proof.
  intros Hs Ht Hn He Hp Hr out p ran moved.
  unfold tag_with_cache, bind, gets, of_option, ret, run_session.
  rewrite Ht, He, Hp, Hs, Hn. simpl. rewrite Hr.
  unfold try_except, write_text, modify.
  fold (txt_path_of folder_path filename). fold p.
  destruct (PyStr.truthy folder_path); simpl; [|reflexivity].
  destruct (open_w w p (files st)); reflexivity.
Qed.

(** X8: when a cached model tags an image and the tags file can be
    opened, the file [<folder>/<stem>.txt] holds exactly the string the
    call returns, whatever was there before, and no other file
    changes. *)
Theorem X8_tags_file_holds_the_returned_string
  (w : World) (a : NdArray.t) (filename folder_path model : string)
  (threshold character_threshold : spec_float)
  (replace_underscore use_gpu : bool) (prepend_tags exclude_tags : string)
  (st : state) (sess : Session.t) (tags : list string)
  (input_name : string) (inp : tensor) (probs : list spec_float) :
  Cache.model_name (model_cache st) = Some (model_name_of model) ->
  Cache.session (model_cache st) = Some sess ->
  Cache.tags (model_cache st) = Some tags ->
  Cache.input_name (model_cache st) = Some input_name ->
  image_is_empty (Some a) = false ->
  preprocess w (Cache.input_size (model_cache st)) a = Some (Some inp) ->
  session_run w sess input_name inp = Some probs ->
  PyStr.truthy folder_path = true ->
  open_w w (txt_path_of folder_path filename) (files st) = true ->
  let r := tag_batch w (Some a) filename folder_path model threshold
             character_threshold replace_underscore use_gpu prepend_tags
             exclude_tags st in
  fst r = compose_tags tags probs threshold exclude_tags
            replace_underscore prepend_tags
  /\ files (snd r) !! txt_path_of folder_path filename = Some (fst r)
  /\ forall q, q <> txt_path_of folder_path filename ->
               files (snd r) !! q = files st !! q.
Proof.
  intros Hname Hs Ht Hn He Hp Hr Hfolder Hopen r. subst r.
  unfold tag_batch, tag_batch_outcome.
  rewrite (tag_batch_on_hit w (Some a) filename folder_path model threshold
             character_threshold replace_underscore use_gpu prepend_tags
             exclude_tags st
             (cache_hit_intro _ _ sess Hname Hs)).
  rewrite (tag_with_cache_run w a filename folder_path threshold
             replace_underscore prepend_tags exclude_tags st sess tags
             input_name inp probs Hs Ht Hn He Hp Hr).
  rewrite Hfolder, Hopen. simpl.
  split; [reflexivity|]. split.
  - apply lookup_insert_eq.
  - intros q Hq. now apply lookup_insert_ne.
Qed.

Lemma X8_witness :
  fst (tag_batch Fixture.world (Some Fixture.grey) "a.png" "/out/"
         Fixture.vit (Fixture.frac 35 100) (Fixture.frac 85 100) true false
         "" "" Fixture.loaded)
  = "Cat, tail"
  /\ files
       (snd (tag_batch Fixture.world (Some Fixture.grey) "a.png" "/out/"
               Fixture.vit (Fixture.frac 35 100) (Fixture.frac 85 100)
               true false "" "" Fixture.loaded))
     !! "/out/a.txt"
     = Some "Cat, tail".
Proof.
  destruct (X8_tags_file_holds_the_returned_string Fixture.world
              Fixture.grey "a.png" "/out/" Fixture.vit
              (Fixture.frac 35 100) (Fixture.frac 85 100) true false "" ""
              Fixture.loaded Fixture.cpu_session
              ["Cat"; "blue_sky"; "tail"] "input" Fixture.grey_input
              [Fixture.f32 9 10; Fixture.f32 35 100; Fixture.f32 1 2;
               Fixture.f32 99 100]
              eq_refl eq_refl eq_refl eq_refl eq_refl eq_refl eq_refl
              eq_refl eq_refl) as [Hout [Hfile _]].
  split; [exact Hout|]. rewrite Hout in Hfile. exact Hfile.
Defined.

(** X9: a tags file that cannot be opened, or an empty output folder,
    costs nothing but the file: the call returns the same string it would
    have written and leaves every file as it was. *)
Theorem X9_write_failure_is_not_fatal
  (w : World) (a : NdArray.t) (filename folder_path model : string)
  (threshold character_threshold : spec_float)
  (replace_underscore use_gpu : bool) (prepend_tags exclude_tags : string)
  (st : state) (sess : Session.t) (tags : list string)
  (input_name : string) (inp : tensor) (probs : list spec_float) :
  Cache.model_name (model_cache st) = Some (model_name_of model) ->
  Cache.session (model_cache st) = Some sess ->
  Cache.tags (model_cache st) = Some tags ->
  Cache.input_name (model_cache st) = Some input_name ->
  image_is_empty (Some a) = false ->
  preprocess w (Cache.input_size (model_cache st)) a = Some (Some inp) ->
  session_run w sess input_name inp = Some probs ->
  folder_path = EmptyString
  \/ open_w w (txt_path_of folder_path filename) (files st) = false ->
  let r := tag_batch w (Some a) filename folder_path model threshold
             character_threshold replace_underscore use_gpu prepend_tags
             exclude_tags st in
  fst r = compose_tags tags probs threshold exclude_tags
            replace_underscore prepend_tags
  /\ files (snd r) = files st
  /\ Progress.current_image (batch_progress (snd r))
     = S (Progress.current_image (batch_progress st)).
Proof.
  intros Hname Hs Ht Hn He Hp Hr Hno r. subst r.
  unfold tag_batch, tag_batch_outcome.
  rewrite (tag_batch_on_hit w (Some a) filename folder_path model threshold
             character_threshold replace_underscore use_gpu prepend_tags
             exclude_tags st
             (cache_hit_intro _ _ sess Hname Hs)).
  rewrite (tag_with_cache_run w a filename folder_path threshold
             replace_underscore prepend_tags exclude_tags st sess tags
             input_name inp probs Hs Ht Hn He Hp Hr).
  destruct Hno as [-> | Hopen].
  - simpl. now repeat split.
  - rewrite Hopen. destruct (PyStr.truthy folder_path); simpl;
      now repeat split.
Qed.

Lemma X9_witness :
  fst (tag_batch Scenario.read_only (Some Fixture.grey) "a.png" "/out"
         Fixture.vit (Fixture.frac 35 100) (Fixture.frac 85 100) true false
         "" "" Fixture.loaded)
  = "Cat, tail"
  /\ files
       (snd (tag_batch Scenario.read_only (Some Fixture.grey) "a.png"
               "/out" Fixture.vit (Fixture.frac 35 100)
               (Fixture.frac 85 100) true false "" "" Fixture.loaded))
     = files Fixture.loaded.
Proof.
  destruct (X9_write_failure_is_not_fatal Scenario.read_only
              Fixture.grey "a.png" "/out" Fixture.vit
              (Fixture.frac 35 100) (Fixture.frac 85 100) true false "" ""
              Fixture.loaded Fixture.cpu_session
              ["Cat"; "blue_sky"; "tail"] "input" Fixture.grey_input
              [Fixture.f32 9 10; Fixture.f32 35 100; Fixture.f32 1 2;
               Fixture.f32 99 100]
              eq_refl eq_refl eq_refl eq_refl eq_refl eq_refl eq_refl
              (or_intror eq_refl)) as [Hout [Hfiles _]].
  split; [exact Hout | exact Hfiles].
Defined.

(** ** Calls that cannot succeed *)

(** X10: a model name that is not in the registry and not in the cache
    costs nothing: the load returns [False], the call returns the empty
    string, and the state is untouched, with no directory made, no download
    tried and no session attempted. *)
Theorem X10_unknown_model_touches_nothing
  (w : World) (image : option NdArray.t)
  (filename folder_path model : string)
  (threshold character_threshold : spec_float)
  (replace_underscore use_gpu : bool) (prepend_tags exclude_tags : string)
  (st : state) :
  MODEL_CONFIGS !! model_name_of model = None ->
  cache_hit (model_cache st) (model_name_of model) = false ->
  load_model_once w (model_name_of model) use_gpu st = (Ok false, st)
  /\ tag_batch w image filename folder_path model threshold
       character_threshold replace_underscore use_gpu prepend_tags
       exclude_tags st
     = (EmptyString, st).
Proof.
  intros Hunknown Hmiss.
  assert (Hload : load_model_once w (model_name_of model) use_gpu st
                  = (Ok false, st)).
  { unfold load_model_once, bind, gets, try_except, load_model_body, bind,
      ensure_model_available.
    now rewrite Hmiss, Hunknown. }
  split; [exact Hload|].
  unfold tag_batch, tag_batch_outcome, tag_batch_body, bind.
  now rewrite Hload.
Qed.

Lemma X10_witness :
  tag_batch Fixture.world (Some Fixture.grey) "a.png" "/out"
    "wd14-moat|WD14 MOAT" (Fixture.frac 35 100) (Fixture.frac 85 100)
    true false "" "" Fixture.loaded
  = ("", Fixture.loaded).
Proof.
  apply (X10_unknown_model_touches_nothing Fixture.world
           (Some Fixture.grey) "a.png" "/out" "wd14-moat|WD14 MOAT"
           (Fixture.frac 35 100) (Fixture.frac 85 100) true false "" ""
           Fixture.loaded);
    vm_compute; reflexivity.
Defined.

(** X11: a cached model whose declared input shape has no integer in
    second place (a symbolic axis or [None]) tags nothing: every call for
    it, whatever the image, returns the empty string and changes nothing,
    without the session ever being run. *)
Theorem X11_symbolic_input_size_tags_nothing
  (w : World) (image : option NdArray.t)
  (filename folder_path model : string)
  (threshold character_threshold : spec_float)
  (replace_underscore use_gpu : bool) (prepend_tags exclude_tags : string)
  (st : state) (sess : Session.t) (tags : list string) :
  Cache.model_name (model_cache st) = Some (model_name_of model) ->
  Cache.session (model_cache st) = Some sess ->
  Cache.tags (model_cache st) = Some tags ->
  (forall n, Cache.input_size (model_cache st) <> DimInt n) ->
  tag_batch w image filename folder_path model threshold
    character_threshold replace_underscore use_gpu prepend_tags
    exclude_tags st
  = (EmptyString, st).
Proof.
  intros Hname Hs Ht Hsize.
  unfold tag_batch, tag_batch_outcome.
  rewrite (tag_batch_on_hit w image filename folder_path model threshold
             character_threshold replace_underscore use_gpu prepend_tags
             exclude_tags st (cache_hit_intro _ _ sess Hname Hs)).
  unfold tag_with_cache, bind, gets, of_option, ret, raise.
  rewrite Ht. simpl.
  destruct image as [a|]; [|reflexivity].
  destruct (image_is_empty (Some a)); [reflexivity|].
  unfold preprocess.
  destruct (Cache.input_size (model_cache st)) as [n| |] eqn:Hd;
    [now destruct (Hsize n) | reflexivity | reflexivity].
Qed.

Lemma X11_witness :
  tag_batch Fixture.world (Some Fixture.grey) "a.png" "/out" Fixture.vit
    (Fixture.frac 35 100) (Fixture.frac 85 100) true false "" ""
    Scenario.dynamic_axes
  = ("", Scenario.dynamic_axes).
Proof.
  apply (X11_symbolic_input_size_tags_nothing Fixture.world
           (Some Fixture.grey) "a.png" "/out" Fixture.vit
           (Fixture.frac 35 100) (Fixture.frac 85 100) true false "" ""
           Scenario.dynamic_axes Fixture.cpu_session
           ["Cat"; "blue_sky"; "tail"]);
    [reflexivity | reflexivity | reflexivity | discriminate].
Defined.

(** ** The filter and the transform *)

(** *** Stricter settings *)

Lemma contributions_shrink (th1 th2 : spec_float)
  (ex1 ex2 : list string) (pairs : list (string * spec_float)) :
  (forall tag prob, keep_tag th2 ex2 tag prob = true ->
                    keep_tag th1 ex1 tag prob = true) ->
  sublist (List.flat_map (contribution th2 ex2) pairs)
          (List.flat_map (contribution th1 ex1) pairs).
Proof.
  intros Himp. induction pairs as [|[tag prob] pairs IH]; simpl.
  - constructor.
  - unfold contribution at 1 3. simpl.
    destruct (keep_tag th2 ex2 tag prob) eqn:H2.
    + rewrite (Himp tag prob H2). simpl. now apply sublist_skip.
    + destruct (keep_tag th1 ex1 tag prob); simpl;
        [now apply sublist_cons | exact IH].
Qed.

(** X12: stricter settings never add a tag.  With a threshold at least
    as high and an exclusion list at least as large, the selected tags are
    a subsequence of the tags selected before.  The comparison rounds
    the threshold to float32, and the rounding keeps the order. *)
Theorem X12_stricter_settings_select_a_subsequence
  (th1 th2 : spec_float) (ex1 ex2 : list string)
  (processed_tags : list string) (probs : list spec_float) :
  PyFloat.leb th1 th2 = true ->
  (forall t, List.In t ex1 -> List.In t ex2) ->
  sublist (filter_tags th2 ex2 processed_tags probs)
          (filter_tags th1 ex1 processed_tags probs).
Proof.
  intros Hth Hex. apply of_float_mono in Hth.
  rewrite !filter_tags_flat_map.
  apply contributions_shrink. intros tag prob Hkeep.
  apply keep_tag_spec in Hkeep as [Hlt Hnot]. apply keep_tag_spec.
  split.
  - pose proof (leb_ltb_trans _ _ prob Hth) as Htr.
    unfold PyFloat.ltb in Htr. rewrite Hlt in Htr. specialize (Htr eq_refl).
    destruct (PyFloat.compare (NpFloat32.of_float th1) prob)
      as [[| |]|]; try discriminate.
    reflexivity.
  - intros Hin. apply Hnot, Hex, Hin.
Qed.

Lemma X12_witness :
  sublist
    (filter_tags (Fixture.frac 1 2) ["tail"; "cat"]
       ["Cat"; "blue sky"; "tail"]
       [Fixture.f32 9 10; Fixture.f32 35 100; Fixture.f32 1 2])
    (filter_tags (Fixture.frac 35 100) ["tail"]
       ["Cat"; "blue sky"; "tail"]
       [Fixture.f32 9 10; Fixture.f32 35 100; Fixture.f32 1 2]).
Proof.
  apply (X12_stricter_settings_select_a_subsequence (Fixture.frac 35 100)
           (Fixture.frac 1 2) ["tail"] ["tail"; "cat"]).
  - vm_compute. reflexivity.
  - intros t [<-|[]]. now left.
Defined.

(** *** Underscores *)

Lemma lower_char_underscore (c : ascii) :
  Ascii.eqb (PyStr.lower_char c) "_" = Ascii.eqb c "_".
Proof. destruct c as [[] [] [] [] [] [] [] []]; reflexivity. Qed.

Lemma contains_underscore_lower (s : string) :
  PyStr.contains "_" (PyStr.lower s) = PyStr.contains "_" s.
Proof.
  induction s as [|c s IH]; simpl; [reflexivity|].
  now rewrite lower_char_underscore, IH.
Qed.

Lemma str_in_without_underscored (s : string) (l : list string) :
  PyStr.contains "_" s = false ->
  str_in s (List.filter (fun t => negb (PyStr.contains "_" t)) l)
  = str_in s l.
Proof.
  intros Hs. induction l as [|t l IH]; simpl; [reflexivity|].
  destruct (PyStr.contains "_" t) eqn:Ht; simpl.
  - rewrite IH. destruct (String.eqb_spec s t) as [->|_]; [|reflexivity].
    congruence.
  - now rewrite IH.
Qed.

(** X13: replacing underscores keeps the labels aligned with the
    probabilities (same number, same lengths), leaves no underscore
    behind and changes nothing in a label that has none.  So while
    [replace_underscore] is on, an exclusion term that contains an
    underscore can match no label: dropping such terms from the list
    changes no result. *)
Theorem X13_underscores_and_exclusion
  (threshold : spec_float) (exclude_list : list string)
  (tags : list string) (probs : list spec_float)
  (replace_underscore : bool) :
  length (process_tags replace_underscore tags) = length tags
  /\ (forall tag,
        PyStr.contains "_" (process_tag true tag) = false
        /\ String.length (process_tag true tag) = String.length tag)
  /\ (forall tag, PyStr.contains "_" tag = false ->
                  process_tag true tag = tag)
  /\ filter_tags threshold exclude_list (process_tags true tags) probs
     = filter_tags threshold
         (List.filter (fun t => negb (PyStr.contains "_" t)) exclude_list)
         (process_tags true tags) probs.
Proof.
  split; [|split; [|split]].
  - now rewrite process_tags_map, List.length_map.
  - intros tag. split;
      [apply replace_underscore_clean | apply replace_underscore_length].
  - intros tag. apply replace_underscore_id.
  - rewrite !filter_tags_flat_map, process_tags_map,
      !flat_map_combine_map.
    apply List.flat_map_ext. intros [tag prob]. simpl.
    unfold contribution, keep_tag. simpl.
    rewrite str_in_without_underscored; [reflexivity|].
    rewrite contains_underscore_lower. apply replace_underscore_clean.
Qed.

(** ** The letterbox *)

(** X14: when the scaled image fits the square, it is pasted inside it:
    both offsets are non-negative, the image ends within the edge, the
    margin after it is the margin before it or one pixel more, and every
    tensor entry in the margins is the float 255 in all three channels. *)
Theorem X14_letterbox_margins
  (w : World) (a : NdArray.t) (edge : Z) (ratio : spec_float)
  (new_w new_h : Z) :
  resize_ratio edge (fromarray a) = Some ratio ->
  scaled_size (fromarray a) ratio = Some (new_w, new_h) ->
  (0 < new_w <= edge)%Z ->
  (0 < new_h <= edge)%Z ->
  let off_x := fst (paste_pos edge (new_w, new_h)) in
  let off_y := snd (paste_pos edge (new_w, new_h)) in
  (0 <= off_x /\ off_x + new_w <= edge
   /\ 0 <= (edge - new_w - off_x) - off_x <= 1)%Z
  /\ (0 <= off_y /\ off_y + new_h <= edge
      /\ 0 <= (edge - new_h - off_y) - off_y <= 1)%Z
  /\ exists plane,
       preprocess w (DimInt edge) a = Some (Some [plane])
       /\ forall (x y : Z) (c : nat),
            (0 <= x < edge)%Z -> (0 <= y < edge)%Z -> (c < 3)%nat ->
            (x < off_x \/ off_x + new_w <= x
             \/ y < off_y \/ off_y + new_h <= y)%Z ->
            tensor_at [plane] 0 (Z.to_nat y) (Z.to_nat x) c
            = Some (astype_float32 255).
Proof.
  intros Hratio Hsize Hw Hh off_x off_y.
  subst off_x off_y. unfold paste_pos. simpl.
  split; [Z.div_mod_to_equations; lia|].
  split; [Z.div_mod_to_equations; lia|].
  assert (Hinv : invalid_size (new_w, new_h) = false).
  { unfold invalid_size. simpl. apply orb_false_iff.
    split; apply Z.leb_gt; lia. }
  set (square := paste (Image_new (edge, edge) (255, 255, 255)%Z)
                   (resize w (fromarray a) (new_w, new_h))
                   (paste_pos edge (new_w, new_h))).
  destruct (to_model_input_shape square) as [plane [Hin _]].
  exists plane. split.
  - unfold preprocess. rewrite Hratio, Hsize, Hinv. fold square.
    now rewrite Hin.
  - intros x y c Hx Hy Hc Hout. rewrite <- Hin.
    rewrite (to_model_input_at square x y c Hx Hy).
    subst square. rewrite letterbox_getpixel. unfold letterbox_spec.
    simpl.
    assert (Hbox :
      (((edge - new_w) / 2 <=? x) && (x <? (edge - new_w) / 2 + new_w)
       && ((edge - new_h) / 2 <=? y) && (y <? (edge - new_h) / 2 + new_h)
       = false)%Z).
    { destruct Hout as [H|[H|[H|H]]].
      - apply Z.leb_gt in H. now rewrite H.
      - apply Z.ltb_ge in H. rewrite H. now rewrite andb_false_r.
      - apply Z.leb_gt in H. rewrite H. now rewrite andb_false_r.
      - apply Z.ltb_ge in H. rewrite H. now rewrite andb_false_r. }
    rewrite Hbox. destruct c as [|[|[|c]]]; try reflexivity. lia.
Qed.

Lemma X14_witness :
  paste_pos 8 (8, 4)%Z = (0, 2)%Z
  /\ tensor_at Fixture.grey_input 0 1 5 2 = Some (astype_float32 255)
  /\ tensor_at Fixture.grey_input 0 6 5 2 = Some (astype_float32 255).
Proof.
  destruct (X14_letterbox_margins Fixture.world Fixture.grey 8
              (Fixture.b64 2) 8 4 eq_refl eq_refl ltac:(lia) ltac:(lia))
    as [_ [_ [plane [Hpre Hwhite]]]].
  assert (Hc : preprocess Fixture.world (DimInt 8) Fixture.grey
               = Some (Some Fixture.grey_input))
    by (vm_compute; reflexivity).
  assert (Hplane : [plane] = Fixture.grey_input) by congruence.
  split; [reflexivity|]. rewrite <- Hplane. split.
  - apply (Hwhite 5%Z 1%Z 2%nat); unfold paste_pos; simpl;
      Z.div_mod_to_equations; lia.
  - apply (Hwhite 5%Z 6%Z 2%nat); unfold paste_pos; simpl;
      Z.div_mod_to_equations; lia.
Defined.

(** ** The model dropdown *)

Lemma fold_left_append_flat_map {A B : Type} (f : A -> list B)
  (g : list B -> A -> list B) (l : list A) (acc : list B) :
  (forall acc a, g acc a = (acc ++ f a)%list) ->
  List.fold_left g l acc = (acc ++ List.flat_map f l)%list.
Proof.
  intros Hg. revert acc. induction l as [|a l IH]; intros acc; simpl.
  - now rewrite List.app_nil_r.
  - now rewrite IH, Hg, <- List.app_assoc.
Qed.

Lemma str_in_filter (p : string -> bool) (s : string) (l : list string) :
  str_in s (List.filter p l) = str_in s l && p s.
Proof.
  apply eq_true_iff_eq. rewrite andb_true_iff, !str_in_In.
  rewrite List.filter_In. reflexivity.
Qed.

Lemma available_iff_registered (model_name : string) :
  List.In model_name get_available_models
  <-> is_Some (MODEL_CONFIGS !! model_name).
Proof.
  split.
  - intros Hin. unfold get_available_models, MODEL_CONFIGS_items in Hin.
    simpl in Hin.
    destruct Hin as [<-|[<-|[<-|[<-|[]]]]]; vm_compute; eauto.
  - intros [config Hcfg].
    destruct (registered_config model_name config Hcfg) as [_ [_ Hname]].
    destruct Hname as [->|[->|[->| ->]]]; vm_compute; auto.
Qed.

Lemma local_models_In (w : World) (model_dir_exists : bool)
  (fs : gmap string string) (model_name : string) (config : Config.t) :
  MODEL_CONFIGS !! model_name = Some config ->
  str_in model_name (local_models w model_dir_exists fs)
  = model_dir_exists
    && file_exists fs (onnx_path w model_name)
    && file_exists fs (labels_path w model_name).
Proof.
  intros Hcfg. unfold local_models.
  destruct model_dir_exists; [|reflexivity].
  rewrite str_in_filter.
  assert (Hin : str_in model_name get_available_models = true).
  { apply (proj2 (str_in_In _ _)).
    apply (proj2 (available_iff_registered _)). exists config. exact Hcfg. }
  now rewrite Hin.
Qed.

Lemma get_model_choices_flat_map (w : World) (model_dir_exists : bool)
  (fs : gmap string string) :
  get_model_choices w model_dir_exists fs
  = List.flat_map
      (fun model_name =>
         match MODEL_CONFIGS !! model_name with
         | Some config =>
             [choice_of w model_dir_exists fs model_name config]
         | None => []
         end)
      get_available_models.
Proof.
  unfold get_model_choices.
  rewrite (fold_left_append_flat_map
             (fun model_name =>
                match MODEL_CONFIGS !! model_name with
                | Some config =>
                    [choice_of w model_dir_exists fs model_name config]
                | None => []
                end)); [reflexivity|].
  intros acc model_name.
  destruct (MODEL_CONFIGS !! model_name) as [config|] eqn:Hcfg.
  - unfold choice_of.
    now rewrite (local_models_In w model_dir_exists fs model_name config).
  - now rewrite List.app_nil_r.
Qed.

(** Decoding undoes the encoding for a name without a bar. *)
Lemma split_bar_prefix (model_name rest : string) :
  PyStr.contains "|" model_name = false ->
  PyStr.split "|" (model_name ++ String "|" rest)
  = model_name :: PyStr.split "|" rest.
Proof.
  induction model_name as [|c s IH]; intros Hc.
  - reflexivity.
  - simpl in Hc. apply orb_false_iff in Hc as [Hc Hs].
    rewrite string_app_cons. simpl. rewrite Hc, (IH Hs). reflexivity.
Qed.

Lemma contains_bar_app (model_name rest : string) :
  PyStr.contains "|" (model_name ++ String "|" rest) = true.
Proof.
  induction model_name as [|c s IH]; [reflexivity|].
  rewrite string_app_cons. simpl. rewrite IH. apply orb_true_r.
Qed.

Lemma model_name_of_encoded (model_name rest : string) :
  PyStr.contains "|" model_name = false ->
  model_name_of (model_name ++ "|" ++ rest) = model_name.
Proof.
  intros Hc. unfold model_name_of.
  change (model_name ++ "|" ++ rest)
    with (model_name ++ String "|" rest).
  now rewrite contains_bar_app, (split_bar_prefix _ _ Hc).
Qed.

Lemma registered_name_has_no_bar (model_name : string) (config : Config.t) :
  MODEL_CONFIGS !! model_name = Some config ->
  PyStr.contains "|" model_name = false.
Proof.
  intros Hcfg. destruct (registered_config _ _ Hcfg) as [_ [_ Hname]].
  destruct Hname as [->|[->|[->| ->]]]; reflexivity.
Qed.

(** X15: the dropdown and [tag_batch] agree.  Every entry the dropdown
    offers decodes, by the rule [tag_batch] applies, to a registered model
    name, the one the entry was built from; the entry shows the check
    mark exactly when the models directory exists and both files of that
    model are on disk; and every registered model has its entry. *)
Theorem X15_dropdown_entries_decode_to_registered_models
  (w : World) (model_dir_exists : bool) (fs : gmap string string) :
  (forall choice,
     List.In choice (get_model_choices w model_dir_exists fs) ->
     exists config,
       MODEL_CONFIGS !! model_name_of choice = Some config
       /\ choice
          = choice_of w model_dir_exists fs (model_name_of choice) config)
  /\ (forall model_name config,
        MODEL_CONFIGS !! model_name = Some config ->
        List.In (choice_of w model_dir_exists fs model_name config)
          (get_model_choices w model_dir_exists fs)
        /\ model_name_of (choice_of w model_dir_exists fs model_name config)
           = model_name)
  /\ length (get_model_choices w model_dir_exists fs) = 4%nat.
Proof.
  rewrite get_model_choices_flat_map.
  assert (Hdecode : forall model_name config,
            MODEL_CONFIGS !! model_name = Some config ->
            model_name_of (choice_of w model_dir_exists fs model_name config)
            = model_name).
  { intros model_name config Hcfg. unfold choice_of.
    apply model_name_of_encoded.
    exact (registered_name_has_no_bar model_name config Hcfg). }
  split; [|split].
  - intros choice Hin.
    destruct (proj1 (List.in_flat_map _ _ _) Hin) as [name [_ Hname]].
    clear Hin. rename Hname into Hin.
    destruct (MODEL_CONFIGS !! name) as [config|] eqn:Hcfg;
      [|contradiction].
    destruct Hin as [<-|[]]. exists config.
    now rewrite (Hdecode name config Hcfg).
  - intros model_name config Hcfg. split; [|now apply Hdecode].
    apply (proj2 (List.in_flat_map _ _ _)). exists model_name. split.
    + apply (proj2 (available_iff_registered _)). exists config.
      exact Hcfg.
    + rewrite Hcfg. now left.
  - assert (Hkeys : get_available_models
                    = ["wd-vit-tagger-v3"; "wd-swinv2-tagger-v3";
                       "wd-eva02-large-tagger-v3"; "wd-convnext-tagger-v3"])
      by reflexivity.
    rewrite Hkeys. simpl.
    repeat match goal with
      | |- context [MODEL_CONFIGS !! ?k] =>
          let H := fresh in
          destruct (MODEL_CONFIGS !! k) eqn:H;
          [|vm_compute in H; discriminate]
      end.
    reflexivity.
Qed.

(** ** The image loader *)

Lemma compare_not_Gt_trans (x y z : string) :
  String.compare x y <> Gt -> String.compare y z <> Gt ->
  String.compare x z <> Gt.
Proof.
  revert y z.
  induction x as [|a x IH]; intros [|b y] [|c z]; simpl; try congruence.
  unfold Ascii.compare.
  destruct (N.compare_spec (N_of_ascii a) (N_of_ascii b)) as [Hab|Hab|Hab],
           (N.compare_spec (N_of_ascii b) (N_of_ascii c)) as [Hbc|Hbc|Hbc],
           (N.compare_spec (N_of_ascii a) (N_of_ascii c)) as [Hac|Hac|Hac];
    try congruence; try lia.
  apply IH.
Qed.

Lemma leb_not_Gt (x y : string) :
  String.leb x y = true <-> String.compare x y <> Gt.
Proof.
  unfold String.leb. destruct (String.compare x y); split; congruence.
Qed.

Lemma string_leb_trans (x y z : string) :
  String.leb x y = true -> String.leb y z = true -> String.leb x z = true.
Proof. rewrite !leb_not_Gt. apply compare_not_Gt_trans. Qed.

Lemma sorted_ascending (names : list string) :
  Sorted.StronglySorted (fun x y => String.leb x y = true) (sorted names).
Proof.
  apply Sorted.Sorted_StronglySorted.
  - intros x y z. apply string_leb_trans.
  - apply (PathSort.Sorted_sort names).
Qed.

Lemma sorted_In (names : list string) (n : string) :
  List.In n (sorted names) <-> List.In n names.
Proof.
  pose proof (PathSort.Permuted_sort names) as Hperm. split; intros Hin.
  - eapply Permutation.Permutation_in; [symmetry; exact Hperm | exact Hin].
  - eapply Permutation.Permutation_in; [exact Hperm | exact Hin].
Qed.

Lemma sorted_length (names : list string) :
  length (sorted names) = length names.
Proof.
  symmetry. apply Permutation.Permutation_length, PathSort.Permuted_sort.
Qed.

Lemma load_one_decoded (d : Disk) (folder_path : string)
  (images : list NdArray.t) (filenames : list string) (n : string) :
  load_one d folder_path (images, filenames) n
  = ((images ++ List.map fst (decoded d folder_path n))%list,
     (filenames ++ List.map snd (decoded d folder_path n))%list).
Proof.
  unfold load_one, decoded, image_is_empty.
  destruct (Image_open d (Pathlib.joinpath folder_path n)) as [arr|];
    [|now rewrite !List.app_nil_r].
  destruct ((NdArray.size arr =? 0)%Z || (NdArray.shape0 arr =? 0)%Z
            || (NdArray.shape1 arr =? 0)%Z);
    [now rewrite !List.app_nil_r | reflexivity].
Qed.

Lemma load_loop (d : Disk) (folder_path : string) (l : list string)
  (images : list NdArray.t) (filenames : list string) :
  List.fold_left (load_one d folder_path) l (images, filenames)
  = ((images ++ List.map fst (List.flat_map (decoded d folder_path) l))%list,
     (filenames
        ++ List.map snd (List.flat_map (decoded d folder_path) l))%list).
Proof.
  revert images filenames.
  induction l as [|n l IH]; intros images filenames;
    cbn [List.fold_left List.flat_map].
  - simpl. now rewrite !List.app_nil_r.
  - rewrite load_one_decoded, IH, !List.map_app, !List.app_assoc.
    reflexivity.
Qed.

Lemma decoded_In (d : Disk) (folder_path n : string) (a : NdArray.t)
  (m : string) :
  List.In (a, m) (decoded d folder_path n)
  <-> m = n
      /\ Image_open d (Pathlib.joinpath folder_path n) = Some a
      /\ image_is_empty (Some a) = false.
Proof.
  unfold decoded.
  destruct (Image_open d (Pathlib.joinpath folder_path n)) as [arr|];
    [|split; [intros [] | intros [_ [H _]]; discriminate]].
  destruct (image_is_empty (Some arr)) eqn:He; cbn [List.In]; split.
  - intros [].
  - intros [_ [H He']]. inversion H; subst. congruence.
  - intros [H|[]]. inversion H; subst. auto.
  - intros [-> [H _]]. inversion H; subst. now left.
Qed.

Lemma decoded_names_sorted (d : Disk) (folder_path : string)
  (l : list string) :
  Sorted.StronglySorted (fun x y => String.leb x y = true) l ->
  Sorted.StronglySorted (fun x y => String.leb x y = true)
    (List.map snd (List.flat_map (decoded d folder_path) l)).
Proof.
  induction 1 as [|n l Hs IH Hall]; simpl; [constructor|].
  rewrite List.map_app. unfold decoded at 1.
  destruct (Image_open d (Pathlib.joinpath folder_path n)) as [arr|];
    [|exact IH].
  destruct (image_is_empty (Some arr)); [exact IH|].
  simpl. constructor; [exact IH|].
  apply List.Forall_forall. intros m Hm.
  apply List.in_map_iff in Hm as [[a m'] [Hsnd Hin]]. simpl in Hsnd. subst m'.
  apply List.in_flat_map in Hin as [k [Hk Hin]].
  apply decoded_In in Hin as [-> _].
  exact (proj1 (List.Forall_forall _ _) Hall k Hk).
Qed.

Lemma load_images_listed (d : Disk) (folder_path : string) (st : state)
  (entries : list string) :
  PyStr.truthy folder_path = true ->
  os_path_exists d folder_path = true ->
  iterdir d folder_path = Some entries ->
  let kept :=
    List.flat_map (decoded d folder_path)
      (sorted (List.filter (is_candidate d folder_path) entries)) in
  load_images d folder_path st
  = ((List.map fst kept, List.map snd kept, folder_path),
     set_batch_progress
       (init_progress
          (length (List.filter (is_candidate d folder_path) entries))
          (batch_progress st)) st).
Proof.
  intros Ht He Hl kept. unfold load_images.
  rewrite Ht, He, Hl. simpl. rewrite load_loop, sorted_length. reflexivity.
Qed.

Lemma load_images_nothing (d : Disk) (folder_path : string) (st : state) :
  PyStr.truthy folder_path = false \/ os_path_exists d folder_path = false
  \/ iterdir d folder_path = None ->
  load_images d folder_path st = (([], [], folder_path), st).
Proof.
  unfold load_images. intros [H|[H|H]]; rewrite H; simpl.
  - reflexivity.
  - now rewrite orb_true_r.
  - now destruct (_ || _).
Qed.

Lemma load_images_cases (d : Disk) (folder_path : string) :
  (PyStr.truthy folder_path = false \/ os_path_exists d folder_path = false
   \/ iterdir d folder_path = None)
  \/ exists entries,
       PyStr.truthy folder_path = true
       /\ os_path_exists d folder_path = true
       /\ iterdir d folder_path = Some entries.
Proof.
  destruct (PyStr.truthy folder_path); [|now left; left].
  destruct (os_path_exists d folder_path); [|now left; right; left].
  destruct (iterdir d folder_path) as [entries|];
    [right; eauto | now left; right; right].
Qed.

(** X16: what [load_images] returns.  The third component is the folder
    path it was given.  The two lists run in step: the i-th file name
    names an entry of the folder that is a regular file with a supported
    extension (in any letter case), and the i-th image is what that file
    decodes to and has pixels.  The file names come in ascending order.
    Nothing that qualifies is left out. *)
Theorem X16_loaded_images_match_their_filenames
  (d : Disk) (folder_path : string) (st : state) :
  let r := fst (load_images d folder_path st) in
  let images := fst (fst r) in
  let filenames := snd (fst r) in
  snd r = folder_path
  /\ List.Forall2
       (fun a n =>
          Image_open d (Pathlib.joinpath folder_path n) = Some a
          /\ image_is_empty (Some a) = false
          /\ is_candidate d folder_path n = true
          /\ exists entries,
               iterdir d folder_path = Some entries /\ List.In n entries)
       images filenames
  /\ Sorted.StronglySorted (fun x y => String.leb x y = true) filenames
  /\ (forall entries n a,
        PyStr.truthy folder_path = true ->
        os_path_exists d folder_path = true ->
        iterdir d folder_path = Some entries ->
        List.In n entries ->
        is_candidate d folder_path n = true ->
        Image_open d (Pathlib.joinpath folder_path n) = Some a ->
        image_is_empty (Some a) = false ->
        List.In n filenames /\ List.In a images).
Proof.
  intros r images filenames. subst images filenames r.
  destruct (load_images_cases d folder_path)
    as [Hbad | [entries [Ht [He Hl]]]].
  - rewrite (load_images_nothing d folder_path st Hbad). simpl.
    split; [reflexivity|]. split; [constructor|]. split; [constructor|].
    intros entries n a Ht He Hl. destruct Hbad as [H|[H|H]]; congruence.
  - rewrite (load_images_listed d folder_path st entries Ht He Hl). simpl.
    split; [reflexivity|].
    set (cands := sorted (List.filter (is_candidate d folder_path) entries)).
    assert (Hcands : forall n, List.In n cands <->
              List.In n entries /\ is_candidate d folder_path n = true).
    { intros n. unfold cands. rewrite sorted_In. apply List.filter_In. }
    split; [|split].
    + assert (Hall : List.Forall
                (fun p => let '(a, n) := p in
                   Image_open d (Pathlib.joinpath folder_path n) = Some a
                   /\ image_is_empty (Some a) = false
                   /\ is_candidate d folder_path n = true
                   /\ exists entries,
                        iterdir d folder_path = Some entries
                        /\ List.In n entries)
                (List.flat_map (decoded d folder_path) cands)).
      { apply List.Forall_forall. intros [a n] Hin.
        destruct (proj1 (List.in_flat_map _ _ _) Hin) as [k [Hk Hd]].
        apply decoded_In in Hd as [-> [Ho Hne]].
        apply Hcands in Hk as [Hk Hc]. eauto 6. }
      induction Hall as [|[a n] kept Hhd _ IH]; simpl; constructor; auto.
    + apply decoded_names_sorted, sorted_ascending.
    + intros entries' n a _ _ Hl' Hn Hc Ho Hne.
      assert (entries' = entries) by congruence. subst entries'.
      assert (Hin : List.In (a, n)
                      (List.flat_map (decoded d folder_path) cands)).
      { apply (proj2 (List.in_flat_map _ _ _)). exists n. split.
        - apply Hcands. auto.
        - apply decoded_In. auto. }
      split.
      * apply List.in_map_iff. exists (a, n). auto.
      * apply List.in_map_iff. exists (a, n). auto.
Qed.

(** X17: the only state [load_images] touches is the progress object.
    A folder path that is empty or does not exist, or a folder that
    cannot be listed, gives two empty lists with the folder path as it
    was given, and changes nothing.
    Otherwise the progress object is reset with the number of candidate
    files as total, counted before any of them is opened; so the total
    is at least the number of images returned, and exceeds it by the
    number of files that were skipped. *)
Theorem X17_progress_total_counts_candidates
  (d : Disk) (folder_path : string) (st : state) :
  let r := load_images d folder_path st in
  let images := fst (fst (fst r)) in
  let filenames := snd (fst (fst r)) in
  model_cache (snd r) = model_cache st
  /\ files (snd r) = files st
  /\ trace (snd r) = trace st
  /\ length images = length filenames
  /\ (PyStr.truthy folder_path = false
      \/ os_path_exists d folder_path = false
      \/ iterdir d folder_path = None ->
      fst r = ([], [], folder_path) /\ snd r = st)
  /\ (forall entries,
        PyStr.truthy folder_path = true ->
        os_path_exists d folder_path = true ->
        iterdir d folder_path = Some entries ->
        let candidates :=
          List.filter (is_candidate d folder_path) entries in
        batch_progress (snd r)
        = {| Progress.pbar := Some 0%nat;
             Progress.current_image := 0;
             Progress.total_images := length candidates;
             Progress.model_loaded := false |}
        /\ length images
           = length (List.flat_map (decoded d folder_path) candidates)
        /\ (length images <= length candidates)%nat).
Proof.
  intros r images filenames. subst images filenames r.
  destruct (load_images_cases d folder_path)
    as [Hbad | [entries [Ht [He Hl]]]].
  - rewrite (load_images_nothing d folder_path st Hbad). simpl.
    repeat (split; [reflexivity|]). split; [auto|].
    intros entries Ht He Hl. destruct Hbad as [H|[H|H]]; congruence.
  - rewrite (load_images_listed d folder_path st entries Ht He Hl). simpl.
    repeat (split; [reflexivity|]).
    split; [now rewrite !List.length_map|].
    split; [intros [H|[H|H]]; congruence|].
    intros entries' _ _ Hl'.
    assert (entries' = entries) by congruence. subst entries'.
    split; [reflexivity|].
    rewrite List.length_map.
    assert (Hcount : forall l l',
              Permutation.Permutation l l' ->
              length (List.flat_map (decoded d folder_path) l)
              = length (List.flat_map (decoded d folder_path) l')).
    { induction 1; simpl; rewrite ?List.length_app; lia. }
    assert (Hle : forall l,
              (length (List.flat_map (decoded d folder_path) l)
               <= length l)%nat).
    { induction l as [|n l IH]; simpl; [lia|].
      rewrite List.length_app. unfold decoded at 1.
      destruct (Image_open d (Pathlib.joinpath folder_path n)) as [arr|];
        [destruct (image_is_empty (Some arr))|]; simpl; lia. }
    unfold sorted.
    rewrite <- (Hcount _ _ (PathSort.Permuted_sort
                   (List.filter (is_candidate d folder_path) entries))).
    split; [reflexivity | apply Hle].
Qed.

(** ** From the loader to the tagger *)

Lemma loaded_image_nonempty (d : Disk) (folder_path : string) (st : state)
  (a : NdArray.t) :
  List.In a (fst (fst (fst (load_images d folder_path st)))) ->
  image_is_empty (Some a) = false.
Proof.
  destruct (load_images_cases d folder_path)
    as [Hbad | [entries [Ht [He Hl]]]].
  - rewrite (load_images_nothing d folder_path st Hbad). intros [].
  - rewrite (load_images_listed d folder_path st entries Ht He Hl). simpl.
    intros Hin. apply List.in_map_iff in Hin as [[a' n] [Hfst Hin]].
    simpl in Hfst. subst a'.
    destruct (proj1 (List.in_flat_map _ _ _) Hin) as [k [_ Hd]].
    now apply decoded_In in Hd as [_ [_ Hne]].
Qed.

Lemma tag_with_cache_nonempty (w : World) (a : NdArray.t)
  (filename folder_path : string) (threshold : spec_float)
  (replace_underscore : bool) (prepend_tags exclude_tags : string)
  (st : state) :
  image_is_empty (Some a) = false ->
  let r := fst (tag_with_cache w (Some a) filename folder_path threshold
                  replace_underscore prepend_tags exclude_tags st) in
  r = Raised \/ r = Ok (Failed InvalidResize)
  \/ exists output_tags, r = Ok (Tagged output_tags).
Proof.
  intros He r. subst r.
  unfold tag_with_cache, bind, gets, of_option, ret, raise, run_session.
  rewrite He.
  destruct (Cache.tags (model_cache st)) as [tags|]; simpl; [|now left].
  destruct (preprocess w (Cache.input_size (model_cache st)) a)
    as [[inp|]|]; simpl; [|now right; left|now left].
  destruct (Cache.session (model_cache st)) as [sess|]; simpl; [|now left].
  destruct (Cache.input_name (model_cache st)) as [input_name|];
    simpl; [|now left].
  destruct (session_run w sess input_name inp) as [probs|];
    simpl; [|now left].
  right; right. unfold try_except, write_text, modify.
  destruct (PyStr.truthy folder_path); simpl; [|eauto].
  match goal with
  | |- context [if ?b then _ else _] => destruct b
  end; simpl; eauto.
Qed.

(** X18: the two nodes fit.  An image that [load_images] returned is
    never turned away by [tag_batch] as empty: the call tags it, or fails
    because the model did not load, the resize dimensions were invalid
    or something raised. *)
Theorem X18_loaded_images_are_not_rejected_as_empty
  (d : Disk) (source_folder : string) (st0 : state) (a : NdArray.t)
  (w : World) (filename folder_path model : string)
  (threshold character_threshold : spec_float)
  (replace_underscore use_gpu : bool) (prepend_tags exclude_tags : string)
  (st : state) :
  List.In a (fst (fst (fst (load_images d source_folder st0)))) ->
  let o :=
    fst (tag_batch_outcome w (Some a) filename folder_path model threshold
           character_threshold replace_underscore use_gpu prepend_tags
           exclude_tags st) in
  (exists output_tags, o = Tagged output_tags)
  \/ o = Failed LoadFailed \/ o = Failed InvalidResize
  \/ o = Failed Exception.
Proof.
  intros Hin o. subst o.
  pose proof (loaded_image_nonempty d source_folder st0 a Hin) as He.
  destruct (tag_batch_outcome_split w (Some a) filename folder_path model
              threshold character_threshold replace_underscore use_gpu
              prepend_tags exclude_tags st) as [b [st1 [_ Hbody]]].
  unfold tag_batch_outcome. rewrite Hbody.
  destruct b; simpl; [|now right; left].
  pose proof (tag_with_cache_nonempty w a filename folder_path threshold
                replace_underscore prepend_tags exclude_tags st1 He) as Hc.
  simpl in Hc.
  destruct (tag_with_cache w (Some a) filename folder_path threshold
              replace_underscore prepend_tags exclude_tags st1)
    as [[o|] st2]; simpl in *.
  - destruct Hc as [Hc|[Hc|[s Hc]]]; [discriminate| |]; inversion Hc; eauto.
  - now right; right; right.
Qed.

Lemma X18_witness :
  List.In Fixture.grey
    (fst (fst (fst (load_images Album.disk "/in" Fixture.fresh))))
  /\ let o :=
       fst (tag_batch_outcome Fixture.world (Some Fixture.grey) "a.jpg"
              "/in" Fixture.vit (Fixture.frac 35 100) (Fixture.frac 85 100)
              true false "" "" Fixture.loaded) in
     (exists output_tags, o = Tagged output_tags)
     \/ o = Failed LoadFailed \/ o = Failed InvalidResize
     \/ o = Failed Exception.
Proof.
  assert (Hin : List.In Fixture.grey
                  (fst (fst (fst (load_images Album.disk "/in"
                                    Fixture.fresh)))))
    by (vm_compute; left; reflexivity).
  split; [exact Hin|].
  exact (X18_loaded_images_are_not_rejected_as_empty Album.disk "/in"
           Fixture.fresh Fixture.grey Fixture.world "a.jpg" "/in"
           Fixture.vit (Fixture.frac 35 100) (Fixture.frac 85 100) true
           false "" "" Fixture.loaded Hin).
Defined.

(** ** The name of the tags file *)

Lemma rfind_absent (c : ascii) (s : string) (i : nat) :
  PyStr.contains c s = false -> Pathlib.rfind c s i = None.
Proof.
  revert i. induction s as [|x s IH]; intros i; simpl; [reflexivity|].
  intros Hc. apply orb_false_iff in Hc as [Hx Hs].
  now rewrite (IH _ Hs), Hx.
Qed.

Lemma rfind_last (c : ascii) (base ext : string) (i : nat) :
  PyStr.contains c ext = false ->
  Pathlib.rfind c (base ++ String c ext) i
  = Some (i + String.length base)%nat.
Proof.
  intros Hc. revert i. induction base as [|x base IH]; intros i.
  - simpl. rewrite (rfind_absent c ext _ Hc), Ascii.eqb_refl.
    f_equal. lia.
  - rewrite string_app_cons. simpl. rewrite IH. f_equal. lia.
Qed.

Lemma string_length_app (s t : string) :
  String.length (s ++ t) = (String.length s + String.length t)%nat.
Proof.
  induction s as [|c s IH]; [reflexivity|].
  rewrite string_app_cons. simpl. now rewrite IH.
Qed.

Lemma substring_prefix (s t : string) :
  String.substring 0 (String.length s) (s ++ t) = s.
Proof.
  induction s as [|c s IH].
  - destruct t; reflexivity.
  - rewrite string_app_cons. simpl. now rewrite IH.
Qed.

Lemma substring_all (t : string) :
  String.substring 0 (String.length t) t = t.
Proof.
  induction t as [|c t IH]; [reflexivity|]. simpl. now rewrite IH.
Qed.

Lemma substring_rest (s t : string) :
  String.substring (String.length s) (String.length t) (s ++ t) = t.
Proof.
  induction s as [|c s IH].
  - apply substring_all.
  - rewrite string_app_cons. simpl. exact IH.
Qed.

Lemma name_of_plain (n : string) :
  PyStr.contains "/" n = false -> PyStr.is_empty n = false ->
  String.eqb n "." = false -> Pathlib.name n = n.
Proof.
  intros Hslash Hempty Hdot. unfold Pathlib.name, Pathlib.parts.
  rewrite (split_without_sep _ _ Hslash). simpl.
  now rewrite Hempty, Hdot.
Qed.

Lemma dotted_name (base ext : string) :
  PyStr.truthy base = true -> PyStr.contains "/" base = false ->
  PyStr.contains "/" ext = false ->
  Pathlib.name (base ++ "." ++ ext) = base ++ "." ++ ext.
Proof.
  intros Hb Hbs Hes. apply name_of_plain.
  - rewrite contains_app, Hbs. simpl.
    change ("." ++ ext) with (String "." ext). simpl. exact Hes.
  - destruct base; [discriminate | reflexivity].
  - destruct base as [|c base]; [discriminate|].
    rewrite string_app_cons. simpl.
    destruct (Ascii.eqb c "."); [|reflexivity].
    destruct base; reflexivity.
Qed.

Lemma stem_and_suffix (base ext : string) :
  PyStr.truthy base = true -> PyStr.contains "/" base = false ->
  PyStr.truthy ext = true -> PyStr.contains "." ext = false ->
  PyStr.contains "/" ext = false ->
  Pathlib.stem (base ++ "." ++ ext) = base
  /\ suffix (base ++ "." ++ ext) = "." ++ ext.
Proof.
  intros Hb Hbs He Hed Hes. unfold Pathlib.stem, suffix.
  rewrite (dotted_name base ext Hb Hbs Hes).
  change ("." ++ ext) with (String "." ext).
  rewrite (rfind_last "." base ext 0 Hed), string_length_app. simpl.
  assert (Hlb : (0 < String.length base)%nat)
    by (destruct base; [discriminate | simpl; lia]).
  assert (Hle : (0 < String.length ext)%nat)
    by (destruct ext; [discriminate | simpl; lia]).
  assert (H1 : (0 <? String.length base)%nat = true)
    by now apply Nat.ltb_lt.
  assert (H2 : (String.length base
                <? String.length base + S (String.length ext) - 1)%nat
               = true) by (apply Nat.ltb_lt; lia).
  rewrite H1, H2. simpl. split.
  - apply substring_prefix.
  - replace (String.length base + S (String.length ext)
             - String.length base)%nat
      with (String.length (String "." ext)) by (simpl; lia).
    apply substring_rest.
Qed.

(** X19: the tags file is named after the image with its last extension
    replaced.  For a file name [<base>.<ext>] ([base] and [ext] not
    empty, no slash in either, no dot in [ext]) the loader tests the
    extension [.<ext>] and the tagger writes [<folder>/<base>.txt]; the
    extension plays no part in the name of the tags file. *)
Theorem X19_tags_file_replaces_the_extension
  (folder_path base ext : string) :
  PyStr.truthy base = true -> PyStr.contains "/" base = false ->
  PyStr.truthy ext = true -> PyStr.contains "." ext = false ->
  PyStr.contains "/" ext = false ->
  suffix (base ++ "." ++ ext) = "." ++ ext
  /\ txt_path_of folder_path (base ++ "." ++ ext)
     = Pathlib.joinpath folder_path (base ++ ".txt").
Proof.
  intros Hb Hbs He Hed Hes.
  destruct (stem_and_suffix base ext Hb Hbs He Hed Hes) as [Hstem Hsuf].
  split; [exact Hsuf|]. unfold txt_path_of. now rewrite Hstem.
Qed.

Lemma X19_witness :
  suffix "holiday.2023.JPG" = ".JPG"
  /\ txt_path_of "/in" "holiday.2023.JPG" = "/in/holiday.2023.txt".
Proof.
  exact (X19_tags_file_replaces_the_extension "/in" "holiday.2023" "JPG"
           eq_refl eq_refl eq_refl eq_refl eq_refl).
Defined.

Lemma tag_batch_hit_writes (w : World) (a : NdArray.t)
  (filename folder_path model : string)
  (threshold character_threshold : spec_float)
  (replace_underscore use_gpu : bool) (prepend_tags exclude_tags : string)
  (st : state) (sess : Session.t) (tags : list string)
  (input_name : string) (inp : tensor) (probs : list spec_float) :
  Cache.model_name (model_cache st) = Some (model_name_of model) ->
  Cache.session (model_cache st) = Some sess ->
  Cache.tags (model_cache st) = Some tags ->
  Cache.input_name (model_cache st) = Some input_name ->
  image_is_empty (Some a) = false ->
  preprocess w (Cache.input_size (model_cache st)) a = Some (Some inp) ->
  session_run w sess input_name inp = Some probs ->
  PyStr.truthy folder_path = true ->
  open_w w (txt_path_of folder_path filename) (files st) = true ->
  let r := tag_batch w (Some a) filename folder_path model threshold
             character_threshold replace_underscore use_gpu prepend_tags
             exclude_tags st in
  model_cache (snd r) = model_cache st
  /\ files (snd r)
     = <[txt_path_of folder_path filename := fst r]> (files st).
Proof.
  intros Hname Hs Ht Hn He Hp Hr Hfolder Hopen r. subst r.
  unfold tag_batch, tag_batch_outcome.
  rewrite (tag_batch_on_hit w (Some a) filename folder_path model threshold
             character_threshold replace_underscore use_gpu prepend_tags
             exclude_tags st
             (cache_hit_intro _ _ sess Hname Hs)).
  rewrite (tag_with_cache_run w a filename folder_path threshold
             replace_underscore prepend_tags exclude_tags st sess tags
             input_name inp probs Hs Ht Hn He Hp Hr).
  rewrite Hfolder, Hopen. simpl. split; reflexivity.
Qed.

(** X20: images whose names differ only in the extension share one tags
    file.  When a cached model tags [<base>.<ext1>] and then
    [<base>.<ext2>] into the same folder, the second call overwrites what
    the first wrote: [<folder>/<base>.txt] holds the second image's tags
    and no other file has changed. *)
Theorem X20_same_stem_images_share_one_tags_file
  (w : World) (a1 a2 : NdArray.t) (base ext1 ext2 folder_path model : string)
  (threshold character_threshold : spec_float)
  (replace_underscore use_gpu : bool) (prepend_tags exclude_tags : string)
  (st : state) (sess : Session.t) (tags : list string)
  (input_name : string) (inp1 inp2 : tensor)
  (probs1 probs2 : list spec_float) :
  Cache.model_name (model_cache st) = Some (model_name_of model) ->
  Cache.session (model_cache st) = Some sess ->
  Cache.tags (model_cache st) = Some tags ->
  Cache.input_name (model_cache st) = Some input_name ->
  image_is_empty (Some a1) = false ->
  image_is_empty (Some a2) = false ->
  preprocess w (Cache.input_size (model_cache st)) a1 = Some (Some inp1) ->
  preprocess w (Cache.input_size (model_cache st)) a2 = Some (Some inp2) ->
  session_run w sess input_name inp1 = Some probs1 ->
  session_run w sess input_name inp2 = Some probs2 ->
  PyStr.truthy folder_path = true ->
  (forall fs,
     open_w w (Pathlib.joinpath folder_path (base ++ ".txt")) fs = true) ->
  PyStr.truthy base = true -> PyStr.contains "/" base = false ->
  PyStr.truthy ext1 = true -> PyStr.contains "." ext1 = false ->
  PyStr.contains "/" ext1 = false ->
  PyStr.truthy ext2 = true -> PyStr.contains "." ext2 = false ->
  PyStr.contains "/" ext2 = false ->
  let first :=
    tag_batch w (Some a1) (base ++ "." ++ ext1) folder_path model threshold
      character_threshold replace_underscore use_gpu prepend_tags
      exclude_tags st in
  let second :=
    tag_batch w (Some a2) (base ++ "." ++ ext2) folder_path model threshold
      character_threshold replace_underscore use_gpu prepend_tags
      exclude_tags (snd first) in
  let txt_path := Pathlib.joinpath folder_path (base ++ ".txt") in
  fst second
  = compose_tags tags probs2 threshold exclude_tags replace_underscore
      prepend_tags
  /\ files (snd second) !! txt_path = Some (fst second)
  /\ forall q, q <> txt_path -> files (snd second) !! q = files st !! q.
Proof.
  intros Hname Hs Ht Hn He1 He2 Hp1 Hp2 Hr1 Hr2 Hfolder Hopen
         Hb Hbs Hx1 Hd1 Hs1 Hx2 Hd2 Hs2 first second txt_path.
  assert (Hpath : forall ext,
            PyStr.truthy ext = true -> PyStr.contains "." ext = false ->
            PyStr.contains "/" ext = false ->
            txt_path_of folder_path (base ++ "." ++ ext) = txt_path).
  { intros ext Hx Hd Hsl. unfold txt_path_of, txt_path.
    now rewrite (proj1 (stem_and_suffix base ext Hb Hbs Hx Hd Hsl)). }
  destruct (tag_batch_hit_writes w a1 (base ++ "." ++ ext1) folder_path
              model threshold character_threshold replace_underscore
              use_gpu prepend_tags exclude_tags st sess tags input_name
              inp1 probs1 Hname Hs Ht Hn He1 Hp1 Hr1 Hfolder)
    as [Hc1 Hf1].
  { rewrite (Hpath ext1 Hx1 Hd1 Hs1). apply Hopen. }
  fold first in Hc1, Hf1. rewrite (Hpath ext1 Hx1 Hd1 Hs1) in Hf1.
  assert (Hout : fst second
                 = compose_tags tags probs2 threshold exclude_tags
                     replace_underscore prepend_tags).
  { unfold second, tag_batch, tag_batch_outcome.
    rewrite (tag_batch_on_hit w (Some a2) (base ++ "." ++ ext2) folder_path
               model threshold character_threshold replace_underscore
               use_gpu prepend_tags exclude_tags (snd first)).
    - rewrite (tag_with_cache_run w a2 (base ++ "." ++ ext2) folder_path
                 threshold replace_underscore prepend_tags exclude_tags
                 (snd first) sess tags input_name inp2 probs2);
        rewrite ?Hc1; auto.
    - apply (cache_hit_intro _ _ sess); rewrite Hc1; assumption. }
  destruct (tag_batch_hit_writes w a2 (base ++ "." ++ ext2) folder_path
              model threshold character_threshold replace_underscore
              use_gpu prepend_tags exclude_tags (snd first) sess tags
              input_name inp2 probs2) as [_ Hf2];
    rewrite ?Hc1; auto.
  { rewrite (Hpath ext2 Hx2 Hd2 Hs2). apply Hopen. }
  fold second in Hf2. rewrite (Hpath ext2 Hx2 Hd2 Hs2), Hf1 in Hf2.
  split; [exact Hout|]. rewrite Hf2. split.
  - apply lookup_insert_eq.
  - intros q Hq. now rewrite !lookup_insert_ne by congruence.
Qed.

Lemma X20_witness :
  let first :=
    tag_batch Fixture.world (Some Fixture.grey) "a.png" "/out/" Fixture.vit
      (Fixture.frac 35 100) (Fixture.frac 85 100) true false "first" ""
      Fixture.loaded in
  let second :=
    tag_batch Fixture.world (Some Fixture.grey) "a.jpg" "/out/" Fixture.vit
      (Fixture.frac 35 100) (Fixture.frac 85 100) true false "first" ""
      (snd first) in
  files (snd second) !! "/out/a.txt" = Some (fst second).
Proof.
  exact (proj1 (proj2
    (X20_same_stem_images_share_one_tags_file Fixture.world
       Fixture.grey Fixture.grey "a" "png" "jpg" "/out/" Fixture.vit
       (Fixture.frac 35 100) (Fixture.frac 85 100) true false "first" ""
       Fixture.loaded Fixture.cpu_session
       ["Cat"; "blue_sky"; "tail"] "input" Fixture.grey_input
       Fixture.grey_input
       [Fixture.f32 9 10; Fixture.f32 35 100; Fixture.f32 1 2;
        Fixture.f32 99 100]
       [Fixture.f32 9 10; Fixture.f32 35 100; Fixture.f32 1 2;
        Fixture.f32 99 100]
       eq_refl eq_refl eq_refl eq_refl eq_refl eq_refl eq_refl eq_refl
       eq_refl eq_refl eq_refl (fun _ => eq_refl) eq_refl eq_refl eq_refl
       eq_refl eq_refl eq_refl eq_refl eq_refl))).
Defined.
